(** * Hot Rod client protocol (infinispan/hotrod.py): codec engine and
      response correlation, embedded in Rocq.

    The embedding follows [infinispan/hotrod.py]:
    - message classes are an enumeration [cls] with a table of field
      descriptors ([fields]) and an opcode ([OP_CODE]);
    - a message instance is its class plus one slot per attribute name;
    - [_encode] and [_decode] are the generic walks over the field list;
    - [Protocol] keeps the id counter, the response table (a [gmap]) and the
      connection; [send] threads that state explicitly.

    The modules [infinispan.codec], [infinispan.messenger],
    [infinispan.error] and [infinispan.connection] are used by hotrod.py but
    are not part of the sources at hand; what is needed from them is
    modelled from the specification and marked as such. *)

From Stdlib Require Import ZArith List Bool Lia.
From Stdlib.Strings Require Import String Byte.
From stdpp Require Import gmap.
Import ListNotations.

Local Open Scope string_scope.
Local Open Scope list_scope.
Local Open Scope Z_scope.

(** ** Exceptions and the result monad *)

Inductive decode_reason :=
| UnsupportedOp            (* "Response operation with code %s is not supported." *)
| EndOfData                (* input exhausted inside a field *)
| Malformed.               (* a varint that is too long or out of its domain *)

Inductive exn :=
| EncodeError (cls_name : string) (f_name : string)
| DecodeError (why : decode_reason)
| ConnectionError
| TypeError
| ValueError
| AttributeError
| RecursionError.

Inductive result (A : Type) :=
| Ok (a : A)
| Raise (e : exn).
Arguments Ok {A} a.
Arguments Raise {A} e.

Notation "'let*' x ':=' c 'in' k" :=
  (match c with Ok x => k | Raise e => Raise e end)
  (at level 10, x pattern, c at level 100, k at level 200, only parsing).

(** ** Constants of hotrod.py *)

Module ClientIntelligence.
Definition BASIC := 0x01.
Definition TOPOLOGY := 0x02.
Definition HASH := 0x03.
End ClientIntelligence.

Module TimeUnits.
Definition SECONDS := 0x00.
Definition MILISECONDS := 0x01.
Definition NANOSECONDS := 0x02.
Definition MICROSECONDS := 0x03.
Definition MINUTES := 0x04.
Definition HOURS := 0x05.
Definition DAYS := 0x06.
Definition DEFAULT := 0x07.
Definition INFINITE := 0x08.
End TimeUnits.

Module Status.
Definition OK := 0x00.
Definition ACTION_FAILED := 0x01.
Definition KEY_DOES_NOT_EXISTS := 0x02.
Definition OK_WITH_VALUE := 0x03.
Definition OK_COMP_ENABLED := 0x06.
Definition OK_PREV_VAL_COMP_ENABLED := 0x07.
Definition NOT_EXEC_PREV_VAL_COMP_ENABLED := 0x08.
Definition INVALID_MSGID_OR_MAGIC := 0x81.
Definition UNKNOWN_CMD := 0x82.
Definition UNKNOWN_VERSION := 0x83.
Definition PARSING_ERR := 0x84.
Definition SERVER_ERR := 0x85.
Definition CMD_TIMEOUT := 0x86.
End Status.

Module Flag.
Definition FORCE_RETURN_VALUE := 0x0001.
Definition DEFAULT_LIFESPAN := 0x0002.
Definition DEFAULT_MAXIDLE := 0x0004.
Definition SKIP_CACHE_LOAD := 0x0008.
Definition SKIP_INDEXING := 0x0010.
End Flag.

(** ** Wire bytes *)

Definition Z_of_byte (b : byte) : Z := Z.of_N (Byte.to_N b).

(** The byte whose value is [z mod 256]. *)
Definition byte_of_Z (z : Z) : byte :=
  match Byte.of_N (Z.to_N (z mod 256)) with
  | Some b => b
  | None => x00
  end.

(** ** Message classes, values and instances *)

Inductive cls :=
| RequestHeader | ResponseHeader
| GetRequest | GetResponse
| PutRequest | PutResponse
| PingRequest | PingResponse
| ErrorResponse
| RemoveRequest | RemoveResponse
| ContainsKeyRequest | ContainsKeyResponse.

Definition cls_name (c : cls) : string :=
  match c with
  | RequestHeader => "RequestHeader" | ResponseHeader => "ResponseHeader"
  | GetRequest => "GetRequest" | GetResponse => "GetResponse"
  | PutRequest => "PutRequest" | PutResponse => "PutResponse"
  | PingRequest => "PingRequest" | PingResponse => "PingResponse"
  | ErrorResponse => "ErrorResponse"
  | RemoveRequest => "RemoveRequest" | RemoveResponse => "RemoveResponse"
  | ContainsKeyRequest => "ContainsKeyRequest"
  | ContainsKeyResponse => "ContainsKeyResponse"
  end.

(** A Python value held in a field slot.  A [str] is kept as the text whose
    UTF-8 encoding is the character sequence of the Rocq string; the two
    element list of a split byte is [VPair]. *)
Inductive value :=
| VNone
| VInt (n : Z)
| VBytes (b : list byte)
| VStr (s : string)
| VPair (hi lo : Z)
| VMsg (m : message)
with message :=
| Msg (c : cls) (slots : string -> value).

(** The type of messages, where a parameter is itself named [message]. *)
Abbreviation Message := message (only parsing).

Definition class_of (m : message) : cls := let 'Msg c _ := m in c.

Definition getattr (m : message) (f_name : string) : value :=
  let 'Msg _ slots := m in slots f_name.

Definition setattr (m : message) (f_name : string) (v : value) : message :=
  let 'Msg c slots := m in
  Msg c (fun n => if String.eqb n f_name then v else slots n).

Definition is_None (v : value) : bool :=
  match v with VNone => true | _ => false end.

(** The [type] attribute of a field class: the name of the codec method. *)
Inductive wire_type :=
| byte_t | uvarint_t | uvarlong_t | bytes_t | string_t | splitbyte_t
| composite_t.

Record FieldSpec := {
  f_name : string;
  f_type : wire_type;
  f_default : value;
  f_optional : bool;
  f_condition : option (message -> result bool)
}.

(** ** infinispan.codec *)

(** Bounds of the unsigned varint (32 bit) and varlong (64 bit) domains. *)
Definition UVARINT_LIMIT : Z := 4294967296.
Definition UVARLONG_LIMIT : Z := 18446744073709551616.

(** Modelled from the spec: the class [Encoder] of infinispan.codec, which is
    not among the sources.  One method per wire type, each appending to the
    byte array: a byte is one unsigned 8-bit unit; an unsigned varint or
    varlong is written in base 128, low group first, 7 data bits a byte, the
    top bit set on every byte but the last; bytes and strings are a varint
    length followed by the raw bytes; a split byte packs two 4-bit values,
    the first in the high half.  An absent string is written as the empty
    string, which is the [00] that stands for the unset cache name in the
    spec's Ping frame [A0 01 19 17 00 00 01 00]. *)
Module Encoder.
Definition t := list byte.

Definition new : t := [].

Fixpoint uvar (groups : nat) (n : Z) : list byte :=
  match groups with
  | O => []
  | S g =>
      if n <? 128 then [byte_of_Z n]
      else byte_of_Z (Z.lor (Z.land n 127) 128) :: uvar g (Z.shiftr n 7)
  end.

Definition byte (v : value) (e : t) : result t :=
  match v with
  | VInt n =>
      if (0 <=? n) && (n <? 256) then Ok (e ++ [byte_of_Z n])
      else Raise ValueError
  | _ => Raise TypeError
  end.

Definition uvarint (v : value) (e : t) : result t :=
  match v with
  | VInt n =>
      if (0 <=? n) && (n <? UVARINT_LIMIT) then Ok (e ++ uvar 5 n)
      else Raise ValueError
  | _ => Raise TypeError
  end.

Definition uvarlong (v : value) (e : t) : result t :=
  match v with
  | VInt n =>
      if (0 <=? n) && (n <? UVARLONG_LIMIT) then Ok (e ++ uvar 10 n)
      else Raise ValueError
  | _ => Raise TypeError
  end.

Definition raw (b : list Byte.byte) (e : t) : result t :=
  let n := Z.of_nat (length b) in
  if n <? UVARINT_LIMIT then Ok (e ++ uvar 5 n ++ b) else Raise ValueError.

Definition bytes (v : value) (e : t) : result t :=
  match v with
  | VBytes b => raw b e
  | _ => Raise TypeError
  end.

Definition string (v : value) (e : t) : result t :=
  match v with
  | VStr s => raw (list_byte_of_string s) e
  | VNone => raw [] e
  | _ => Raise TypeError
  end.

Definition splitbyte (v : value) (e : t) : result t :=
  match v with
  | VPair hi lo =>
      if (0 <=? hi) && (hi <? 16) && (0 <=? lo) && (lo <? 16)
      then Ok (e ++ [byte_of_Z (Z.lor (Z.shiftl hi 4) lo)])
      else Raise ValueError
  | _ => Raise TypeError
  end.

(** [getattr(encoder, f_cls.type)(f)] *)
Definition call (ty : wire_type) (v : value) (e : t) : result t :=
  match ty with
  | byte_t => byte v e
  | uvarint_t => uvarint v e
  | uvarlong_t => uvarlong v e
  | bytes_t => bytes v e
  | string_t => string v e
  | splitbyte_t => splitbyte v e
  | composite_t => Raise AttributeError
  end.
(** [Encoder.result()]: the bytes written. *)
Definition result (e : t) : list Byte.byte := e.
End Encoder.

(** Modelled from the spec: the class [Decoder] of infinispan.codec, the
    inverse of [Encoder] over a byte source.  The state is the input not yet
    consumed.  Exhausted input and a varint that does not end within its
    domain are a DecodeError. *)
Module Decoder.
Definition t := list byte.

Definition new (data : list Byte.byte) : t := data.

Fixpoint uvar (groups : nat) (d : t) : result (Z * t) :=
  match groups with
  | O => Raise (DecodeError Malformed)
  | S g =>
      match d with
      | [] => Raise (DecodeError EndOfData)
      | b :: d' =>
          let n := Z_of_byte b in
          if n <? 128 then Ok (n, d')
          else
            let* (hi, d'') := uvar g d' in
            Ok (Z.lor (Z.land n 127) (Z.shiftl hi 7), d'')
      end
  end.

Definition byte (d : t) : result (value * t) :=
  match d with
  | [] => Raise (DecodeError EndOfData)
  | b :: d' => Ok (VInt (Z_of_byte b), d')
  end.

Definition uvar_in (groups : nat) (limit : Z) (d : t) : result (Z * t) :=
  let* (n, d') := uvar groups d in
  if n <? limit then Ok (n, d') else Raise (DecodeError Malformed).

Definition uvarint (d : t) : result (value * t) :=
  let* (n, d') := uvar_in 5 UVARINT_LIMIT d in Ok (VInt n, d').

Definition uvarlong (d : t) : result (value * t) :=
  let* (n, d') := uvar_in 10 UVARLONG_LIMIT d in Ok (VInt n, d').

Definition raw (d : t) : result (list Byte.byte * t) :=
  let* (n, d') := uvar_in 5 UVARINT_LIMIT d in
  if Z.of_nat (length d') <? n then Raise (DecodeError EndOfData)
  else Ok (firstn (Z.to_nat n) d', skipn (Z.to_nat n) d').

Definition bytes (d : t) : result (value * t) :=
  let* (b, d') := raw d in Ok (VBytes b, d').

Definition string (d : t) : result (value * t) :=
  let* (b, d') := raw d in Ok (VStr (string_of_list_byte b), d').

Definition splitbyte (d : t) : result (value * t) :=
  match d with
  | [] => Raise (DecodeError EndOfData)
  | b :: d' =>
      let n := Z_of_byte b in
      Ok (VPair (Z.shiftr n 4) (Z.land n 15), d')
  end.

(** [getattr(decoder, f_cls.type)()] *)
Definition call (ty : wire_type) (d : t) : result (value * t) :=
  match ty with
  | byte_t => byte d
  | uvarint_t => uvarint d
  | uvarlong_t => uvarlong d
  | bytes_t => bytes d
  | string_t => string d
  | splitbyte_t => splitbyte d
  | composite_t => Raise AttributeError
  end.
End Decoder.

(** ** infinispan.messenger *)

(** Python's [==] against an integer constant. *)
Definition py_eq_int (v : value) (n : Z) : bool :=
  match v with VInt k => k =? n | _ => false end.

(** Attribute access [v.name] on a slot value. *)
Definition attr (v : value) (name : string) : result value :=
  match v with
  | VMsg m => Ok (getattr m name)
  | _ => Raise AttributeError
  end.

(** Subscript [v[i]] on the two-element list of a split byte. *)
Definition subscript (v : value) (i : nat) : result Z :=
  match v, i with
  | VPair hi _, O => Ok hi
  | VPair _ lo, S O => Ok lo
  | _, _ => Raise TypeError
  end.

Definition field (name : string) (ty : wire_type) : FieldSpec :=
  {| f_name := name; f_type := ty; f_default := VNone;
     f_optional := false; f_condition := None |}.

Definition with_default (v : value) (f : FieldSpec) : FieldSpec :=
  {| f_name := f_name f; f_type := f_type f; f_default := v;
     f_optional := f_optional f; f_condition := f_condition f |}.

Definition with_optional (f : FieldSpec) : FieldSpec :=
  {| f_name := f_name f; f_type := f_type f; f_default := f_default f;
     f_optional := true; f_condition := f_condition f |}.

Definition with_condition (c : message -> result bool) (f : FieldSpec)
  : FieldSpec :=
  {| f_name := f_name f; f_type := f_type f; f_default := f_default f;
     f_optional := f_optional f; f_condition := Some c |}.

Fixpoint find_field (name : string) (fs : list FieldSpec) : option FieldSpec :=
  match fs with
  | [] => None
  | f :: fs' => if String.eqb (f_name f) name then Some f
                else find_field name fs'
  end.

Fixpoint kwarg (name : string) (kwargs : list (string * value)) : option value :=
  match kwargs with
  | [] => None
  | (k, v) :: kwargs' => if String.eqb k name then Some v
                         else kwarg name kwargs'
  end.

(** Modelled from the spec: [Message.__init__] of infinispan.messenger, which
    is not among the sources.  Every declared field gets the keyword
    argument of its name when there is one and its default otherwise (a
    default applies when a field is unset at construction); a field without
    default starts unset. *)
Definition Message_init (c : cls) (fs : list FieldSpec)
    (kwargs : list (string * value)) : message :=
  Msg c (fun n =>
    match find_field n fs with
    | Some f => match kwarg n kwargs with
                | Some v => v
                | None => f_default f
                end
    | None => VNone
    end).

(** ** Message shapes of hotrod.py *)

Definition RequestHeader_fields : list FieldSpec :=
  [ with_default (VInt 0xA0) (field "magic" byte_t);
    field "id" uvarlong_t;
    with_default (VInt 25) (field "version" byte_t);
    field "op" byte_t;
    with_optional (field "cname" string_t);
    with_default (VInt 0) (field "flags" uvarint_t);
    with_default (VInt ClientIntelligence.BASIC) (field "ci" byte_t);
    with_default (VInt 0) (field "t_id" uvarint_t) ].

Definition ResponseHeader_fields : list FieldSpec :=
  [ with_default (VInt 0xA1) (field "magic" byte_t);
    field "id" uvarlong_t;
    field "op" byte_t;
    with_default (VInt Status.OK) (field "status" byte_t);
    with_default (VInt 0) (field "tcm" byte_t) ].

(** [header = m.Composite(default=RequestHeader)]: the default of a composite
    is a fresh instance of the class. *)
Definition Request_header : FieldSpec :=
  with_default (VMsg (Message_init RequestHeader RequestHeader_fields []))
    (field "header" composite_t).

Definition Response_header : FieldSpec :=
  with_default (VMsg (Message_init ResponseHeader ResponseHeader_fields []))
    (field "header" composite_t).

(** [lambda s: s.header.status == code] *)
Definition status_is (code : Z) (s : message) : result bool :=
  let* st := attr (getattr s "header") "status" in
  Ok (py_eq_int st code).

(** [lambda s: s.tunits[i] not in [TimeUnits.DEFAULT, TimeUnits.INFINITE]] *)
Definition tunit_is_explicit (i : nat) (s : message) : result bool :=
  let* u := subscript (getattr s "tunits") i in
  Ok (negb (existsb (Z.eqb u) [TimeUnits.DEFAULT; TimeUnits.INFINITE])).

(** [message.fields] together with the field classes
    [getattr(message.__class__, f_name)], in declaration order, the
    inherited header first. *)
Definition fields (c : cls) : list FieldSpec :=
  match c with
  | RequestHeader => RequestHeader_fields
  | ResponseHeader => ResponseHeader_fields
  | GetRequest => [ Request_header; field "key" bytes_t ]
  | GetResponse =>
      [ Response_header;
        with_condition (status_is Status.OK) (field "value" bytes_t) ]
  | PutRequest =>
      [ Request_header;
        field "key" bytes_t;
        with_default (VPair TimeUnits.DEFAULT TimeUnits.DEFAULT)
          (field "tunits" splitbyte_t);
        with_condition (tunit_is_explicit 0)
          (with_default (VInt 10) (field "lifespan" uvarint_t));
        with_condition (tunit_is_explicit 1)
          (with_default (VInt 10) (field "max_idle" uvarint_t));
        field "value" bytes_t ]
  | PutResponse =>
      [ Response_header;
        with_condition (status_is Status.OK_WITH_VALUE)
          (field "prev_value" bytes_t) ]
  | PingRequest => [ Request_header ]
  | PingResponse => [ Response_header ]
  | ErrorResponse => [ Response_header; field "error_message" string_t ]
  | RemoveRequest => [ Request_header; field "key" bytes_t ]
  | RemoveResponse =>
      [ Response_header;
        with_condition (status_is Status.OK_WITH_VALUE)
          (field "prev_value" bytes_t) ]
  | ContainsKeyRequest => [ Request_header; field "key" bytes_t ]
  | ContainsKeyResponse => [ Response_header ]
  end.

Definition OP_CODE (c : cls) : option Z :=
  match c with
  | RequestHeader | ResponseHeader => None
  | GetRequest => Some 0x03
  | GetResponse => Some 0x04
  | PutRequest => Some 0x01
  | PutResponse => Some 0x02
  | PingRequest => Some 0x17
  | PingResponse => Some 0x18
  | ErrorResponse => Some 0x50
  | RemoveRequest => Some 0x0B
  | RemoveResponse => Some 0x0C
  | ContainsKeyRequest => Some 0x0F
  | ContainsKeyResponse => Some 0x10
  end.

(** [self.header.<name> = v] *)
Definition set_header (self : message) (name : string) (v : value)
  : result message :=
  match getattr self "header" with
  | VMsg h => Ok (setattr self "header" (VMsg (setattr h name v)))
  | _ => Raise AttributeError
  end.

(** Instantiating a class with keyword arguments: [Message.__init__], then for a request or a response
    [self.header.op = self.OP_CODE]. *)
Definition construct (c : cls) (kwargs : list (string * value))
  : result message :=
  let self := Message_init c (fields c) kwargs in
  match OP_CODE c with
  | Some op => set_header self "op" (VInt op)
  | None => Ok self
  end.

(** [Response.__subclasses__()], in definition order. *)
Definition Response_subclasses : list cls :=
  [ GetResponse; PutResponse; PingResponse; ErrorResponse; RemoveResponse;
    ContainsKeyResponse ].

(** ** The codec engine: Protocol._encode and Protocol._decode *)

(** [hasattr(f_cls, 'condition') and not f_cls.condition(message)] *)
Definition skipped (f_cls : FieldSpec) (message : message) : result bool :=
  match f_condition f_cls with
  | Some condition => let* b := condition message in Ok (negb b)
  | None => Ok false
  end.

Section EncodeFields.
(** The recursive call [self._encode(f, encoder)] on a composite field. *)
Variable _encode_composite : value -> Encoder.t -> result Encoder.t.
Variable c : cls.
Variable slots : string -> value.

(** The body of [for f_name in message.fields] in [_encode]. *)
Fixpoint _encode_fields (fs : list FieldSpec) (encoder : Encoder.t)
  : result Encoder.t :=
  match fs with
  | [] => Ok encoder
  | f_cls :: fs' =>
      let f := slots (f_name f_cls) in
      let* skip := skipped f_cls (Msg c slots) in
      if skip then _encode_fields fs' encoder
      else if is_None f && negb (f_optional f_cls)
      then Raise (EncodeError (cls_name c) (f_name f_cls))
      else
        let* encoder :=
          match f_type f_cls with
          | composite_t => _encode_composite f encoder
          | ty => Encoder.call ty f encoder
          end in
        _encode_fields fs' encoder
  end.
End EncodeFields.

Fixpoint _encode (message : message) (encoder : Encoder.t)
  : result Encoder.t :=
  match message with
  | Msg c slots =>
      _encode_fields
        (fun f encoder =>
           match f with
           | VMsg m => _encode m encoder
           | _ => Raise AttributeError
           end)
        c slots (fields c) encoder
  end.

(** [Protocol.encode] *)
Definition encode (message : message) : result (list byte) :=
  let* encoder := _encode message Encoder.new in
  Ok (Encoder.result encoder).

Section DecodeFields.
(** The recursive call [self._decode(f, decoder)] on a composite field; the
    nested message is updated in place, so the updated message is handed
    back together with the decoder. *)
Variable _decode_composite
  : value -> Decoder.t -> result (value * Decoder.t).

(** The body of [for f_name in message.fields[skip_fields:]] in
    [_decode]. *)
Fixpoint _decode_fields (fs : list FieldSpec) (message : message)
    (decoder : Decoder.t) : result (Message * Decoder.t) :=
  match fs with
  | [] => Ok (message, decoder)
  | f_cls :: fs' =>
      let f := getattr message (f_name f_cls) in
      let* skip := skipped f_cls message in
      if skip then _decode_fields fs' message decoder
      else
        let* (decoded, decoder) :=
          match f_type f_cls with
          | composite_t => _decode_composite f decoder
          | ty => Decoder.call ty decoder
          end in
        _decode_fields fs' (setattr message (f_name f_cls) decoded) decoder
  end.
End DecodeFields.

(** [depth] bounds the nesting of composite fields that is followed, as the
    interpreter's recursion limit does. *)
Fixpoint _decode (depth : nat) (message : message) (decoder : Decoder.t)
    (skip_fields : nat) : result (Message * Decoder.t) :=
  match depth with
  | O => Raise RecursionError
  | S depth' =>
      _decode_fields
        (fun f decoder =>
           match f with
           | VMsg m =>
               let* (m', decoder') := _decode depth' m decoder 0 in
               Ok (VMsg m', decoder')
           | _ => Raise AttributeError
           end)
        (skipn skip_fields (fields (class_of message))) message decoder
  end.

Definition recursion_limit : nat := 1000.

(** The loop [for resp_cls in Response.__subclasses__()] of [decode]: every
    class whose opcode equals [rh.op] is instantiated on [rh], the last one
    wins.  The constructor writes the opcode into [rh] itself, which the
    response shares, so [rh] is threaded along. *)
Fixpoint dispatch (classes : list cls) (rh : message)
    (response : option message) : result (option message) :=
  match classes with
  | [] => Ok response
  | resp_cls :: classes' =>
      match OP_CODE resp_cls with
      | Some op =>
          if py_eq_int (getattr rh "op") op then
            let* response := construct resp_cls [("header", VMsg rh)] in
            let* rh := match getattr response "header" with
                       | VMsg h => Ok h
                       | _ => Raise AttributeError
                       end in
            dispatch classes' rh (Some response)
          else dispatch classes' rh response
      | None => dispatch classes' rh response
      end
  end.

(** [Protocol.decode] *)
Definition decode (data : list byte) : result message :=
  let* rh := construct ResponseHeader [] in
  let decoder := Decoder.new data in
  let* (rh, decoder) := _decode recursion_limit rh decoder 0 in
  let* response := dispatch Response_subclasses rh None in
  match response with
  | None => Raise (DecodeError UnsupportedOp)
  | Some response =>
      let* (response, _) := _decode recursion_limit response decoder 1 in
      Ok response
  end.

(** ** The connection and Protocol.send *)

(** The transport is an external collaborator.  A connection is modelled by
    what has been written to it and by the byte sources its successive
    [recv()] calls hand out; a [recv()] with nothing left to read is the read
    timeout, a ConnectionError. *)
Record Connection := {
  sent : list (list byte);
  inbox : list (list byte)
}.

Definition conn_send (data : list byte) (conn : Connection) : Connection :=
  {| sent := sent conn ++ [data]; inbox := inbox conn |}.

Definition conn_recv (conn : Connection) : Connection * result (list byte) :=
  match inbox conn with
  | [] => (conn, Raise ConnectionError)
  | data :: rest => ({| sent := sent conn; inbox := rest |}, Ok data)
  end.

(** The state of a [Protocol] instance; [self.lock] only guards the
    increment of [_id]. *)
Record Protocol := {
  conn : Connection;
  _id : Z;
  _resps : gmap Z message
}.

(** [Protocol.__init__] *)
Definition Protocol_init (conn : Connection) : Protocol :=
  {| conn := conn; _id := 0; _resps := ∅ |}.

Definition _get_next_id (self : Protocol) : Z * Protocol :=
  let id := _id self + 1 in
  (id, {| conn := conn self; _id := id; _resps := _resps self |}).

(** The body of the [while] loop of [send], run under [self.conn.lock]:
    one frame is read, decoded and stored. *)
Definition poll (req_id : Z) (self : Protocol) : Protocol * result unit :=
  let '(conn', data) := conn_recv (conn self) in
  let self := {| conn := conn'; _id := _id self; _resps := _resps self |} in
  match data with
  | Raise e => (self, Raise e)
  | Ok data =>
      match decode data with
      | Raise e => (self, Raise e)
      | Ok response =>
          ({| conn := conn self; _id := _id self;
              _resps := <[req_id := response]> (_resps self) |}, Ok tt)
      end
  end.

(** [while req_id not in self._resps: ...; return self._resps[req_id]],
    for at most [turns] turns of the loop; [None] when the loop is still
    running after them. *)
Fixpoint wait (turns : nat) (req_id : Z) (self : Protocol)
  : Protocol * option (result message) :=
  match _resps self !! req_id with
  | Some response => (self, Some (Ok response))
  | None =>
      match turns with
      | O => (self, None)
      | S turns' =>
          match poll req_id self with
          | (self, Raise e) => (self, Some (Raise e))
          | (self, Ok _) => wait turns' req_id self
          end
      end
  end.

(** [Protocol.send] *)
Definition send (turns : nat) (request : message) (self : Protocol)
  : Protocol * option (result message) :=
  let '(req_id, self) := _get_next_id self in
  match set_header request "id" (VInt req_id) with
  | Raise e => (self, Some (Raise e))
  | Ok request =>
      match encode request with
      | Raise e => (self, Some (Raise e))
      | Ok encoded_request =>
          let self := {| conn := conn_send encoded_request (conn self);
                         _id := _id self; _resps := _resps self |} in
          wait turns req_id self
      end
  end.

(** ** Waiters sharing one connection *)

(** One turn of the loop of [send] taken by the caller waiting for [req_id]:
    the test of the loop and, when the id is still missing, the body under
    the connection lock.  The lock makes the body atomic with respect to
    the other waiters, and no other waiter writes the key [req_id].
    [Some] is the value [send] returns (or raises), [None] means the caller
    loops again. *)
Definition turn (req_id : Z) (self : Protocol)
  : Protocol * option (result message) :=
  match _resps self !! req_id with
  | Some response => (self, Some (Ok response))
  | None =>
      match poll req_id self with
      | (self, Raise e) => (self, Some (Raise e))
      | (self, Ok _) => (self, None)
      end
  end.

(** Callers blocked in [send], run under a schedule: each entry of the
    schedule lets the caller with that request id take one turn.  The
    outcome of every caller that has returned is recorded under its own
    request id. *)
Fixpoint run_waiters (schedule : list Z) (self : Protocol)
    (returned : gmap Z (result message))
  : Protocol * gmap Z (result message) :=
  match schedule with
  | [] => (self, returned)
  | req_id :: schedule' =>
      match returned !! req_id with
      | Some _ => run_waiters schedule' self returned
      | None =>
          match turn req_id self with
          | (self, Some r) =>
              run_waiters schedule' self (<[req_id := r]> returned)
          | (self, None) => run_waiters schedule' self returned
          end
      end
  end.

(** The id carried by the header of a response. *)
Definition response_id (r : result message) : option Z :=
  match r with
  | Ok m => match attr (getattr m "header") "id" with
            | Ok (VInt id) => Some id
            | _ => None
            end
  | Raise _ => None
  end.

(** ** Reference notions used to state the properties *)

(** The response class registered for an opcode. *)
Definition Response_class (op : Z) : option cls :=
  find (fun c => match OP_CODE c with Some o => op =? o | None => false end)
    Response_subclasses.

(** [ResponseHeader()] and the header a frame decodes to. *)
Definition ResponseHeader_new : message :=
  Message_init ResponseHeader (fields ResponseHeader) [].

Definition header_of (magic id op status tcm : Z) : message :=
  setattr (setattr (setattr (setattr (setattr ResponseHeader_new
    "magic" (VInt magic)) "id" (VInt id)) "op" (VInt op))
    "status" (VInt status)) "tcm" (VInt tcm).

(** What a decoder hands back for a value that went through the encoder:
    the value itself, and the empty string for an absent optional string. *)
Definition wire_image (v : value) : value :=
  match v with VNone => VStr "" | _ => v end.

(** The condition of a field holds on a message; an absent condition counts
    as always true. *)
Definition condition_holds (f : FieldSpec) (m : message) : Prop :=
  match f_condition f with
  | Some condition => condition m = Ok true
  | None => True
  end.

(** Some field of the message, or of a composite field that is encoded with
    it, is unset although it is not optional and its condition holds. *)
Inductive unset_required : message -> Prop :=
| unset_here (m : message) (f : FieldSpec) :
    In f (fields (class_of m)) -> condition_holds f m ->
    getattr m (f_name f) = VNone -> f_optional f = false ->
    unset_required m
| unset_nested (m : message) (f : FieldSpec) (m' : message) :
    In f (fields (class_of m)) -> condition_holds f m ->
    f_type f = composite_t -> getattr m (f_name f) = VMsg m' ->
    unset_required m' ->
    unset_required m.

(** A PingRequest as [send] prepares it for the request id [id]. *)
Definition PingRequest_with_id (id : Z) : result message :=
  let* request := construct PingRequest [] in
  set_header request "id" (VInt id).

(** C2 as the spec words it: once [send] has returned a response, the entry
    of the caller's request id is gone from the results table. *)
Definition removes_entry_on_return : Prop :=
  forall (turns : nat) (request : message) (self self' : Protocol)
         (r : message),
    send turns request self = (self', Some (Ok r)) ->
    _resps self' !! (_id self + 1) = None.

(** C1 as the spec words it: a caller that has returned from [send] holds
    the response that carries its own request id. *)
Definition delivered_to_owner (returned : gmap Z (result message)) : Prop :=
  forall (req_id : Z) (r : result message),
    returned !! req_id = Some r -> response_id r = Some req_id.

(** [PingRequest()] *)
Definition PingRequest_new : message :=
  setattr (Message_init PingRequest (fields PingRequest) []) "header"
    (VMsg (setattr (Message_init RequestHeader RequestHeader_fields [])
             "op" (VInt 0x17))).

(** A connection on which nothing has been written and whose server side
    has the given frames ready. *)
Definition connection_with (frames : list (list byte)) : Connection :=
  {| sent := []; inbox := frames |}.

(** Two callers on one connection: both have written their PingRequest
    (ids 1 and 2) and stand at the head of the loop of [send]; the server
    has answered the second request first. *)
Definition two_callers : Protocol :=
  let self :=
    Protocol_init (connection_with [ [xa1; x02; x18; x00; x00];
                                     [xa1; x01; x18; x00; x00] ]) in
  let self := fst (send 0 PingRequest_new self) in
  fst (send 0 PingRequest_new self).

(** The errors the byte source itself gives rise to. *)
Definition input_error (e : exn) : Prop :=
  e = DecodeError EndOfData \/ e = DecodeError Malformed.

(** Induction on a message through its composite fields. *)
Definition message_induction (P : message -> Prop)
    (step : forall c slots,
        (forall n m', slots n = VMsg m' -> P m') -> P (Msg c slots))
  : forall m, P m :=
  fix IH (m : message) : P m :=
    match m with
    | Msg c slots =>
        step c slots (fun n m' =>
          match slots n as v return v = VMsg m' -> P m' with
          | VMsg m0 => fun E =>
              eq_ind m0 P (IH m0) m'
                (f_equal (fun v => match v with VMsg x => x | _ => m0 end) E)
          | VNone => fun E => ltac:(discriminate E)
          | VInt _ => fun E => ltac:(discriminate E)
          | VBytes _ => fun E => ltac:(discriminate E)
          | VStr _ => fun E => ltac:(discriminate E)
          | VPair _ _ => fun E => ltac:(discriminate E)
          end)
    end.

(** The recursive call of [_encode] on the value of a composite field. *)
Definition _encode_composite (f : value) (encoder : Encoder.t)
  : result Encoder.t :=
  match f with
  | VMsg m => _encode m encoder
  | _ => Raise AttributeError
  end.

(** Encoding one field that is not skipped. *)
Definition encode_field (rec : value -> Encoder.t -> result Encoder.t)
    (f_cls : FieldSpec) (f : value) (encoder : Encoder.t)
  : result Encoder.t :=
  match f_type f_cls with
  | composite_t => rec f encoder
  | ty => Encoder.call ty f encoder
  end.

(** [GetRequest()], whose key is unset, with the request id 1 in its
    header. *)
Definition GetRequest_without_key : message :=
  setattr (Message_init GetRequest (fields GetRequest) []) "header"
    (VMsg (setattr
             (setattr (Message_init RequestHeader RequestHeader_fields [])
                "op" (VInt 0x03))
             "id" (VInt 1))).

(** A time unit under which a PutRequest carries no duration. *)
Definition omitted_unit (u : Z) : Prop :=
  u = TimeUnits.DEFAULT \/ u = TimeUnits.INFINITE.

(** A PutRequest with key 01, value 02 03, request id 1, the given time
    units and every other field at its default. *)
Definition PutRequest_example (tunits : value) : message :=
  setattr
    (setattr (Message_init PutRequest (fields PutRequest)
                [("key", VBytes [x01]); ("value", VBytes [x02; x03])])
       "tunits" tunits)
    "header"
    (VMsg (setattr
             (setattr (Message_init RequestHeader RequestHeader_fields [])
                "op" (VInt 0x01))
             "id" (VInt 1))).

(** The message shapes of hotrod.py that carry an opcode. *)
Definition modeled_shapes : list cls :=
  [ GetRequest; GetResponse; PutRequest; PutResponse; PingRequest;
    PingResponse; ErrorResponse; RemoveRequest; RemoveResponse;
    ContainsKeyRequest; ContainsKeyResponse ].

(** [r] has the class of [m] and every field of [m] that is set. *)
Definition reproduces_set_fields (m r : message) : Prop :=
  class_of r = class_of m /\
  forall f, In f (fields (class_of m)) -> f_type f <> composite_t ->
            getattr m (f_name f) <> VNone ->
            getattr r (f_name f) = getattr m (f_name f).

(** Every field of the message is set, and so is every field of a message
    held in one of its composite fields. *)
Inductive all_fields_set : message -> Prop :=
| all_fields_set_intro (m : message) :
    (forall f, In f (fields (class_of m)) -> getattr m (f_name f) <> VNone) ->
    (forall f m', In f (fields (class_of m)) -> f_type f = composite_t ->
       getattr m (f_name f) = VMsg m' -> all_fields_set m') ->
    all_fields_set m.

(** C6 as the spec words it: every modeled shape, request or response,
    with all of its fields set comes back from [decode] after [encode]. *)
Definition roundtrip_every_shape : Prop :=
  forall (m : message) (data : list byte),
    In (class_of m) modeled_shapes -> all_fields_set m ->
    encode m = Ok data ->
    exists r, decode data = Ok r /\ reproduces_set_fields m r.

(** The response the dispatch of [decode] builds on a decoded header. *)
Definition response_on (c : cls) (op : Z) (rh : message) : message :=
  setattr (Message_init c (fields c) [("header", VMsg rh)])
    "header" (VMsg (setattr rh "op" (VInt op))).

(** A PingRequest with all of its fields set: the request id 1 and the
    cache name [c] in its header, every other field of the header at its
    default. *)
Definition PingRequest_all_set : message :=
  setattr PingRequest_new "header"
    (VMsg (setattr
             (setattr
                (setattr (Message_init RequestHeader RequestHeader_fields [])
                   "op" (VInt 0x17))
                "id" (VInt 1))
             "cname" (VStr "c"))).

(** A GetResponse for request 1 with status OK and the value [41 42]. *)
Definition GetResponse_example : message :=
  Msg GetResponse (fun n =>
    if String.eqb n "header"
    then VMsg (header_of 0xA1 1 0x04 Status.OK 0)
    else if String.eqb n "value" then VBytes [x41; x42] else VNone).

(** ** Further notions: calls of send in sequence, field contributions *)

(** The states of a [Protocol] created by [Protocol.__init__] on the
    connection [conn0] after [n] calls of [send], each run to its end or cut
    short, made one after the other. *)
Inductive after_sends (conn0 : Connection) : nat -> Protocol -> Prop :=
| after_init : after_sends conn0 O (Protocol_init conn0)
| after_send (n turns : nat) (request : message) (self : Protocol) :
    after_sends conn0 n self ->
    after_sends conn0 (S n) (fst (send turns request self)).

(** The bytes one field contributes to the encoding of a message: the
    body of the loop of [_encode] for that field, run on an empty
    encoder.  A field under a false condition contributes nothing. *)
Definition field_bytes (m : message) (f_cls : FieldSpec)
  : result (list byte) :=
  let f := getattr m (f_name f_cls) in
  let* skip := skipped f_cls m in
  if skip then Ok []
  else if is_None f && negb (f_optional f_cls)
  then Raise (EncodeError (cls_name (class_of m)) (f_name f_cls))
  else encode_field _encode_composite f_cls f [].

(** The request classes of hotrod.py. *)
Definition Request_subclasses : list cls :=
  [ GetRequest; PutRequest; PingRequest; RemoveRequest; ContainsKeyRequest ].

(** The header of a request built with the defaults of RequestHeader, with
    the opcode its class writes into it and the id [send] writes into it. *)
Definition RequestHeader_with (op id : Z) : message :=
  setattr (setattr (Message_init RequestHeader RequestHeader_fields [])
             "op" (VInt op))
    "id" (VInt id).

(** A request of a class with a key, as [send] prepares it for the request
    id [id]: [cls(key=key)], then [request.header.id = id]. *)
Definition key_request_with_id (c : cls) (key : list byte) (id : Z)
  : result message :=
  let* request := construct c [("key", VBytes key)] in
  set_header request "id" (VInt id).

(** Decoding into [m] takes the same turns over the fields [fs] as
    encoding [M] took: on the message as it stands when the walk of
    [_decode] reaches a field, the condition of the field gives what it gave
    on [M]; a field that is decoded then holds what the decoder hands back
    for its value in [M]. *)
Fixpoint same_walk (M : message) (fs : list FieldSpec) (m : message)
  : Prop :=
  match fs with
  | [] => True
  | f :: fs' =>
      skipped f m = skipped f M /\
      match skipped f M with
      | Ok false =>
          same_walk M fs'
            (setattr m (f_name f) (wire_image (getattr M (f_name f))))
      | _ => same_walk M fs' m
      end
  end.

(** [m'] is [m] itself or a message held, directly or through further
    messages, in a composite field of [m]: the messages a call of [_encode]
    on [m] may walk. *)
Inductive part_of : message -> message -> Prop :=
| part_self (m : message) : part_of m m
| part_nested (m'' m' m : message) (f : FieldSpec) :
    In f (fields (class_of m)) -> f_type f = composite_t ->
    getattr m (f_name f) = VMsg m' -> part_of m'' m' -> part_of m'' m.

(** The test [resp_cls.OP_CODE == rh.op] of the loop of [decode]. *)
Definition has_opcode (op : Z) (c : cls) : bool :=
  match OP_CODE c with Some o => op =? o | None => false end.

(** A PutRequest built from a key and a value, every other field at its
    default, as [send] prepares it for the request id [id]. *)
Definition PutRequest_with_id (key value : list byte) (id : Z)
  : result message :=
  let* request :=
    construct PutRequest [("key", VBytes key); ("value", VBytes value)] in
  set_header request "id" (VInt id).

(** C4 as the spec words it: encoding raises an EncodeError if and only if
    some field is unset, not optional and under no false condition. *)
Definition EncodeError_iff_unset_required : Prop :=
  forall m : message,
    (exists cn nm, encode m = Raise (EncodeError cn nm)) <-> unset_required m.

(** The walk of [_encode] reaches a field that is unset, not optional and
    whose condition holds: the field is one of the message, or of a message
    in a composite field that the walk enters, and every field that the
    walk takes before it, in the order of declaration, is encoded or
    skipped. *)
Inductive reaches_unset_required : message -> Prop :=
| reaches_here (m : message) (pre : list FieldSpec) (f : FieldSpec)
    (post : list FieldSpec) :
    fields (class_of m) = pre ++ f :: post ->
    Forall (fun g => exists chunk, field_bytes m g = Ok chunk) pre ->
    condition_holds f m ->
    getattr m (f_name f) = VNone -> f_optional f = false ->
    reaches_unset_required m
| reaches_nested (m : message) (pre : list FieldSpec) (f : FieldSpec)
    (post : list FieldSpec) (m' : message) :
    fields (class_of m) = pre ++ f :: post ->
    Forall (fun g => exists chunk, field_bytes m g = Ok chunk) pre ->
    condition_holds f m ->
    f_type f = composite_t -> getattr m (f_name f) = VMsg m' ->
    reaches_unset_required m' ->
    reaches_unset_required m.

(** A GetRequest whose key is unset and whose header attribute has been
    assigned the number 5. *)
Definition GetRequest_with_bad_header : message :=
  Msg GetRequest (fun n => if String.eqb n "header" then VInt 5 else VNone).

(** A PutRequest with key and value whose time units have been set to
    None. *)
Definition PutRequest_without_tunits : message := PutRequest_example VNone.

(** ** infinispan.connection: the connection pool *)

(** Modelled from the spec: the class [ConnectionPool] of
    infinispan.connection, which is not among the sources (only its
    functional test is).  The pool holds a fixed number of connections and
    counts the ones not bound to an unfinished response read.  [recv]
    creates a response stream without reserving a connection; the first
    advance of a stream takes a connection (and waits when none is left);
    a stream that completes at end of data or is terminated early gives its
    connection back. *)
Module ConnectionPool.
Inductive stream_state := Idle | Reading | Done | Cancelled.

Record t := {
  size : nat;
  available : nat;
  streams : list stream_state
}.

Definition connect (n : nat) : t :=
  {| size := n; available := n; streams := [] |}.

(** A send picks a connection and writes; it reserves nothing. *)
Definition send (p : t) : t := p.

(** Creating a stream; its handle is its index. *)
Definition recv (p : t) : t * nat :=
  ({| size := size p; available := available p;
      streams := streams p ++ [Idle] |}, length (streams p)).

Definition set_stream (i : nat) (s : stream_state) (p : t) (avail : nat) : t :=
  {| size := size p; available := avail; streams := <[i := s]> (streams p) |}.

(** [next(stream)]; [None] when the caller has to wait for a connection
    or the handle is unknown. *)
Definition advance (i : nat) (p : t) : option t :=
  match streams p !! i with
  | Some Idle =>
      match available p with
      | O => None
      | S n => Some (set_stream i Reading p n)
      end
  | Some _ => Some p
  | None => None
  end.

(** The stream reaches the end of its data. *)
Definition finish (i : nat) (p : t) : option t :=
  match streams p !! i with
  | Some Reading => Some (set_stream i Done p (S (available p)))
  | Some _ => Some p
  | None => None
  end.

(** Early termination of the stream by its consumer. *)
Definition cancel (i : nat) (p : t) : option t :=
  match streams p !! i with
  | Some Reading => Some (set_stream i Cancelled p (S (available p)))
  | Some Idle => Some (set_stream i Cancelled p (available p))
  | Some _ => Some p
  | None => None
  end.

Inductive op := Send | Recv | Advance (i : nat) | Finish (i : nat)
              | Cancel (i : nat).

Definition step (o : op) (p : t) : option t :=
  match o with
  | Send => Some (send p)
  | Recv => Some (fst (recv p))
  | Advance i => advance i p
  | Finish i => finish i p
  | Cancel i => cancel i p
  end.

Fixpoint run (ops : list op) (p : t) : option t :=
  match ops with
  | [] => Some p
  | o :: ops' => match step o p with
                 | Some p' => run ops' p'
                 | None => None
                 end
  end.

Definition is_reading (s : stream_state) : bool :=
  match s with Reading => true | _ => false end.

Definition reading_count (l : list stream_state) : nat :=
  length (List.filter is_reading l).

(** Streams advanced at least once and neither completed nor cancelled. *)
Definition busy (p : t) : nat := reading_count (streams p).
End ConnectionPool.

(** * Properties *)

Arguments Z_of_byte : simpl never.
Arguments byte_of_Z : simpl never.
Arguments Decoder.uvarlong : simpl never.
Arguments Decoder.uvarint : simpl never.
Arguments Decoder.raw : simpl never.
Arguments Decoder.uvar_in : simpl never.

(** ** Wire bytes and varints *)

Lemma Z_of_byte_range (b : byte) : 0 <= Z_of_byte b < 256.
Proof.
  unfold Z_of_byte. pose proof (Byte.to_N_bounded b). lia.
Qed.

Lemma Z_of_byte_of_Z (z : Z) : 0 <= z < 256 -> Z_of_byte (byte_of_Z z) = z.
Proof.
  intros Hz. unfold byte_of_Z, Z_of_byte.
  rewrite Z.mod_small by lia.
  destruct (Byte.of_N (Z.to_N z)) as [b|] eqn:E.
  - apply Byte.to_of_N in E. rewrite E. lia.
  - apply Byte.of_N_None_iff in E. lia.
Qed.

Lemma byte_of_Z_of_byte (b : byte) : byte_of_Z (Z_of_byte b) = b.
Proof.
  unfold byte_of_Z. pose proof (Z_of_byte_range b) as Hb.
  rewrite Z.mod_small by lia. unfold Z_of_byte.
  rewrite N2Z.id, Byte.of_to_N. reflexivity.
Qed.

Lemma group_split (n : Z) :
  Z.lor (Z.land n 127) (Z.shiftl (Z.shiftr n 7) 7) = n.
Proof.
  apply Z.bits_inj'; intros i Hi.
  rewrite Z.lor_spec, Z.land_spec, Z.shiftl_spec by lia.
  change 127 with (Z.ones 7).
  destruct (Z.ltb_spec i 7) as [Hlt|Hge].
  - rewrite Z.ones_spec_low, (Z.testbit_neg_r _ (i - 7)) by lia.
    rewrite andb_true_r, orb_false_r. reflexivity.
  - rewrite Z.ones_spec_high, Z.shiftr_spec by lia.
    rewrite andb_false_r. simpl. f_equal. lia.
Qed.

Lemma group_byte (n : Z) :
  Z.lor (Z.land n 127) 128 = n mod 128 + 128.
Proof.
  change 127 with (Z.ones 7). rewrite Z.land_ones by lia.
  change (2 ^ 7) with 128.
  pose proof (Z.add_lor_land (n mod 128) 128) as Hadd.
  assert (H : Z.land (n mod 128) 128 = 0).
  { apply Z.bits_inj'; intros i Hi. rewrite Z.land_spec, Z.bits_0.
    change 128 with (2 ^ 7). rewrite Z.pow2_bits_eqb by lia.
    destruct (Z.eqb_spec 7 i) as [<-|Hne]; [|apply andb_false_r].
    change 128 with (2 ^ 7).
    rewrite Z.mod_pow2_bits_high by lia. reflexivity. }
  lia.
Qed.

Lemma group_byte_data (n : Z) :
  Z.land (n mod 128 + 128) 127 = Z.land n 127.
Proof.
  rewrite <- group_byte, Z.land_lor_distr_l, <- Z.land_assoc.
  change (Z.land 127 127) with 127. change (Z.land 128 127) with 0.
  apply Z.lor_0_r.
Qed.

Lemma uvar_roundtrip (groups : nat) :
  forall (n : Z) (rest : list byte),
    groups <> O -> 0 <= n < 128 ^ Z.of_nat groups ->
    Decoder.uvar groups (Encoder.uvar groups n ++ rest) = Ok (n, rest).
Proof.
  induction groups as [|g IH]; intros n rest Hg Hn.
  - congruence.
  - cbn [Encoder.uvar Decoder.uvar].
    destruct (Z.ltb_spec n 128) as [Hlt|Hge].
    + cbn [app]. rewrite Z_of_byte_of_Z by lia.
      destruct (Z.ltb_spec n 128); [reflexivity|lia].
    + cbn [app]. rewrite group_byte.
      assert (Hm : 0 <= n mod 128 < 128) by (apply Z.mod_pos_bound; lia).
      rewrite Z_of_byte_of_Z by lia.
      destruct (Z.ltb_spec (n mod 128 + 128) 128); [lia|].
      rewrite IH.
      * rewrite group_byte_data, group_split. reflexivity.
      * intros ->. change (128 ^ Z.of_nat 1) with 128 in Hn. lia.
      * rewrite Z.shiftr_div_pow2 by lia. change (2 ^ 7) with 128.
        rewrite Nat2Z.inj_succ, Z.pow_succ_r in Hn by lia.
        split; [apply Z.div_pos; lia|].
        apply Z.div_lt_upper_bound; lia.
Qed.

Lemma Ok_inj {A : Type} (a b : A) : Ok a = Ok b -> a = b.
Proof. intros H. inversion H. reflexivity. Qed.

Lemma uvar_in_roundtrip (groups : nat) (limit n : Z) (rest : list byte) :
  groups <> O -> 0 <= n < limit -> limit <= 128 ^ Z.of_nat groups ->
  Decoder.uvar_in groups limit (Encoder.uvar groups n ++ rest) = Ok (n, rest).
Proof.
  intros Hg Hn Hl. unfold Decoder.uvar_in.
  rewrite uvar_roundtrip by (try assumption; lia).
  destruct (Z.ltb_spec n limit); [reflexivity|lia].
Qed.

Lemma raw_roundtrip (b : list byte) (e e' : Encoder.t) :
  Encoder.raw b e = Ok e' ->
  exists chunk, e' = e ++ chunk /\
    forall rest, Decoder.raw (chunk ++ rest) = Ok (b, rest).
Proof.
  unfold Encoder.raw. cbv zeta. intros H.
  destruct (Z.ltb_spec (Z.of_nat (length b)) UVARINT_LIMIT) as [Hlt|]; [|discriminate].
  apply Ok_inj in H. subst e'. eexists; split; [reflexivity|]. intros rest.
  unfold Decoder.raw. rewrite <- app_assoc.
  rewrite uvar_in_roundtrip; [|congruence|lia|vm_compute; congruence].
  rewrite length_app.
  destruct (Z.ltb_spec (Z.of_nat (length b + length rest)) (Z.of_nat (length b))); [lia|].
  rewrite Nat2Z.id, firstn_app, Nat.sub_diag, firstn_all, skipn_app, Nat.sub_diag.
  rewrite skipn_all. cbn. rewrite app_nil_r. reflexivity.
Qed.

Lemma splitbyte_unpack (hi lo : Z) :
  0 <= hi < 16 -> 0 <= lo < 16 ->
  let b := Z.lor (Z.shiftl hi 4) lo in
  0 <= b < 256 /\ Z.shiftr b 4 = hi /\ Z.land b 15 = lo.
Proof.
  intros Hhi Hlo b.
  assert (Hb : b = hi * 16 + lo).
  { subst b. rewrite Z.shiftl_mul_pow2 by lia. change (2 ^ 4) with 16.
    pose proof (Z.add_lor_land (hi * 16) lo) as Hadd.
    assert (H0 : Z.land (hi * 16) lo = 0).
    { apply Z.bits_inj'; intros i Hi. rewrite Z.land_spec, Z.bits_0.
      destruct (Z.ltb_spec i 4).
      - change 16 with (2 ^ 4). rewrite Z.mul_pow2_bits_low by lia. reflexivity.
      - rewrite (Z.bits_above_log2 lo i); [apply andb_false_r|lia|].
        destruct (Z.eq_dec lo 0) as [->|]; [simpl; lia|].
        apply Z.log2_lt_pow2; [lia|]. 
        apply Z.lt_le_trans with (2 ^ 4); [simpl; lia|].
        apply Z.pow_le_mono_r; lia. }
    lia. }
  rewrite Z.shiftr_div_pow2 by lia. change 15 with (Z.ones 4).
  rewrite Z.land_ones by lia. change (2 ^ 4) with 16. rewrite Hb.
  repeat split; try lia.
  - rewrite Z.div_add_l by lia. rewrite Z.div_small by lia. lia.
  - rewrite Z.add_comm, Z.mod_add by lia. apply Z.mod_small; lia.
Qed.

Lemma call_roundtrip (ty : wire_type) (v : value) (e e' : Encoder.t) :
  Encoder.call ty v e = Ok e' ->
  exists chunk, e' = e ++ chunk /\
    forall rest, Decoder.call ty (chunk ++ rest) = Ok (wire_image v, rest).
Proof.
  destruct ty; cbn [Encoder.call Decoder.call].
  - unfold Encoder.byte. destruct v; try discriminate.
    destruct (Z.leb_spec 0 n), (Z.ltb_spec n 256); try discriminate.
    intros Henc. apply Ok_inj in Henc. subst e'. eexists; split; [reflexivity|]. intros rest.
    cbn. rewrite Z_of_byte_of_Z by lia. reflexivity.
  - unfold Encoder.uvarint. destruct v; try discriminate.
    destruct (Z.leb_spec 0 n), (Z.ltb_spec n UVARINT_LIMIT); try discriminate.
    intros Henc. apply Ok_inj in Henc. subst e'. eexists; split; [reflexivity|]. intros rest.
    unfold Decoder.uvarint.
    rewrite uvar_in_roundtrip; [reflexivity|congruence|lia|vm_compute; congruence].
  - unfold Encoder.uvarlong. destruct v; try discriminate.
    destruct (Z.leb_spec 0 n), (Z.ltb_spec n UVARLONG_LIMIT); try discriminate.
    intros Henc. apply Ok_inj in Henc. subst e'. eexists; split; [reflexivity|]. intros rest.
    unfold Decoder.uvarlong.
    rewrite uvar_in_roundtrip; [reflexivity|congruence|lia|vm_compute; congruence].
  - unfold Encoder.bytes. destruct v; try discriminate.
    intros H. destruct (raw_roundtrip _ _ _ H) as (chunk & -> & Hd).
    exists chunk; split; [reflexivity|]. intros rest.
    unfold Decoder.bytes. rewrite Hd. reflexivity.
  - unfold Encoder.string. destruct v; try discriminate.
    + intros H. destruct (raw_roundtrip _ _ _ H) as (chunk & -> & Hd).
      exists chunk; split; [reflexivity|]. intros rest.
      unfold Decoder.string. rewrite Hd. reflexivity.
    + intros H. destruct (raw_roundtrip _ _ _ H) as (chunk & -> & Hd).
      exists chunk; split; [reflexivity|]. intros rest.
      unfold Decoder.string. rewrite Hd.
      rewrite string_of_list_byte_of_string. reflexivity.
  - unfold Encoder.splitbyte. destruct v; try discriminate.
    destruct (Z.leb_spec 0 hi), (Z.ltb_spec hi 16), (Z.leb_spec 0 lo),
      (Z.ltb_spec lo 16); try discriminate.
    intros Henc. apply Ok_inj in Henc. subst e'. eexists; split; [reflexivity|]. intros rest.
    destruct (splitbyte_unpack hi lo) as (Hb & Hh & Hl); [lia|lia|].
    cbn. rewrite Z_of_byte_of_Z by lia. rewrite Hh, Hl. reflexivity.
  - discriminate.
Qed.

(** ** Decoding a frame *)

Lemma recursion_limit_S : recursion_limit = S (Nat.pred recursion_limit).
Proof. reflexivity. Qed.

Lemma decode_header (depth : nat) (magic op status tcm : byte) (id : Z)
    (d body : list byte) :
  Decoder.uvarlong d = Ok (VInt id, op :: status :: tcm :: body) ->
  _decode (S depth) ResponseHeader_new (Decoder.new (magic :: d)) 0
  = Ok (header_of (Z_of_byte magic) id (Z_of_byte op) (Z_of_byte status)
          (Z_of_byte tcm), body).
Proof.
  intros Hid. cbn. rewrite Hid. cbn. reflexivity.
Qed.

Lemma dispatch_spec (rh : message) (op : Z) :
  getattr rh "op" = VInt op ->
  dispatch Response_subclasses rh None
  = match Response_class op with
    | Some c => let* r := construct c [("header", VMsg rh)] in Ok (Some r)
    | None => Ok None
    end.
Proof.
  intros Hop. unfold Response_class, Response_subclasses.
  cbn [dispatch find OP_CODE]. rewrite Hop. cbn [py_eq_int].
  destruct (Z.eqb_spec op 4) as [->|?]; [destruct rh; reflexivity|].
  destruct (Z.eqb_spec op 2) as [->|?]; [destruct rh; reflexivity|].
  destruct (Z.eqb_spec op 24) as [->|?]; [destruct rh; reflexivity|].
  destruct (Z.eqb_spec op 80) as [->|?]; [destruct rh; reflexivity|].
  destruct (Z.eqb_spec op 12) as [->|?]; [destruct rh; reflexivity|].
  destruct (Z.eqb_spec op 16) as [->|?]; [destruct rh; reflexivity|].
  reflexivity.
Qed.

(** A frame with a complete header: the response class is looked up by the
    opcode of the header, the instance is built on the header, and the
    fields after the header are decoded from the rest of the frame. *)
Lemma decode_frame (magic op status tcm : byte) (id : Z) (d body : list byte) :
  Decoder.uvarlong d = Ok (VInt id, op :: status :: tcm :: body) ->
  decode (magic :: d)
  = match Response_class (Z_of_byte op) with
    | None => Raise (DecodeError UnsupportedOp)
    | Some c =>
        let* response :=
          construct c [("header",
            VMsg (header_of (Z_of_byte magic) id (Z_of_byte op)
                    (Z_of_byte status) (Z_of_byte tcm)))] in
        let* (response, _) := _decode recursion_limit response body 1 in
        Ok response
    end.
Proof.
  intros Hid. unfold decode.
  change (construct ResponseHeader []) with (Ok ResponseHeader_new).
  cbv beta iota. rewrite recursion_limit_S.
  rewrite (decode_header _ _ _ _ _ _ _ _ Hid).
  cbv beta iota.
  rewrite (dispatch_spec _ (Z_of_byte op)) by reflexivity.
  destruct (Response_class (Z_of_byte op)) as [c|]; [|reflexivity].
  destruct (construct c _); reflexivity.
Qed.

Lemma Z_of_byte_eq (b c : byte) : Z_of_byte b = Z_of_byte c -> b = c.
Proof.
  intros H. rewrite <- (byte_of_Z_of_byte b), <- (byte_of_Z_of_byte c), H.
  reflexivity.
Qed.

Lemma status_eqb (status c : byte) :
  (Z_of_byte status =? Z_of_byte c) = true <-> status = c.
Proof.
  rewrite Z.eqb_eq. split; [apply Z_of_byte_eq|congruence].
Qed.

(** Decoding the fields after the header of a GetResponse. *)
Lemma decode_GetResponse (magic status tcm : byte) (id : Z)
    (d body : list byte) :
  Decoder.uvarlong d = Ok (VInt id, x04 :: status :: tcm :: body) ->
  decode (magic :: d)
  = let rh := header_of (Z_of_byte magic) id 4 (Z_of_byte status)
                (Z_of_byte tcm) in
    let response :=
      setattr (Message_init GetResponse (fields GetResponse)
                 [("header", VMsg rh)])
        "header" (VMsg (setattr rh "op" (VInt 4))) in
    if Z_of_byte status =? Status.OK then
      let* (v, _) := Decoder.bytes body in Ok (setattr response "value" v)
    else Ok response.
Proof.
  intros Hid. rewrite (decode_frame _ _ _ _ _ _ _ Hid).
  change (Response_class (Z_of_byte x04)) with (Some GetResponse).
  cbv beta iota zeta. rewrite recursion_limit_S.
  cbn. change Status.OK with 0.
  destruct (Z_of_byte status =? 0); cbn; [|reflexivity].
  destruct (Decoder.bytes body) as [[v body']|e]; reflexivity.
Qed.

(** Decoding the fields after the header of an ErrorResponse. *)
Lemma decode_ErrorResponse (magic status tcm : byte) (id : Z)
    (d body : list byte) :
  Decoder.uvarlong d = Ok (VInt id, x50 :: status :: tcm :: body) ->
  decode (magic :: d)
  = let rh := header_of (Z_of_byte magic) id 80 (Z_of_byte status)
                (Z_of_byte tcm) in
    let response :=
      setattr (Message_init ErrorResponse (fields ErrorResponse)
                 [("header", VMsg rh)])
        "header" (VMsg (setattr rh "op" (VInt 80))) in
    let* (v, _) := Decoder.string body in
    Ok (setattr response "error_message" v).
Proof.
  intros Hid. rewrite (decode_frame _ _ _ _ _ _ _ Hid).
  change (Response_class (Z_of_byte x50)) with (Some ErrorResponse).
  cbv beta iota zeta. rewrite recursion_limit_S.
  cbn.
  destruct (Decoder.string body) as [[v body']|e]; reflexivity.
Qed.

(** ** C3: decoding dispatches on the opcode of the header *)

(** C3. A frame with a complete header is decoded according to the opcode in
    the header: opcode 0x04 yields a GetResponse (with the value when the
    status is OK), opcode 0x50 yields an ErrorResponse whose error_message
    is the decoded string, and an opcode no Response class is registered
    for makes decode raise DecodeError. *)
Theorem decode_dispatches_on_opcode
    (magic op status tcm : byte) (id : Z) (d body : list byte) :
  Decoder.uvarlong d = Ok (VInt id, op :: status :: tcm :: body) ->
  (op = x04 ->
     (forall r, decode (magic :: d) = Ok r -> class_of r = GetResponse) /\
     (status <> x00 ->
        exists r, decode (magic :: d) = Ok r /\ class_of r = GetResponse /\
                  getattr r "value" = VNone) /\
     (status = x00 -> forall v body', Decoder.bytes body = Ok (v, body') ->
        exists r, decode (magic :: d) = Ok r /\ class_of r = GetResponse /\
                  getattr r "value" = v)) /\
  (op = x50 ->
     (forall r, decode (magic :: d) = Ok r ->
        class_of r = ErrorResponse /\
        exists s, getattr r "error_message" = VStr s) /\
     (forall b body', Decoder.raw body = Ok (b, body') ->
        exists r, decode (magic :: d) = Ok r /\ class_of r = ErrorResponse /\
                  getattr r "error_message" = VStr (string_of_list_byte b))) /\
  (Response_class (Z_of_byte op) = None ->
     decode (magic :: d) = Raise (DecodeError UnsupportedOp)).
Proof.
  intros Hid. split; [|split].
  - intros ->. rewrite (decode_GetResponse _ _ _ _ _ _ Hid). cbv zeta.
    change Status.OK with (Z_of_byte x00).
    split; [|split].
    + destruct (Z_of_byte status =? Z_of_byte x00).
      * destruct (Decoder.bytes body) as [[v body']|e]; intros r Hr;
          [apply Ok_inj in Hr; subst r; reflexivity|discriminate].
      * intros r Hr. apply Ok_inj in Hr. subst r. reflexivity.
    + intros Hst. destruct (Z_of_byte status =? Z_of_byte x00) eqn:E.
      * apply status_eqb in E. contradiction.
      * eexists. split; [reflexivity|]. split; reflexivity.
    + intros -> v body' Hv.
      change (Z_of_byte x00 =? Z_of_byte x00) with true. cbv iota.
      rewrite Hv. eexists. split; [reflexivity|]. split; reflexivity.
  - intros ->. rewrite (decode_ErrorResponse _ _ _ _ _ _ Hid). cbv zeta.
    unfold Decoder.string. split.
    + intros r Hr. destruct (Decoder.raw body) as [[b body']|e];
        [|discriminate].
      apply Ok_inj in Hr. subst r. split; [reflexivity|].
      eexists. reflexivity.
    + intros b body' Hb. rewrite Hb.
      eexists. split; [reflexivity|]. split; reflexivity.
  - intros Hnone. rewrite (decode_frame _ _ _ _ _ _ _ Hid), Hnone.
    reflexivity.
Qed.

Lemma decode_dispatches_on_opcode_witness :
  (exists r, decode [xa1; x01; x04; x00; x00; x02; x41; x42] = Ok r /\
             class_of r = GetResponse /\
             getattr r "value" = VBytes [x41; x42]) /\
  (exists r, decode [xa1; x01; x50; x85; x00; x02; x41; x42] = Ok r /\
             class_of r = ErrorResponse /\
             getattr r "error_message" = VStr "AB") /\
  decode [xa1; x01; x51; x00; x00] = Raise (DecodeError UnsupportedOp).
Proof.
  split; [|split].
  - destruct (decode_dispatches_on_opcode xa1 x04 x00 x00 1
                [x01; x04; x00; x00; x02; x41; x42] [x02; x41; x42] eq_refl)
      as [Hget _].
    destruct (Hget eq_refl) as (_ & _ & Hvalue).
    exact (Hvalue eq_refl (VBytes [x41; x42]) [] eq_refl).
  - destruct (decode_dispatches_on_opcode xa1 x50 x85 x00 1
                [x01; x50; x85; x00; x02; x41; x42] [x02; x41; x42] eq_refl)
      as (_ & Herr & _).
    destruct (Herr eq_refl) as [_ Hmsg].
    exact (Hmsg [x41; x42] [] eq_refl).
  - destruct (decode_dispatches_on_opcode xa1 x51 x00 x00 1
                [x01; x51; x00; x00] [] eq_refl) as (_ & _ & Hnone).
    exact (Hnone eq_refl).
Defined.

(** ** C7: the Ping frames *)

(** C7. A PingRequest with header id 1 and every other header field at its
    default encodes to A0 01 19 17 00 00 01 00, and a byte stream that
    begins A1 01 18 00 00 decodes to a PingResponse whose status is OK. *)
Theorem ping_frames :
  (let* request := PingRequest_with_id 1 in encode request)
  = Ok [xa0; x01; x19; x17; x00; x00; x01; x00] /\
  forall rest : list byte,
    exists r, decode ([xa1; x01; x18; x00; x00] ++ rest) = Ok r /\
              class_of r = PingResponse /\
              attr (getattr r "header") "status" = Ok (VInt Status.OK).
Proof.
  split; [vm_compute; reflexivity|].
  intros rest. cbn [app].
  rewrite (decode_frame xa1 x18 x00 x00 1 (x01 :: x18 :: x00 :: x00 :: rest)
             rest eq_refl).
  change (Response_class (Z_of_byte x18)) with (Some PingResponse).
  cbv beta iota zeta. rewrite recursion_limit_S. cbn.
  eexists. split; [reflexivity|]. split; reflexivity.
Qed.

(** ** The polling loop of send *)

Lemma poll_stores (req_id : Z) (self self' : Protocol) :
  poll req_id self = (self', Ok tt) ->
  exists data rest response,
    inbox (conn self) = data :: rest /\ decode data = Ok response /\
    self' = {| conn := {| sent := sent (conn self); inbox := rest |};
               _id := _id self;
               _resps := <[req_id := response]> (_resps self) |}.
Proof.
  unfold poll, conn_recv.
  destruct (inbox (conn self)) as [|data rest]; [discriminate|].
  destruct (decode data) as [response|e] eqn:Hdec; [|discriminate].
  intros H. exists data, rest, response.
  split; [reflexivity|]. split; [exact Hdec|].
  inversion H. reflexivity.
Qed.

Lemma poll_raises (req_id : Z) (self self' : Protocol) (e : exn) :
  poll req_id self = (self', Raise e) -> _resps self' = _resps self.
Proof.
  unfold poll, conn_recv.
  destruct (inbox (conn self)) as [|data rest].
  - intros H. inversion H. reflexivity.
  - destruct (decode data) as [response|e']; intros H; inversion H;
      reflexivity.
Qed.

(** The loop of [send] ends within one turn: what the body stores is stored
    under the caller's own id, which is what the loop tests. *)
Lemma wait_one_turn (turns : nat) (req_id : Z) (self : Protocol) :
  wait (S turns) req_id self = wait 1 req_id self.
Proof.
  cbn [wait]. destruct (_resps self !! req_id) as [r|] eqn:E; [reflexivity|].
  destruct (poll req_id self) as [self' [[]|e]] eqn:Hp; [|reflexivity].
  destruct (poll_stores _ _ _ Hp) as (data & rest & response & _ & _ & ->).
  destruct turns; cbn [wait _resps]; rewrite lookup_insert_eq; reflexivity.
Qed.

Lemma wait_returns (turns : nat) (req_id : Z) (self : Protocol) :
  exists self' r, wait (S turns) req_id self = (self', Some r).
Proof.
  rewrite wait_one_turn. cbn [wait].
  destruct (_resps self !! req_id) as [r|] eqn:E; [eauto|].
  destruct (poll req_id self) as [self' [[]|e]] eqn:Hp; [|eauto].
  destruct (poll_stores _ _ _ Hp) as (data & rest & response & _ & _ & ->).
  cbn [_resps]. rewrite lookup_insert_eq. eauto.
Qed.

Lemma wait_table (turns : nat) (req_id : Z) (self self' : Protocol)
    (r : message) :
  wait turns req_id self = (self', Some (Ok r)) ->
  _resps self' !! req_id = Some r /\
  forall k, k <> req_id -> _resps self' !! k = _resps self !! k.
Proof.
  revert self. induction turns as [|turns IH]; intros self; cbn [wait].
  - destruct (_resps self !! req_id) as [r'|] eqn:E; [|discriminate].
    intros H. inversion H. subst. split; [assumption|reflexivity].
  - destruct (_resps self !! req_id) as [r'|] eqn:E.
    + intros H. inversion H. subst. split; [assumption|reflexivity].
    + destruct (poll req_id self) as [self1 [[]|e]] eqn:Hp; [|discriminate].
      intros H. destruct (IH _ H) as [Hr Hk]. split; [assumption|].
      intros k Hne. rewrite (Hk k Hne).
      destruct (poll_stores _ _ _ Hp) as (data & rest & response & _ & _ & ->).
      cbn [_resps]. apply lookup_insert_ne. congruence.
Qed.

(** [send] up to the loop: the id is taken, written into the header, the
    request is encoded and written to the connection. *)
Lemma send_unfold (turns : nat) (request : message) (self : Protocol) :
  send turns request self
  = let req_id := _id self + 1 in
    let self1 := {| conn := conn self; _id := req_id;
                    _resps := _resps self |} in
    match set_header request "id" (VInt req_id) with
    | Raise e => (self1, Some (Raise e))
    | Ok request' =>
        match encode request' with
        | Raise e => (self1, Some (Raise e))
        | Ok encoded_request =>
            wait turns req_id
              {| conn := conn_send encoded_request (conn self);
                 _id := req_id; _resps := _resps self |}
        end
    end.
Proof. reflexivity. Qed.

(** [send] returns (or raises) as soon as its loop may take one turn. *)
Lemma send_returns (turns : nat) (request : message) (self : Protocol) :
  exists self' r, send (S turns) request self = (self', Some r).
Proof.
  rewrite send_unfold. cbv zeta.
  destruct (set_header request "id" _) as [request'|e]; [|eauto].
  destruct (encode request') as [encoded|e]; [|eauto].
  apply wait_returns.
Qed.

(** ** C2: the results table after send returns *)

Lemma construct_PingRequest : construct PingRequest [] = Ok PingRequest_new.
Proof. reflexivity. Qed.

(** C2, counterexample.  After a PingRequest has been answered, the entry of
    its request id is still in the results table. *)
Lemma send_leaves_entry_behind : ~ removes_entry_on_return.
Proof.
  intros H.
  pose (self := Protocol_init (connection_with [[xa1; x01; x18; x00; x00]])).
  destruct (send 1 PingRequest_new self) as [self' [[r|e]|]] eqn:Hsend.
  - specialize (H 1%nat PingRequest_new self self' r Hsend).
    revert Hsend H. vm_compute. intros Hs. inversion Hs. discriminate.
  - revert Hsend. vm_compute. discriminate.
  - revert Hsend. vm_compute. discriminate.
Qed.

(** C2, as amended.  When [send] returns a response, the results table
    holds that response under the caller's request id, and the entries of
    all other ids are as they were before the call. *)
Theorem send_keeps_entry (turns : nat) (request : message)
    (self self' : Protocol) (r : message) :
  send turns request self = (self', Some (Ok r)) ->
  _resps self' !! (_id self + 1) = Some r /\
  forall k, k <> _id self + 1 -> _resps self' !! k = _resps self !! k.
Proof.
  rewrite send_unfold. cbv zeta.
  destruct (set_header request "id" _) as [request'|e]; [|discriminate].
  destruct (encode request') as [encoded|e]; [|discriminate].
  intros H. apply wait_table in H. exact H.
Qed.

Lemma send_keeps_entry_witness :
  let self := Protocol_init (connection_with [[xa1; x01; x18; x00; x00]]) in
  let self' := fst (send 1 PingRequest_new self) in
  is_Some (_resps self' !! 1) /\
  forall k, k <> 1 -> _resps self' !! k = None.
Proof.
  intros self. cbv zeta.
  destruct (send 1 PingRequest_new self) as [self1 [[r|e]|]] eqn:Hsend.
  - destruct (send_keeps_entry 1 PingRequest_new self self1 r Hsend)
      as [Hr Hk].
    cbn [fst]. split.
    + exists r. exact Hr.
    + intros k Hne. rewrite (Hk k Hne). reflexivity.
  - revert Hsend. vm_compute. discriminate.
  - revert Hsend. vm_compute. discriminate.
Defined.

(** ** C1: which id a response is stored under *)

(** The loop of [send] is the repetition of [turn]. *)
Lemma wait_turn (turns : nat) (req_id : Z) (self : Protocol) :
  wait (S turns) req_id self
  = match turn req_id self with
    | (self', Some r) => (self', Some r)
    | (self', None) => wait turns req_id self'
    end.
Proof.
  cbn [wait]. unfold turn.
  destruct (_resps self !! req_id) as [r|]; [reflexivity|].
  destruct (poll req_id self) as [self' [[]|e]]; reflexivity.
Qed.

(** One turn of a waiting caller stores the decoded frame under the id of
    the caller, whatever id the frame carries. *)
Lemma turn_stores_under_caller (req_id : Z) (self : Protocol)
    (data : list byte) (rest : list (list byte)) (response : message) :
  _resps self !! req_id = None ->
  inbox (conn self) = data :: rest ->
  decode data = Ok response ->
  turn req_id self
  = ({| conn := {| sent := sent (conn self); inbox := rest |};
        _id := _id self;
        _resps := <[req_id := response]> (_resps self) |}, None).
Proof.
  intros Hnone Hin Hdec. unfold turn, poll, conn_recv.
  rewrite Hnone, Hin, Hdec. reflexivity.
Qed.

(** C1, at the failing input.  Two callers wait on one connection and the
    server answers the second request first.  The caller of request 1 reads
    the frame that carries id 2, stores it under its own id and returns it;
    the caller of request 2 is handed the response that carries id 1. *)
Theorem waiter_receives_foreign_response :
  let returned := snd (run_waiters [1; 1; 2; 2] two_callers ∅) in
  response_id <$> (returned !! 1) = Some (Some 2) /\
  response_id <$> (returned !! 2) = Some (Some 1) /\
  ~ delivered_to_owner returned.
Proof.
  cbv zeta. split; [vm_compute; reflexivity|].
  split; [vm_compute; reflexivity|].
  intros H.
  destruct (snd (run_waiters [1; 1; 2; 2] two_callers ∅) !! 1)
    as [r|] eqn:E.
  - specialize (H 1 r E). revert E H. vm_compute.
    intros E. inversion E. discriminate.
  - revert E. vm_compute. discriminate.
Qed.

(** ** C9: an error response is returned, not raised *)

Lemma Raise_inj {A : Type} (e e' : exn) : @Raise A e = Raise e' -> e = e'.
Proof. intros H. inversion H. reflexivity. Qed.

Lemma uvar_raises (groups : nat) :
  forall (d : Decoder.t) (e : exn),
    Decoder.uvar groups d = Raise e -> input_error e.
Proof.
  induction groups as [|g IH]; intros d e; cbn [Decoder.uvar].
  - intros H. apply Raise_inj in H. subst e. right. reflexivity.
  - destruct d as [|b d'].
    + intros H. apply Raise_inj in H. subst e. left. reflexivity.
    + destruct (Z_of_byte b <? 128); [discriminate|].
      destruct (Decoder.uvar g d') as [[hi d'']|e'] eqn:E; [discriminate|].
      intros H. apply Raise_inj in H. subst e'. exact (IH _ _ E).
Qed.

Lemma uvar_in_raises (groups : nat) (limit : Z) (d : Decoder.t) (e : exn) :
  Decoder.uvar_in groups limit d = Raise e -> input_error e.
Proof.
  unfold Decoder.uvar_in.
  destruct (Decoder.uvar groups d) as [[n d']|e'] eqn:E.
  - destruct (n <? limit); [discriminate|].
    intros H. apply Raise_inj in H. subst e. right. reflexivity.
  - intros H. apply Raise_inj in H. subst e'. exact (uvar_raises _ _ _ E).
Qed.

Lemma raw_raises (d : Decoder.t) (e : exn) :
  Decoder.raw d = Raise e -> input_error e.
Proof.
  unfold Decoder.raw.
  destruct (Decoder.uvar_in 5 UVARINT_LIMIT d) as [[n d']|e'] eqn:E.
  - destruct (Z.of_nat (length d') <? n); [|discriminate].
    intros H. apply Raise_inj in H. subst e. left. reflexivity.
  - intros H. apply Raise_inj in H. subst e'. exact (uvar_in_raises _ _ _ _ E).
Qed.

Lemma bytes_raises (d : Decoder.t) (e : exn) :
  Decoder.bytes d = Raise e -> input_error e.
Proof.
  unfold Decoder.bytes. destruct (Decoder.raw d) as [[b d']|e'] eqn:E;
    [discriminate|].
  intros H. apply Raise_inj in H. subst e'. exact (raw_raises _ _ E).
Qed.

Lemma string_raises (d : Decoder.t) (e : exn) :
  Decoder.string d = Raise e -> input_error e.
Proof.
  unfold Decoder.string. destruct (Decoder.raw d) as [[b d']|e'] eqn:E;
    [discriminate|].
  intros H. apply Raise_inj in H. subst e'. exact (raw_raises _ _ E).
Qed.

(** The opcodes a Response class is registered for. *)
Lemma Response_class_Some (z : Z) (c : cls) :
  Response_class z = Some c ->
  (z = 0x04 /\ c = GetResponse) \/ (z = 0x02 /\ c = PutResponse) \/
  (z = 0x18 /\ c = PingResponse) \/ (z = 0x50 /\ c = ErrorResponse) \/
  (z = 0x0C /\ c = RemoveResponse) \/ (z = 0x10 /\ c = ContainsKeyResponse).
Proof.
  unfold Response_class, Response_subclasses. cbn [find OP_CODE].
  destruct (Z.eqb_spec z 4); [intros H; inversion H; tauto|].
  destruct (Z.eqb_spec z 2); [intros H; inversion H; tauto|].
  destruct (Z.eqb_spec z 24); [intros H; inversion H; tauto|].
  destruct (Z.eqb_spec z 80); [intros H; inversion H; tauto|].
  destruct (Z.eqb_spec z 12); [intros H; inversion H; tauto|].
  destruct (Z.eqb_spec z 16); [intros H; inversion H; tauto|].
  discriminate.
Qed.

(** With a registered opcode, [decode] raises only when the frame ends
    early or holds a malformed length. *)
Lemma decode_registered (magic op status tcm : byte) (id : Z)
    (d body : list byte) (c : cls) (e : exn) :
  Decoder.uvarlong d = Ok (VInt id, op :: status :: tcm :: body) ->
  Response_class (Z_of_byte op) = Some c ->
  decode (magic :: d) = Raise e -> input_error e.
Proof.
  intros Hid Hc. rewrite (decode_frame _ _ _ _ _ _ _ Hid), Hc.
  rewrite recursion_limit_S.
  destruct (Response_class_Some _ _ Hc)
    as [[Hz ->]|[[Hz ->]|[[Hz ->]|[[Hz ->]|[[Hz ->]|[Hz ->]]]]]];
    rewrite Hz; cbn.
  - destruct (Z_of_byte status =? Status.OK); [|discriminate].
    cbn. destruct (Decoder.bytes body) as [[v b']|e'] eqn:E; [discriminate|].
    intros H. apply Raise_inj in H. subst e'. exact (bytes_raises _ _ E).
  - destruct (Z_of_byte status =? Status.OK_WITH_VALUE); [|discriminate].
    cbn. destruct (Decoder.bytes body) as [[v b']|e'] eqn:E; [discriminate|].
    intros H. apply Raise_inj in H. subst e'. exact (bytes_raises _ _ E).
  - discriminate.
  - destruct (Decoder.string body) as [[v b']|e'] eqn:E; [discriminate|].
    intros H. apply Raise_inj in H. subst e'. exact (string_raises _ _ E).
  - destruct (Z_of_byte status =? Status.OK_WITH_VALUE); [|discriminate].
    cbn. destruct (Decoder.bytes body) as [[v b']|e'] eqn:E; [discriminate|].
    intros H. apply Raise_inj in H. subst e'. exact (bytes_raises _ _ E).
  - discriminate.
Qed.

(** C9. A frame with the error opcode 0x50 does not make [send] raise: the
    decoded ErrorResponse, with its error_message, is what [send] returns.
    The DecodeError for an unsupported operation is raised exactly for the
    opcodes no Response class is registered for. *)
Theorem error_response_is_returned :
  (forall (turns : nat) (request request' : message) (self : Protocol)
          (encoded : list byte) (magic status tcm : byte) (id : Z)
          (d body body' b : list byte) (rest : list (list byte)),
      set_header request "id" (VInt (_id self + 1)) = Ok request' ->
      encode request' = Ok encoded ->
      _resps self !! (_id self + 1) = None ->
      inbox (conn self) = (magic :: d) :: rest ->
      Decoder.uvarlong d = Ok (VInt id, x50 :: status :: tcm :: body) ->
      Decoder.raw body = Ok (b, body') ->
      exists self' r,
        send (S turns) request self = (self', Some (Ok r)) /\
        class_of r = ErrorResponse /\
        getattr r "error_message" = VStr (string_of_list_byte b) /\
        attr (getattr r "header") "status" = Ok (VInt (Z_of_byte status))) /\
  (forall (magic op status tcm : byte) (id : Z) (d body : list byte),
      Decoder.uvarlong d = Ok (VInt id, op :: status :: tcm :: body) ->
      (decode (magic :: d) = Raise (DecodeError UnsupportedOp) <->
       Response_class (Z_of_byte op) = None)).
Proof.
  split.
  - intros turns request request' self encoded magic status tcm id d body
      body' b rest Hset Henc Hnone Hin Hid Hb.
    rewrite send_unfold. cbv zeta. rewrite Hset, Henc, wait_one_turn.
    cbn [wait _resps]. rewrite Hnone.
    unfold poll, conn_recv. cbn [conn conn_send inbox sent _id _resps].
    rewrite Hin, (decode_ErrorResponse _ _ _ _ _ _ Hid). cbv zeta.
    unfold Decoder.string. rewrite Hb. cbn [_resps].
    rewrite lookup_insert_eq.
    eexists _, _. split; [reflexivity|].
    split; [reflexivity|]. split; reflexivity.
  - intros magic op status tcm id d body Hid. split.
    + intros Hraise.
      destruct (Response_class (Z_of_byte op)) as [c|] eqn:Hc; [|reflexivity].
      destruct (decode_registered _ _ _ _ _ _ _ _ _ Hid Hc Hraise);
        discriminate.
    + intros Hnone. rewrite (decode_frame _ _ _ _ _ _ _ Hid), Hnone.
      reflexivity.
Qed.

Lemma error_response_is_returned_witness :
  exists self' r,
    send 1 PingRequest_new
      (Protocol_init
         (connection_with [[xa1; x01; x50; x85; x00; x02; x41; x42]]))
    = (self', Some (Ok r)) /\
    class_of r = ErrorResponse /\
    getattr r "error_message" = VStr "AB" /\
    attr (getattr r "header") "status" = Ok (VInt Status.SERVER_ERR).
Proof.
  destruct error_response_is_returned as [Hsend _].
  apply (Hsend 0%nat PingRequest_new
           (setattr PingRequest_new "header"
              (VMsg (setattr
                       (setattr (Message_init RequestHeader
                                   RequestHeader_fields [])
                          "op" (VInt 0x17))
                       "id" (VInt 1))))
           (Protocol_init
              (connection_with [[xa1; x01; x50; x85; x00; x02; x41; x42]]))
           [xa0; x01; x19; x17; x00; x00; x01; x00] xa1 x85 x00 1
           [x01; x50; x85; x00; x02; x41; x42] [x02; x41; x42] [] [x41; x42]
           []); reflexivity.
Defined.

(** ** C8: the connection pool *)

Section Pool.
Import ConnectionPool.
Local Open Scope nat_scope.

Lemma reading_count_insert (l : list stream_state) :
  forall (i : nat) (s s' : stream_state),
    l !! i = Some s ->
    reading_count (<[i := s']> l) + (if is_reading s then 1 else 0)
    = reading_count l + (if is_reading s' then 1 else 0).
Proof.
  unfold reading_count.
  induction l as [|x l IH]; intros i s s' Hi; [discriminate|].
  destruct i as [|i].
  - inversion Hi. subst x. destruct s, s'; cbn; lia.
  - change (l !! i = Some s) in Hi.
    change (<[S i := s']> (x :: l)) with (x :: <[i := s']> l).
    specialize (IH i s s' Hi). cbn [List.filter].
    destruct (is_reading x); cbn [length]; lia.
Qed.

Lemma reading_count_app (l : list stream_state) (s : stream_state) :
  reading_count (l ++ [s])
  = reading_count l + (if is_reading s then 1 else 0).
Proof.
  unfold reading_count. rewrite List.filter_app, length_app. cbn.
  destruct (is_reading s); reflexivity.
Qed.

Lemma step_invariant (o : op) (p p' : t) :
  step o p = Some p' ->
  available p + busy p = size p ->
  available p' + busy p' = size p' /\ size p' = size p.
Proof.
  unfold busy.
  destruct o as [| |i|i|i]; cbn [step send recv fst];
    unfold advance, finish, cancel, set_stream.
  - intros H Hinv. inversion H. subst p'. split; [exact Hinv|reflexivity].
  - intros H Hinv. inversion H. subst p'. cbn [available size streams].
    rewrite reading_count_app. cbn. split; [lia|reflexivity].
  - destruct (streams p !! i) as [[]|] eqn:Hi; try discriminate.
    + destruct (available p) as [|a] eqn:Ha; [discriminate|].
      intros H Hinv. inversion H. subst p'. cbn [available size streams].
      pose proof (reading_count_insert _ i Idle Reading Hi) as Hc.
      cbn in Hc. split; [lia|reflexivity].
    + intros H Hinv. inversion H. subst p'. split; [exact Hinv|reflexivity].
    + intros H Hinv. inversion H. subst p'. split; [exact Hinv|reflexivity].
    + intros H Hinv. inversion H. subst p'. split; [exact Hinv|reflexivity].
  - destruct (streams p !! i) as [[]|] eqn:Hi; try discriminate.
    + intros H Hinv. inversion H. subst p'. split; [exact Hinv|reflexivity].
    + intros H Hinv. inversion H. subst p'. cbn [available size streams].
      pose proof (reading_count_insert _ i Reading Done Hi) as Hc.
      cbn in Hc. split; [lia|reflexivity].
    + intros H Hinv. inversion H. subst p'. split; [exact Hinv|reflexivity].
    + intros H Hinv. inversion H. subst p'. split; [exact Hinv|reflexivity].
  - destruct (streams p !! i) as [[]|] eqn:Hi; try discriminate.
    + intros H Hinv. inversion H. subst p'. cbn [available size streams].
      pose proof (reading_count_insert _ i Idle Cancelled Hi) as Hc.
      cbn in Hc. split; [lia|reflexivity].
    + intros H Hinv. inversion H. subst p'. cbn [available size streams].
      pose proof (reading_count_insert _ i Reading Cancelled Hi) as Hc.
      cbn in Hc. split; [lia|reflexivity].
    + intros H Hinv. inversion H. subst p'. split; [exact Hinv|reflexivity].
    + intros H Hinv. inversion H. subst p'. split; [exact Hinv|reflexivity].
Qed.

Lemma run_invariant (ops : list op) :
  forall p p' : t,
    run ops p = Some p' ->
    available p + busy p = size p ->
    available p' + busy p' = size p' /\ size p' = size p.
Proof.
  induction ops as [|o ops IH]; intros p p'; cbn [run].
  - intros H Hinv. inversion H. subst p'. split; [exact Hinv|reflexivity].
  - destruct (step o p) as [p1|] eqn:Hs; [|discriminate].
    intros H Hinv. destruct (step_invariant _ _ _ Hs Hinv) as [H1 Hsz].
    destruct (IH _ _ H H1) as [H2 Hsz']. split; [exact H2|congruence].
Qed.

(** C8. Whatever is done with a pool of [n] connections, [available] is
    the pool size minus the number of streams that have been advanced and
    are neither completed nor cancelled.  Sends and the creation of a
    stream leave [available] alone, the first advance of a stream takes
    one connection, completing or cancelling a stream that is being read
    gives it back; on a pool of 3 the run of the functional test ends with
    [available = 3]. *)
Theorem available_counts_free_connections :
  (forall (n : nat) (ops : list op) (p : t),
      run ops (connect n) = Some p ->
      size p = n /\ busy p <= size p /\ available p = size p - busy p) /\
  (forall p : t,
      available (send p) = available p /\
      available (fst (recv p)) = available p) /\
  (forall (i : nat) (p p' : t),
      streams p !! i = Some Idle -> advance i p = Some p' ->
      S (available p') = available p) /\
  (forall (i : nat) (p p' : t),
      streams p !! i = Some Reading ->
      finish i p = Some p' \/ cancel i p = Some p' ->
      available p' = S (available p)) /\
  (available <$>
     run [Send; Send; Send; Recv; Recv; Recv] (connect 3) = Some 3 /\
   available <$>
     run [Send; Send; Send; Recv; Recv; Recv; Advance 0; Advance 1;
          Advance 2; Advance 0] (connect 3) = Some 0 /\
   available <$>
     run [Send; Send; Send; Recv; Recv; Recv; Advance 0; Advance 1;
          Advance 2; Advance 0; Cancel 0] (connect 3) = Some 1 /\
   available <$>
     run [Send; Send; Send; Recv; Recv; Recv; Advance 0; Advance 1;
          Advance 2; Advance 0; Cancel 0; Cancel 1; Finish 2] (connect 3)
   = Some 3).
Proof.
  split; [|split; [|split; [|split]]].
  - intros n ops p Hrun.
    destruct (run_invariant ops (connect n) p Hrun) as [Hinv Hsz];
      [unfold busy; cbn; lia|].
    cbn in Hsz. lia.
  - intros p. split; reflexivity.
  - intros i p p' Hi. unfold advance. rewrite Hi.
    destruct (available p) as [|a]; [discriminate|].
    intros H. inversion H. reflexivity.
  - intros i p p' Hi. unfold finish, cancel. rewrite Hi.
    intros [H|H]; inversion H; reflexivity.
  - repeat split; reflexivity.
Qed.

Lemma available_counts_free_connections_witness :
  available <$>
    run [Recv; Recv; Advance 1; Advance 0; Cancel 1] (connect 3) = Some 2 /\
  busy <$>
    run [Recv; Recv; Advance 1; Advance 0; Cancel 1] (connect 3) = Some 1.
Proof.
  destruct (run [Recv; Recv; Advance 1; Advance 0; Cancel 1] (connect 3))
    as [p|] eqn:Hrun; [|revert Hrun; vm_compute; discriminate].
  destruct available_counts_free_connections as [Hinv _].
  destruct (Hinv 3 _ p Hrun) as (Hsz & Hle & Hav).
  revert Hrun Hsz Hle Hav. vm_compute.
  intros Hrun. inversion Hrun. intros. split; reflexivity.
Defined.
End Pool.

(** ** The encoder walk *)

Lemma uvar_nonempty (groups : nat) (n : Z) :
  groups <> O -> exists b chunk, Encoder.uvar groups n = b :: chunk.
Proof.
  destruct groups as [|g]; [congruence|]. intros _. cbn [Encoder.uvar].
  destruct (n <? 128); eauto.
Qed.

(** What an encoder method appends does not depend on what has been written
    before, and it is never empty. *)
Lemma call_app (ty : wire_type) (v : value) (e : Encoder.t) :
  Encoder.call ty v e
  = let* chunk := Encoder.call ty v [] in Ok (e ++ chunk).
Proof.
  destruct ty, v; cbn [Encoder.call]; try reflexivity;
    unfold Encoder.byte, Encoder.uvarint, Encoder.uvarlong, Encoder.bytes,
      Encoder.string, Encoder.splitbyte, Encoder.raw; cbv zeta;
    match goal with
    | |- context [if ?c then _ else _] => destruct c; reflexivity
    end.
Qed.

Lemma call_nonempty (ty : wire_type) (v : value) (chunk : Encoder.t) :
  Encoder.call ty v [] = Ok chunk -> exists b chunk', chunk = b :: chunk'.
Proof.
  destruct ty, v; cbn [Encoder.call]; try discriminate;
    unfold Encoder.byte, Encoder.uvarint, Encoder.uvarlong, Encoder.bytes,
      Encoder.string, Encoder.splitbyte, Encoder.raw; cbv zeta;
    match goal with
    | |- context [if ?c then _ else _] => destruct c; [|discriminate]
    end;
    intros H; apply Ok_inj in H; subst chunk; cbn [app]; eauto;
    match goal with
    | |- context [Encoder.uvar ?g ?n] =>
        destruct (uvar_nonempty g n) as (b0 & c0 & ->); [congruence|];
        cbn [app]; eauto
    end.
Qed.

Lemma call_raises (ty : wire_type) (v : value) (e : Encoder.t) (x : exn) :
  Encoder.call ty v e = Raise x ->
  x = TypeError \/ x = ValueError \/ x = AttributeError.
Proof.
  destruct ty, v; cbn [Encoder.call];
    unfold Encoder.byte, Encoder.uvarint, Encoder.uvarlong, Encoder.bytes,
      Encoder.string, Encoder.splitbyte, Encoder.raw; cbv zeta;
    try (intros H; apply Raise_inj in H; subst x; tauto);
    match goal with
    | |- context [if ?c then _ else _] => destruct c; [discriminate|]
    end;
    intros H; apply Raise_inj in H; subst x; tauto.
Qed.

Lemma _encode_unfold (c : cls) (slots : string -> value) (e : Encoder.t) :
  _encode (Msg c slots) e
  = _encode_fields _encode_composite c slots (fields c) e.
Proof. reflexivity. Qed.

Lemma _encode_fields_cons (rec : value -> Encoder.t -> result Encoder.t)
    (c : cls) (slots : string -> value) (f_cls : FieldSpec)
    (fs : list FieldSpec) (e : Encoder.t) :
  _encode_fields rec c slots (f_cls :: fs) e
  = let f := slots (f_name f_cls) in
    let* skip := skipped f_cls (Msg c slots) in
    if skip then _encode_fields rec c slots fs e
    else if is_None f && negb (f_optional f_cls)
    then Raise (EncodeError (cls_name c) (f_name f_cls))
    else let* e1 := encode_field rec f_cls f e in
         _encode_fields rec c slots fs e1.
Proof.
  cbn [_encode_fields]. unfold encode_field.
  destruct (f_type f_cls); reflexivity.
Qed.

Lemma encode_field_app (rec : value -> Encoder.t -> result Encoder.t)
    (f_cls : FieldSpec) (f : value) (e : Encoder.t) :
  (forall e0, rec f e0 = let* chunk := rec f [] in Ok (e0 ++ chunk)) ->
  encode_field rec f_cls f e
  = let* chunk := encode_field rec f_cls f [] in Ok (e ++ chunk).
Proof.
  intros Hrec. unfold encode_field.
  destruct (f_type f_cls); try apply call_app. apply Hrec.
Qed.

Lemma _encode_fields_app (rec : value -> Encoder.t -> result Encoder.t)
    (c : cls) (slots : string -> value) :
  (forall n e0,
      rec (slots n) e0 = let* chunk := rec (slots n) [] in Ok (e0 ++ chunk)) ->
  forall (fs : list FieldSpec) (e : Encoder.t),
    _encode_fields rec c slots fs e
    = let* chunk := _encode_fields rec c slots fs [] in Ok (e ++ chunk).
Proof.
  intros Hrec. induction fs as [|f_cls fs IH]; intros e.
  - cbn. rewrite app_nil_r. reflexivity.
  - rewrite !_encode_fields_cons. cbv zeta.
    destruct (skipped f_cls (Msg c slots)) as [[|]|x]; try reflexivity.
    + apply IH.
    + destruct (is_None (slots (f_name f_cls)) && negb (f_optional f_cls));
        [reflexivity|].
      rewrite (encode_field_app rec f_cls _ e (Hrec _)).
      destruct (encode_field rec f_cls (slots (f_name f_cls)) [])
        as [chunk|x]; [|reflexivity].
      rewrite (IH (e ++ chunk)), (IH chunk).
      destruct (_encode_fields rec c slots fs []) as [chunk'|x];
        [|reflexivity].
      rewrite app_assoc. reflexivity.
Qed.

(** A message is encoded as one chunk appended to what came before. *)
Lemma _encode_app :
  forall (m : message) (e : Encoder.t),
    _encode m e = let* chunk := _encode m [] in Ok (e ++ chunk).
Proof.
  apply (message_induction
           (fun m => forall e, _encode m e
                               = let* chunk := _encode m [] in Ok (e ++ chunk))).
  intros c slots IH e. rewrite !_encode_unfold.
  apply _encode_fields_app. intros n e0. unfold _encode_composite.
  destruct (slots n) as [| | | | |m'] eqn:E; try reflexivity.
  apply (IH n m' E).
Qed.

(** ** C4: when encoding raises EncodeError *)

Lemma skipped_false (f : FieldSpec) (m : message) :
  skipped f m = Ok false <-> condition_holds f m.
Proof.
  unfold skipped, condition_holds. destruct (f_condition f) as [cond|].
  - destruct (cond m) as [[|]|x]; split; intros H;
      try reflexivity; try discriminate.
  - split; intros _; [exact I|reflexivity].
Qed.

(** The conditions of hotrod.py raise AttributeError or TypeError only. *)
Lemma skipped_raises (c : cls) (f : FieldSpec) (m : message) (x : exn) :
  In f (fields c) -> skipped f m = Raise x ->
  x = AttributeError \/ x = TypeError.
Proof.
  assert (Hst : forall code, status_is code m = Raise x ->
                             x = AttributeError \/ x = TypeError).
  { intros code. unfold status_is, attr.
    destruct (getattr m "header"); intros H; try discriminate;
      apply Raise_inj in H; subst x; tauto. }
  assert (Htu : forall i, tunit_is_explicit i m = Raise x ->
                          x = AttributeError \/ x = TypeError).
  { intros i. unfold tunit_is_explicit, subscript.
    destruct (getattr m "tunits"), i as [|[|i]]; intros H;
      try discriminate; apply Raise_inj in H; subst x; tauto. }
  destruct c; cbn [fields RequestHeader_fields ResponseHeader_fields In];
    intros Hin;
    repeat (destruct Hin as [<-|Hin]; [cbn; try discriminate|]);
    try contradiction;
    unfold skipped; cbn [f_condition with_condition];
    match goal with
    | |- context [status_is ?code m] =>
        specialize (Hst code); destruct (status_is code m);
        [discriminate|intros H; apply Raise_inj in H; subst; auto]
    | |- context [tunit_is_explicit ?i m] =>
        specialize (Htu i); destruct (tunit_is_explicit i m);
        [discriminate|intros H; apply Raise_inj in H; subst; auto]
    end.
Qed.

Lemma wire_type_eq_dec (a b : wire_type) : {a = b} + {a <> b}.
Proof. decide equality. Defined.

Lemma is_None_true (v : value) : is_None v = true <-> v = VNone.
Proof. destruct v; split; intros H; try reflexivity; discriminate. Qed.

Lemma encode_field_composite (f_cls : FieldSpec) (m' : message)
    (e : Encoder.t) :
  f_type f_cls = composite_t ->
  encode_field _encode_composite f_cls (VMsg m') e = _encode m' e.
Proof. unfold encode_field. intros ->. reflexivity. Qed.

Lemma encode_field_flat (rec : value -> Encoder.t -> result Encoder.t)
    (f_cls : FieldSpec) (v : value) (e : Encoder.t) :
  f_type f_cls <> composite_t ->
  encode_field rec f_cls v e = Encoder.call (f_type f_cls) v e.
Proof.
  unfold encode_field. destruct (f_type f_cls); try reflexivity. congruence.
Qed.

Lemma fields_error_unset (c : cls) (slots : string -> value) :
  (forall n m' e cn nm, slots n = VMsg m' ->
     _encode m' e = Raise (EncodeError cn nm) -> unset_required m') ->
  forall fs : list FieldSpec,
    (forall f, In f fs -> In f (fields c)) ->
    forall e cn nm,
      _encode_fields _encode_composite c slots fs e
      = Raise (EncodeError cn nm) ->
      unset_required (Msg c slots).
Proof.
  intros Hnested. induction fs as [|f fs IH]; intros Hsub e cn nm.
  - discriminate.
  - rewrite _encode_fields_cons. cbv zeta.
    assert (Hf : In f (fields c)) by (apply Hsub; left; reflexivity).
    assert (Hsub' : forall g, In g fs -> In g (fields c))
      by (intros g Hg; apply Hsub; right; exact Hg).
    destruct (skipped f (Msg c slots)) as [[|]|x] eqn:Hsk.
    + apply (IH Hsub').
    + apply skipped_false in Hsk.
      destruct (is_None (slots (f_name f)) && negb (f_optional f)) eqn:Hn.
      * intros _. apply andb_true_iff in Hn. destruct Hn as [Hn Ho].
        apply is_None_true in Hn. apply negb_true_iff in Ho.
        exact (unset_here (Msg c slots) f Hf Hsk Hn Ho).
      * destruct (encode_field _encode_composite f (slots (f_name f)) e)
          as [e1|x] eqn:Hstep; [apply (IH Hsub')|].
        intros Hx. apply Raise_inj in Hx. subst x.
        destruct (wire_type_eq_dec (f_type f) composite_t) as [Hty|Hty].
        -- destruct (slots (f_name f)) as [| | | | |m'] eqn:Hv;
             try (unfold encode_field in Hstep; rewrite Hty in Hstep;
                  discriminate).
           rewrite (encode_field_composite _ _ _ Hty) in Hstep.
           exact (unset_nested (Msg c slots) f m' Hf Hsk Hty Hv
                    (Hnested _ _ _ _ _ Hv Hstep)).
        -- rewrite (encode_field_flat _ _ _ _ Hty) in Hstep.
           destruct (call_raises _ _ _ _ Hstep) as [?|[?|?]]; discriminate.
    + intros Hx. apply Raise_inj in Hx. subst x.
      destruct (skipped_raises _ _ _ _ Hf Hsk); discriminate.
Qed.

(** An EncodeError comes from an unset required field. *)
Lemma encode_error_unset :
  forall (m : message) (e : Encoder.t) (cn nm : string),
    _encode m e = Raise (EncodeError cn nm) -> unset_required m.
Proof.
  apply (message_induction
           (fun m => forall e cn nm,
                _encode m e = Raise (EncodeError cn nm) -> unset_required m)).
  intros c slots IH e cn nm. rewrite _encode_unfold.
  apply fields_error_unset.
  - intros n m' e0 cn0 nm0 Hv. apply (IH n m' Hv).
  - intros f Hf. exact Hf.
Qed.

Lemma fields_ok_inv (rec : value -> Encoder.t -> result Encoder.t)
    (c : cls) (slots : string -> value) :
  forall (fs : list FieldSpec) (e e' : Encoder.t),
    _encode_fields rec c slots fs e = Ok e' ->
    forall f, In f fs -> skipped f (Msg c slots) = Ok false ->
      is_None (slots (f_name f)) && negb (f_optional f) = false /\
      exists e1 e2, encode_field rec f (slots (f_name f)) e1 = Ok e2.
Proof.
  induction fs as [|g fs IH]; intros e e' Hok f Hin Hsk; [contradiction|].
  rewrite _encode_fields_cons in Hok. cbv zeta in Hok.
  destruct Hin as [->|Hin].
  - rewrite Hsk in Hok.
    destruct (is_None (slots (f_name f)) && negb (f_optional f));
      [discriminate|].
    split; [reflexivity|].
    destruct (encode_field rec f (slots (f_name f)) e) as [e1|x] eqn:Hstep;
      [|discriminate].
    exists e, e1. exact Hstep.
  - destruct (skipped g (Msg c slots)) as [[|]|x]; [| |discriminate].
    + exact (IH _ _ Hok f Hin Hsk).
    + destruct (is_None (slots (f_name g)) && negb (f_optional g));
        [discriminate|].
      destruct (encode_field rec g (slots (f_name g)) e) as [e1|x];
        [|discriminate].
      exact (IH _ _ Hok f Hin Hsk).
Qed.

(** A message that encodes has no unset required field. *)
Lemma encode_ok_set (m : message) :
  unset_required m -> forall e e', _encode m e <> Ok e'.
Proof.
  induction 1 as [m f Hin Hc Hnone Hopt|m f m' Hin Hc Hty Hget Hun IH];
    intros e e' Hok; destruct m as [c slots]; rewrite _encode_unfold in Hok;
    apply skipped_false in Hc;
    destruct (fields_ok_inv _ _ _ _ _ _ Hok f Hin Hc)
      as [Hn (e1 & e2 & Hstep)]; cbn [getattr] in *.
  - rewrite Hnone, Hopt in Hn. discriminate.
  - rewrite Hget, (encode_field_composite _ _ _ Hty) in Hstep.
    exact (IH _ _ Hstep).
Qed.

Lemma encode_raises (m : message) (x : exn) :
  encode m = Raise x <-> _encode m Encoder.new = Raise x.
Proof.
  unfold encode. destruct (_encode m Encoder.new); split; intros H;
    try discriminate; exact H.
Qed.

Ltac each_field Hin :=
  repeat (destruct Hin as [<-|Hin]); try contradiction.

(** ** C10: an unset optional field is still encoded *)

(** A field without condition that is not a composite: when the walk
    succeeds, the method of its wire type has appended a chunk for it. *)
Lemma flat_field_ok (rec : value -> Encoder.t -> result Encoder.t)
    (c : cls) (slots : string -> value) (f : FieldSpec)
    (fs : list FieldSpec) (e e' : Encoder.t) :
  skipped f (Msg c slots) = Ok false -> f_type f <> composite_t ->
  _encode_fields rec c slots (f :: fs) e = Ok e' ->
  exists chunk,
    Encoder.call (f_type f) (slots (f_name f)) [] = Ok chunk /\
    _encode_fields rec c slots fs (e ++ chunk) = Ok e'.
Proof.
  intros Hsk Hty. rewrite _encode_fields_cons. cbv zeta. rewrite Hsk.
  destruct (is_None (slots (f_name f)) && negb (f_optional f));
    [discriminate|].
  rewrite (encode_field_flat _ _ _ _ Hty), call_app.
  destruct (Encoder.call (f_type f) (slots (f_name f)) []) as [chunk|x];
    [|discriminate].
  intros H. exists chunk. split; [reflexivity|exact H].
Qed.

(** The layout of an encoded RequestHeader. *)
Lemma RequestHeader_layout (slots : string -> value) (e e' : Encoder.t) :
  _encode (Msg RequestHeader slots) e = Ok e' ->
  exists magic id version op cname flags ci t_id,
    Encoder.byte (slots "magic") [] = Ok magic /\
    Encoder.uvarlong (slots "id") [] = Ok id /\
    Encoder.byte (slots "version") [] = Ok version /\
    Encoder.byte (slots "op") [] = Ok op /\
    Encoder.string (slots "cname") [] = Ok cname /\
    Encoder.uvarint (slots "flags") [] = Ok flags /\
    Encoder.byte (slots "ci") [] = Ok ci /\
    Encoder.uvarint (slots "t_id") [] = Ok t_id /\
    e' = e ++ magic ++ id ++ version ++ op ++ cname ++ flags ++ ci ++ t_id.
Proof.
  rewrite _encode_unfold. cbn [fields RequestHeader_fields]. intros H.
  apply flat_field_ok in H; [|reflexivity|discriminate].
  destruct H as (magic & Hmagic & H).
  apply flat_field_ok in H; [|reflexivity|discriminate].
  destruct H as (id & Hid & H).
  apply flat_field_ok in H; [|reflexivity|discriminate].
  destruct H as (version & Hversion & H).
  apply flat_field_ok in H; [|reflexivity|discriminate].
  destruct H as (op & Hop & H).
  apply flat_field_ok in H; [|reflexivity|discriminate].
  destruct H as (cname & Hcname & H).
  apply flat_field_ok in H; [|reflexivity|discriminate].
  destruct H as (flags & Hflags & H).
  apply flat_field_ok in H; [|reflexivity|discriminate].
  destruct H as (ci & Hci & H).
  apply flat_field_ok in H; [|reflexivity|discriminate].
  destruct H as (t_id & Ht_id & H).
  cbn [_encode_fields] in H. apply Ok_inj in H. subst e'.
  exists magic, id, version, op, cname, flags, ci, t_id.
  repeat (split; [assumption|]).
  rewrite <- !app_assoc. reflexivity.
Qed.

(** The request classes of hotrod.py. *)
Lemma Request_fields (c : cls) :
  In c [GetRequest; PutRequest; PingRequest; RemoveRequest;
        ContainsKeyRequest] ->
  exists fs, fields c = Request_header :: fs.
Proof.
  cbn [In]. intros [<-|[<-|[<-|[<-|[<-|[]]]]]]; eexists; reflexivity.
Qed.

(** C10. A field that is unset, optional and not under a false condition is
    not left out: the encoder method of its wire type is called with the
    null value.  So the unset cname of a RequestHeader takes one byte, 00,
    between the opcode and the flags of every encoded request.  A field
    that is not skipped always adds at least one byte; a field is left out
    altogether exactly when its condition is false. *)
Theorem unset_optional_field_is_encoded :
  (forall (rec : value -> Encoder.t -> result Encoder.t) (c : cls)
          (slots : string -> value) (f : FieldSpec) (fs : list FieldSpec)
          (e : Encoder.t),
      skipped f (Msg c slots) = Ok false ->
      slots (f_name f) = VNone -> f_optional f = true ->
      f_type f <> composite_t ->
      _encode_fields rec c slots (f :: fs) e
      = let* e1 := Encoder.call (f_type f) VNone e in
        _encode_fields rec c slots fs e1) /\
  (forall (c : cls) (slots hslots : string -> value) (data : list byte),
      In c [GetRequest; PutRequest; PingRequest; RemoveRequest;
            ContainsKeyRequest] ->
      slots "header" = VMsg (Msg RequestHeader hslots) ->
      hslots "cname" = VNone ->
      encode (Msg c slots) = Ok data ->
      exists magic id version op rest,
        Encoder.byte (hslots "magic") [] = Ok magic /\
        Encoder.uvarlong (hslots "id") [] = Ok id /\
        Encoder.byte (hslots "version") [] = Ok version /\
        Encoder.byte (hslots "op") [] = Ok op /\
        data = magic ++ id ++ version ++ op ++ [x00] ++ rest) /\
  (forall (rec : value -> Encoder.t -> result Encoder.t) (c : cls)
          (slots : string -> value) (f : FieldSpec) (fs : list FieldSpec)
          (e e' : Encoder.t),
      skipped f (Msg c slots) = Ok false -> f_type f <> composite_t ->
      _encode_fields rec c slots (f :: fs) e = Ok e' ->
      exists b chunk,
        _encode_fields rec c slots fs (e ++ b :: chunk) = Ok e') /\
  (forall (rec : value -> Encoder.t -> result Encoder.t) (c : cls)
          (slots : string -> value) (f : FieldSpec) (fs : list FieldSpec)
          (e : Encoder.t),
      skipped f (Msg c slots) = Ok true ->
      _encode_fields rec c slots (f :: fs) e
      = _encode_fields rec c slots fs e).
Proof.
  split; [|split; [|split]].
  - intros rec c slots f fs e Hsk Hnone Hopt Hty.
    rewrite _encode_fields_cons. cbv zeta.
    rewrite Hsk, Hnone, Hopt, (encode_field_flat _ _ _ _ Hty).
    reflexivity.
  - intros c slots hslots data Hc Hh Hcname. unfold encode.
    destruct (_encode (Msg c slots) Encoder.new) as [e'|x] eqn:E;
      [|discriminate].
    intros Hdata. apply Ok_inj in Hdata. unfold Encoder.result in Hdata.
    subst e'. rewrite _encode_unfold in E.
    destruct (Request_fields c Hc) as [fs Hfs]. rewrite Hfs in E.
    rewrite _encode_fields_cons in E. cbv zeta in E.
    change (skipped Request_header (Msg c slots)) with (@Ok bool false) in E.
    cbv iota in E. change (f_name Request_header) with "header" in E.
    rewrite Hh in E. cbn [is_None andb] in E.
    rewrite (encode_field_composite Request_header _ _ eq_refl) in E.
    destruct (_encode (Msg RequestHeader hslots) Encoder.new)
      as [hchunk|x] eqn:Eh; [|discriminate].
    destruct (RequestHeader_layout _ _ _ Eh)
      as (magic & id & version & op & cname & flags & ci & t_id & Hm & Hi
          & Hv & Ho & Hc' & _ & _ & _ & ->).
    rewrite Hcname in Hc'. cbn in Hc'. apply Ok_inj in Hc'. subst cname.
    rewrite _encode_fields_app in E.
    + destruct (_encode_fields _encode_composite c slots fs []) as [tail|x];
        [|discriminate].
      apply Ok_inj in E. subst data.
      exists magic, id, version, op, (flags ++ ci ++ t_id ++ tail).
      repeat (split; [assumption|]).
      unfold Encoder.new. cbn [app]. rewrite <- !app_assoc. reflexivity.
    + intros n e0. unfold _encode_composite.
      destruct (slots n); try reflexivity. apply _encode_app.
  - intros rec c slots f fs e e' Hsk Hty H.
    destruct (flat_field_ok _ _ _ _ _ _ _ Hsk Hty H) as (chunk & Hcall & H').
    destruct (call_nonempty _ _ _ Hcall) as (b & chunk' & ->).
    exists b, chunk'. exact H'.
  - intros rec c slots f fs e Hsk. rewrite _encode_fields_cons. cbv zeta.
    rewrite Hsk. reflexivity.
Qed.

Lemma unset_optional_field_is_encoded_witness :
  exists rest,
    (let* request := PingRequest_with_id 300 in encode request)
    = Ok ([xa0] ++ [xac; x02] ++ [x19] ++ [x17] ++ [x00] ++ rest).
Proof.
  destruct unset_optional_field_is_encoded as (_ & Hlayout & _).
  destruct (PingRequest_with_id 300) as [request|x] eqn:Hreq;
    [|discriminate].
  vm_compute in Hreq. apply Ok_inj in Hreq. subst request.
  match goal with
  | |- context [encode (Msg PingRequest ?slots)] =>
      destruct (encode (Msg PingRequest slots)) as [data|x] eqn:Henc;
      [destruct (Hlayout PingRequest slots _ data
                   ltac:(right; right; left; reflexivity) eq_refl eq_refl
                   Henc)
         as (magic & id & version & op & rest & Hm & Hi & Hv & Ho & ->)
      |revert Henc; vm_compute; discriminate]
  end.
  exists rest.
  revert Hm Hi Hv Ho. vm_compute.
  intros Hm Hi Hv Ho. inversion Hm. inversion Hi. inversion Hv. inversion Ho.
  reflexivity.
Defined.

(** ** C5: fields under a false condition *)

Lemma _encode_fields_skip (rec : value -> Encoder.t -> result Encoder.t)
    (c : cls) (slots : string -> value) (f : FieldSpec)
    (fs : list FieldSpec) (e : Encoder.t) :
  skipped f (Msg c slots) = Ok true ->
  _encode_fields rec c slots (f :: fs) e = _encode_fields rec c slots fs e.
Proof.
  intros Hsk. rewrite _encode_fields_cons. cbv zeta. rewrite Hsk.
  reflexivity.
Qed.

Lemma _encode_fields_step (c : cls) (slots : string -> value)
    (f : FieldSpec) (fs : list FieldSpec) (e chunk : Encoder.t) :
  skipped f (Msg c slots) = Ok false ->
  is_None (slots (f_name f)) && negb (f_optional f) = false ->
  encode_field _encode_composite f (slots (f_name f)) [] = Ok chunk ->
  _encode_fields _encode_composite c slots (f :: fs) e
  = _encode_fields _encode_composite c slots fs (e ++ chunk).
Proof.
  intros Hsk Hn Hstep. rewrite _encode_fields_cons. cbv zeta.
  rewrite Hsk, Hn, encode_field_app, Hstep; [reflexivity|].
  intros e0. unfold _encode_composite.
  destruct (slots (f_name f)); try reflexivity. apply _encode_app.
Qed.

Lemma _decode_fields_cons
    (rec : value -> Decoder.t -> result (value * Decoder.t))
    (f_cls : FieldSpec) (fs : list FieldSpec) (m : message) (d : Decoder.t) :
  _decode_fields rec (f_cls :: fs) m d
  = let* skip := skipped f_cls m in
    if skip then _decode_fields rec fs m d
    else
      let* (decoded, d') :=
        match f_type f_cls with
        | composite_t => rec (getattr m (f_name f_cls)) d
        | ty => Decoder.call ty d
        end in
      _decode_fields rec fs (setattr m (f_name f_cls) decoded) d'.
Proof. cbn [_decode_fields]. destruct (f_type f_cls); reflexivity. Qed.

Lemma explicit_unit (hi lo : Z) (m : message) :
  getattr m "tunits" = VPair hi lo ->
  tunit_is_explicit 0 m
  = Ok (negb ((hi =? TimeUnits.DEFAULT) || (hi =? TimeUnits.INFINITE)))
  /\ tunit_is_explicit 1 m
  = Ok (negb ((lo =? TimeUnits.DEFAULT) || (lo =? TimeUnits.INFINITE))).
Proof.
  intros H. unfold tunit_is_explicit. rewrite H.
  cbn [subscript existsb]. rewrite !orb_false_r. split; reflexivity.
Qed.

Lemma omitted_unit_eqb (u : Z) :
  (u =? TimeUnits.DEFAULT) || (u =? TimeUnits.INFINITE) = true
  <-> omitted_unit u.
Proof.
  unfold omitted_unit. rewrite orb_true_iff, !Z.eqb_eq. tauto.
Qed.

Lemma omitted_unit_dec (u : Z) :
  ((u =? TimeUnits.DEFAULT) || (u =? TimeUnits.INFINITE) = true /\
   omitted_unit u) \/
  ((u =? TimeUnits.DEFAULT) || (u =? TimeUnits.INFINITE) = false /\
   ~ omitted_unit u).
Proof.
  destruct ((u =? TimeUnits.DEFAULT) || (u =? TimeUnits.INFINITE)) eqn:E.
  - left. split; [reflexivity|]. apply omitted_unit_eqb. exact E.
  - right. split; [reflexivity|]. intros H. apply omitted_unit_eqb in H.
    congruence.
Qed.

(** The bytes of a PutRequest: header, key, the time units, each duration
    only when its unit is neither DEFAULT nor INFINITE, value. *)
Lemma PutRequest_layout (slots : string -> value)
    (header key tunits value : list byte) (hi lo : Z) :
  _encode_composite (slots "header") [] = Ok header ->
  Encoder.bytes (slots "key") [] = Ok key ->
  slots "tunits" = VPair hi lo ->
  Encoder.splitbyte (VPair hi lo) [] = Ok tunits ->
  Encoder.bytes (slots "value") [] = Ok value ->
  encode (Msg PutRequest slots)
  = let* lifespan :=
      if (hi =? TimeUnits.DEFAULT) || (hi =? TimeUnits.INFINITE) then Ok []
      else if is_None (slots "lifespan")
           then Raise (EncodeError "PutRequest" "lifespan")
           else Encoder.uvarint (slots "lifespan") [] in
    let* max_idle :=
      if (lo =? TimeUnits.DEFAULT) || (lo =? TimeUnits.INFINITE) then Ok []
      else if is_None (slots "max_idle")
           then Raise (EncodeError "PutRequest" "max_idle")
           else Encoder.uvarint (slots "max_idle") [] in
    Ok (header ++ key ++ tunits ++ lifespan ++ max_idle ++ value).
Proof.
  intros Hh Hk Ht Htb Hv. unfold encode. rewrite _encode_unfold.
  cbn [fields]. unfold Encoder.new.
  assert (Hkn : is_None (slots "key") = false)
    by (destruct (slots "key"); try discriminate; reflexivity).
  assert (Hvn : is_None (slots "value") = false)
    by (destruct (slots "value"); try discriminate; reflexivity).
  assert (Hhn : is_None (slots "header") = false)
    by (destruct (slots "header"); try discriminate; reflexivity).
  destruct (explicit_unit hi lo (Msg PutRequest slots) Ht) as [Hc0 Hc1].
  rewrite (_encode_fields_step _ _ _ _ _ header);
    [|reflexivity|cbn; rewrite Hhn; reflexivity|exact Hh].
  rewrite (_encode_fields_step _ _ _ _ _ key);
    [|reflexivity|cbn; rewrite Hkn; reflexivity|exact Hk].
  rewrite (_encode_fields_step _ _ _ _ _ tunits);
    [|reflexivity|cbn; rewrite Ht; reflexivity
     |unfold encode_field; cbn; rewrite Ht; exact Htb].
  rewrite (_encode_fields_cons _ _ _ _ [_; _]). cbv zeta.
  unfold skipped at 1. cbn [f_condition with_condition with_default field].
  rewrite Hc0, negb_involutive.
  cbn [f_name f_optional f_type with_condition with_default field negb].
  rewrite andb_true_r.
  destruct ((hi =? TimeUnits.DEFAULT) || (hi =? TimeUnits.INFINITE)).
  - rewrite (_encode_fields_cons _ _ _ _ [_]). cbv zeta.
    unfold skipped at 1. cbn [f_condition with_condition with_default field].
    rewrite Hc1, negb_involutive.
    cbn [f_name f_optional f_type with_condition with_default field negb].
    rewrite andb_true_r.
    destruct ((lo =? TimeUnits.DEFAULT) || (lo =? TimeUnits.INFINITE)).
    + rewrite (_encode_fields_step _ _ _ _ _ value);
        [|reflexivity|cbn; rewrite Hvn; reflexivity|exact Hv].
      cbn [_encode_fields Encoder.result app]. rewrite <- !app_assoc.
      reflexivity.
    + destruct (is_None (slots "max_idle")); [reflexivity|].
      rewrite encode_field_flat by discriminate. rewrite call_app.
      cbn [f_type with_condition with_default field Encoder.call].
      destruct (Encoder.uvarint (slots "max_idle") []) as [idle|x];
        [|reflexivity].
      rewrite (_encode_fields_step _ _ _ _ _ value);
        [|reflexivity|cbn; rewrite Hvn; reflexivity|exact Hv].
      cbn [_encode_fields Encoder.result app]. rewrite <- !app_assoc.
      reflexivity.
  - destruct (is_None (slots "lifespan")); [reflexivity|].
    rewrite encode_field_flat by discriminate. rewrite call_app.
    cbn [f_type with_condition with_default field Encoder.call].
    destruct (Encoder.uvarint (slots "lifespan") []) as [life|x];
      [|reflexivity].
    rewrite (_encode_fields_cons _ _ _ _ [_]). cbv zeta.
    unfold skipped at 1. cbn [f_condition with_condition with_default field].
    rewrite Hc1, negb_involutive.
    cbn [f_name f_optional f_type with_condition with_default field negb].
    rewrite andb_true_r.
    destruct ((lo =? TimeUnits.DEFAULT) || (lo =? TimeUnits.INFINITE)).
    + rewrite (_encode_fields_step _ _ _ _ _ value);
        [|reflexivity|cbn; rewrite Hvn; reflexivity|exact Hv].
      cbn [_encode_fields Encoder.result app]. rewrite <- !app_assoc.
      reflexivity.
    + destruct (is_None (slots "max_idle")); [reflexivity|].
      rewrite encode_field_flat by discriminate. rewrite call_app.
      cbn [f_type with_condition with_default field Encoder.call].
      destruct (Encoder.uvarint (slots "max_idle") []) as [idle|x];
        [|reflexivity].
      rewrite (_encode_fields_step _ _ _ _ _ value);
        [|reflexivity|cbn; rewrite Hvn; reflexivity|exact Hv].
      cbn [_encode_fields Encoder.result app]. rewrite <- !app_assoc.
      reflexivity.
Qed.

Lemma _decode_fields_skip
    (rec : value -> Decoder.t -> result (value * Decoder.t))
    (f : FieldSpec) (fs : list FieldSpec) (m : message) (d : Decoder.t) :
  skipped f m = Ok true ->
  _decode_fields rec (f :: fs) m d = _decode_fields rec fs m d.
Proof.
  intros Hsk. rewrite _decode_fields_cons. rewrite Hsk. reflexivity.
Qed.

(** Decoding the fields after the header of a PutRequest whose two time
    units are DEFAULT or INFINITE: the value is read right after the byte
    of the time units, and the two durations are left as they were. *)
Lemma PutRequest_decode_omitted (depth : nat) (slots : string -> value)
    (d d2 d3 : list byte) (b : byte) (k v : value) :
  Decoder.bytes d = Ok (k, b :: d2) ->
  omitted_unit (Z.shiftr (Z_of_byte b) 4) ->
  omitted_unit (Z.land (Z_of_byte b) 15) ->
  Decoder.bytes d2 = Ok (v, d3) ->
  exists m',
    _decode (S depth) (Msg PutRequest slots) d 1 = Ok (m', d3) /\
    getattr m' "key" = k /\
    getattr m' "tunits"
    = VPair (Z.shiftr (Z_of_byte b) 4) (Z.land (Z_of_byte b) 15) /\
    getattr m' "lifespan" = slots "lifespan" /\
    getattr m' "max_idle" = slots "max_idle" /\
    getattr m' "value" = v.
Proof.
  intros Hk Hhi Hlo Hv. cbn [_decode class_of fields skipn].
  rewrite _decode_fields_cons.
  change (skipped (field "key" bytes_t) (Msg PutRequest slots))
    with (@Ok bool false).
  cbv iota. cbn [f_type f_name field Decoder.call]. rewrite Hk. cbv iota.
  rewrite _decode_fields_cons.
  match goal with
  | |- context [skipped ?f ?m] => change (skipped f m) with (@Ok bool false)
  end.
  cbv iota.
  cbn [f_type f_name field with_default Decoder.call Decoder.splitbyte].
  cbv iota.
  apply omitted_unit_eqb in Hhi. apply omitted_unit_eqb in Hlo.
  rewrite _decode_fields_skip.
  2:{ unfold skipped. cbn [f_condition with_condition with_default field].
      match goal with
      | |- context [tunit_is_explicit 0 ?m] =>
          rewrite (proj1 (explicit_unit (Z.shiftr (Z_of_byte b) 4)
                            (Z.land (Z_of_byte b) 15) m eq_refl))
      end.
      rewrite Hhi. reflexivity. }
  rewrite _decode_fields_skip.
  2:{ unfold skipped. cbn [f_condition with_condition with_default field].
      match goal with
      | |- context [tunit_is_explicit 1 ?m] =>
          rewrite (proj2 (explicit_unit (Z.shiftr (Z_of_byte b) 4)
                            (Z.land (Z_of_byte b) 15) m eq_refl))
      end.
      rewrite Hlo. reflexivity. }
  rewrite _decode_fields_cons.
  match goal with
  | |- context [skipped ?f ?m] => change (skipped f m) with (@Ok bool false)
  end.
  cbv iota. cbn [f_type f_name field Decoder.call]. rewrite Hv. cbv iota.
  cbn [_decode_fields].
  eexists. split; [reflexivity|]. repeat split; reflexivity.
Qed.

(** C5. A PutRequest whose lifespan unit is DEFAULT or INFINITE has no
    lifespan bytes at all between the byte of the time units and what
    follows, whatever the lifespan field holds, and likewise for max_idle;
    when a unit is explicit the varint of its duration stands there.  In
    decoding, a field under a false condition is passed over: the field
    keeps what it held and the input is not advanced, so the value of a
    PutRequest is read right after the byte of the time units, and a
    GetResponse whose status is not OK ends with its header, its value
    unset. *)
Theorem false_condition_omits_field :
  (forall (slots : string -> value) (header key tunits value : list byte)
          (hi lo : Z),
      _encode_composite (slots "header") [] = Ok header ->
      Encoder.bytes (slots "key") [] = Ok key ->
      slots "tunits" = VPair hi lo ->
      Encoder.splitbyte (VPair hi lo) [] = Ok tunits ->
      Encoder.bytes (slots "value") [] = Ok value ->
      (omitted_unit hi -> omitted_unit lo ->
       encode (Msg PutRequest slots)
       = Ok (header ++ key ++ tunits ++ value)) /\
      (omitted_unit hi -> ~ omitted_unit lo ->
       forall idle, Encoder.uvarint (slots "max_idle") [] = Ok idle ->
       encode (Msg PutRequest slots)
       = Ok (header ++ key ++ tunits ++ idle ++ value)) /\
      (~ omitted_unit hi -> omitted_unit lo ->
       forall life, Encoder.uvarint (slots "lifespan") [] = Ok life ->
       encode (Msg PutRequest slots)
       = Ok (header ++ key ++ tunits ++ life ++ value))) /\
  (forall (rec : value -> Decoder.t -> result (value * Decoder.t))
          (f : FieldSpec) (fs : list FieldSpec) (m : message)
          (d : Decoder.t),
      skipped f m = Ok true ->
      _decode_fields rec (f :: fs) m d = _decode_fields rec fs m d) /\
  (forall (depth : nat) (slots : string -> value) (d d2 d3 : list byte)
          (b : byte) (k v : value),
      Decoder.bytes d = Ok (k, b :: d2) ->
      omitted_unit (Z.shiftr (Z_of_byte b) 4) ->
      omitted_unit (Z.land (Z_of_byte b) 15) ->
      Decoder.bytes d2 = Ok (v, d3) ->
      exists m',
        _decode (S depth) (Msg PutRequest slots) d 1 = Ok (m', d3) /\
        getattr m' "lifespan" = slots "lifespan" /\
        getattr m' "max_idle" = slots "max_idle" /\
        getattr m' "value" = v) /\
  (forall (magic status tcm : byte) (id : Z) (d body : list byte),
      Decoder.uvarlong d = Ok (VInt id, x04 :: status :: tcm :: body) ->
      status <> x00 ->
      exists r, decode (magic :: d) = Ok r /\ getattr r "value" = VNone).
Proof.
  split; [|split; [|split]].
  - intros slots header key tunits value hi lo Hh Hk Ht Htb Hv.
    pose proof (PutRequest_layout _ _ _ _ _ _ _ Hh Hk Ht Htb Hv) as L.
    cbv zeta in L.
    destruct (omitted_unit_dec hi) as [[Ehi Hhi]|[Ehi Hhi]];
      destruct (omitted_unit_dec lo) as [[Elo Hlo]|[Elo Hlo]];
      rewrite Ehi, Elo in L;
      (split; [|split]); intros; try contradiction.
    + exact L.
    + rewrite L. destruct (slots "max_idle"); try discriminate.
      cbn [is_None]. rewrite H1. reflexivity.
    + rewrite L. destruct (slots "lifespan"); try discriminate.
      cbn [is_None]. rewrite H1. rewrite app_nil_l. reflexivity.
  - intros rec f fs m d Hsk. apply _decode_fields_skip. exact Hsk.
  - intros depth slots d d2 d3 b k v Hk Hhi Hlo Hv.
    destruct (PutRequest_decode_omitted depth slots _ _ _ _ _ _ Hk Hhi Hlo Hv)
      as (m' & Hm & _ & _ & Hl & Hi & Hval).
    exists m'. repeat split; assumption.
  - intros magic status tcm id d body Hid Hst.
    rewrite (decode_GetResponse _ _ _ _ _ _ Hid). cbv zeta.
    change Status.OK with (Z_of_byte x00).
    destruct (Z_of_byte status =? Z_of_byte x00) eqn:E.
    + apply status_eqb in E. contradiction.
    + eexists. split; reflexivity.
Qed.

Lemma false_condition_omits_field_witness :
  encode (PutRequest_example (VPair TimeUnits.DEFAULT TimeUnits.INFINITE))
  = Ok ([xa0; x01; x19; x01; x00; x00; x01; x00] ++ [x01; x01] ++ [x78]
        ++ [x02; x02; x03]) /\
  encode (PutRequest_example (VPair TimeUnits.DEFAULT TimeUnits.SECONDS))
  = Ok ([xa0; x01; x19; x01; x00; x00; x01; x00] ++ [x01; x01] ++ [x70]
        ++ [x0a] ++ [x02; x02; x03]) /\
  (exists r, decode [xa1; x01; x04; x02; x00] = Ok r /\
             getattr r "value" = VNone).
Proof.
  destruct false_condition_omits_field as (Henc & _ & _ & Hdec).
  split; [|split].
  - destruct (Henc
                (fun n => getattr (PutRequest_example
                             (VPair TimeUnits.DEFAULT TimeUnits.INFINITE)) n)
                [xa0; x01; x19; x01; x00; x00; x01; x00] [x01; x01] [x78]
                [x02; x02; x03] 7 8 eq_refl eq_refl eq_refl eq_refl eq_refl)
      as (Hboth & _ & _).
    apply Hboth; [left|right]; reflexivity.
  - destruct (Henc
                (fun n => getattr (PutRequest_example
                             (VPair TimeUnits.DEFAULT TimeUnits.SECONDS)) n)
                [xa0; x01; x19; x01; x00; x00; x01; x00] [x01; x01] [x70]
                [x02; x02; x03] 7 0 eq_refl eq_refl eq_refl eq_refl eq_refl)
      as (_ & Hidle & _).
    apply Hidle; [left; reflexivity| |reflexivity].
    unfold omitted_unit. intros [H|H]; discriminate.
  - apply (Hdec xa1 x02 x00 1 [x01; x04; x02; x00] [] eq_refl).
    discriminate.
Defined.

(** ** C6: encoding and decoding again *)

Lemma byte_inv (v : value) (chunk : Encoder.t) :
  Encoder.byte v [] = Ok chunk ->
  exists n, v = VInt n /\ 0 <= n < 256 /\ chunk = [byte_of_Z n].
Proof.
  unfold Encoder.byte. destruct v; try discriminate.
  destruct (Z.leb_spec 0 n), (Z.ltb_spec n 256); try discriminate.
  intros Henc. apply Ok_inj in Henc. subst chunk.
  exists n. split; [reflexivity|]. split; [lia|reflexivity].
Qed.

Lemma uvarlong_inv (v : value) (chunk : Encoder.t) :
  Encoder.uvarlong v [] = Ok chunk ->
  exists n, v = VInt n /\ 0 <= n < UVARLONG_LIMIT /\
            chunk = Encoder.uvar 10 n.
Proof.
  unfold Encoder.uvarlong. destruct v; try discriminate.
  destruct (Z.leb_spec 0 n), (Z.ltb_spec n UVARLONG_LIMIT);
    try discriminate.
  intros Henc. apply Ok_inj in Henc. subst chunk.
  exists n. split; [reflexivity|]. split; [lia|reflexivity].
Qed.

(** The layout of an encoded ResponseHeader. *)
Lemma ResponseHeader_layout (slots : string -> value) (e e' : Encoder.t) :
  _encode (Msg ResponseHeader slots) e = Ok e' ->
  exists magic id op status tcm,
    slots "magic" = VInt magic /\ 0 <= magic < 256 /\
    slots "id" = VInt id /\ 0 <= id < UVARLONG_LIMIT /\
    slots "op" = VInt op /\ 0 <= op < 256 /\
    slots "status" = VInt status /\ 0 <= status < 256 /\
    slots "tcm" = VInt tcm /\ 0 <= tcm < 256 /\
    e' = e ++ byte_of_Z magic
           :: Encoder.uvar 10 id
           ++ [byte_of_Z op; byte_of_Z status; byte_of_Z tcm].
Proof.
  rewrite _encode_unfold. cbn [fields ResponseHeader_fields]. intros H.
  apply flat_field_ok in H; [|reflexivity|discriminate].
  destruct H as (c1 & H1 & H).
  apply flat_field_ok in H; [|reflexivity|discriminate].
  destruct H as (c2 & H2 & H).
  apply flat_field_ok in H; [|reflexivity|discriminate].
  destruct H as (c3 & H3 & H).
  apply flat_field_ok in H; [|reflexivity|discriminate].
  destruct H as (c4 & H4 & H).
  apply flat_field_ok in H; [|reflexivity|discriminate].
  destruct H as (c5 & H5 & H).
  cbn [_encode_fields] in H. apply Ok_inj in H. subst e'.
  apply byte_inv in H1. destruct H1 as (magic & Hm & Rm & ->).
  apply uvarlong_inv in H2. destruct H2 as (id & Hi & Ri & ->).
  apply byte_inv in H3. destruct H3 as (op & Ho & Ro & ->).
  apply byte_inv in H4. destruct H4 as (status & Hs & Rs & ->).
  apply byte_inv in H5. destruct H5 as (tcm & Ht & Rt & ->).
  exists magic, id, op, status, tcm.
  repeat (split; [assumption|]).
  rewrite <- !app_assoc. reflexivity.
Qed.

Lemma Response_fields (c : cls) :
  In c Response_subclasses -> exists fs, fields c = Response_header :: fs.
Proof.
  unfold Response_subclasses. cbn [In].
  intros [<-|[<-|[<-|[<-|[<-|[<-|[]]]]]]]; eexists; reflexivity.
Qed.

(** An encoded response is its encoded header followed by its encoded
    fields. *)
Lemma Response_encode_inv (c : cls) (slots hslots : string -> value)
    (fs : list FieldSpec) (data : list byte) :
  fields c = Response_header :: fs ->
  slots "header" = VMsg (Msg ResponseHeader hslots) ->
  encode (Msg c slots) = Ok data ->
  exists header tail,
    _encode (Msg ResponseHeader hslots) [] = Ok header /\
    _encode_fields _encode_composite c slots fs [] = Ok tail /\
    data = header ++ tail.
Proof.
  intros Hfs Hh. unfold encode.
  destruct (_encode (Msg c slots) Encoder.new) as [e'|x] eqn:E;
    [|discriminate].
  intros Hdata. apply Ok_inj in Hdata. unfold Encoder.result in Hdata.
  subst e'. rewrite _encode_unfold, Hfs, _encode_fields_cons in E.
  cbv zeta in E.
  change (skipped Response_header (Msg c slots)) with (@Ok bool false) in E.
  cbv iota in E. change (f_name Response_header) with "header" in E.
  rewrite Hh in E. cbn [is_None andb] in E.
  rewrite (encode_field_composite Response_header _ _ eq_refl) in E.
  destruct (_encode (Msg ResponseHeader hslots) Encoder.new)
    as [header|x] eqn:Eh; [|discriminate].
  rewrite _encode_fields_app in E.
  - destruct (_encode_fields _encode_composite c slots fs []) as [tail|x];
      [|discriminate].
    apply Ok_inj in E. subst data. exists header, tail.
    split; [exact Eh|]. split; reflexivity.
  - intros n e0. unfold _encode_composite.
    destruct (slots n); try reflexivity. apply _encode_app.
Qed.

Lemma decode_conditional (c : cls) (opb : byte) (code : Z) (fname : string)
    (magic status tcm : byte) (id : Z) (d body : list byte) :
  (c = GetResponse /\ opb = x04 /\ code = Status.OK /\ fname = "value") \/
  (c = PutResponse /\ opb = x02 /\ code = Status.OK_WITH_VALUE /\
   fname = "prev_value") \/
  (c = RemoveResponse /\ opb = x0c /\ code = Status.OK_WITH_VALUE /\
   fname = "prev_value") ->
  Decoder.uvarlong d = Ok (VInt id, opb :: status :: tcm :: body) ->
  decode (magic :: d)
  = let response :=
      response_on c (Z_of_byte opb)
        (header_of (Z_of_byte magic) id (Z_of_byte opb) (Z_of_byte status)
           (Z_of_byte tcm)) in
    if Z_of_byte status =? code then
      let* (v, _) := Decoder.bytes body in Ok (setattr response fname v)
    else Ok response.
Proof.
  intros Hc Hid. rewrite (decode_frame _ _ _ _ _ _ _ Hid).
  rewrite recursion_limit_S.
  destruct Hc as [(-> & -> & -> & ->)|[(-> & -> & -> & ->)
                                      |(-> & -> & -> & ->)]].
  - change (Response_class (Z_of_byte x04)) with (Some GetResponse).
    cbn. change Status.OK with 0.
    destruct (Z_of_byte status =? 0); cbn; [|reflexivity].
    destruct (Decoder.bytes body) as [[v body']|e]; reflexivity.
  - change (Response_class (Z_of_byte x02)) with (Some PutResponse).
    cbn. change Status.OK_WITH_VALUE with 3.
    destruct (Z_of_byte status =? 3); cbn; [|reflexivity].
    destruct (Decoder.bytes body) as [[v body']|e]; reflexivity.
  - change (Response_class (Z_of_byte x0c)) with (Some RemoveResponse).
    cbn. change Status.OK_WITH_VALUE with 3.
    destruct (Z_of_byte status =? 3); cbn; [|reflexivity].
    destruct (Decoder.bytes body) as [[v body']|e]; reflexivity.
Qed.

Lemma decode_bare (c : cls) (opb : byte)
    (magic status tcm : byte) (id : Z) (d body : list byte) :
  (c = PingResponse /\ opb = x18) \/ (c = ContainsKeyResponse /\ opb = x10) ->
  Decoder.uvarlong d = Ok (VInt id, opb :: status :: tcm :: body) ->
  decode (magic :: d)
  = Ok (response_on c (Z_of_byte opb)
          (header_of (Z_of_byte magic) id (Z_of_byte opb)
             (Z_of_byte status) (Z_of_byte tcm))).
Proof.
  intros Hc Hid. rewrite (decode_frame _ _ _ _ _ _ _ Hid).
  rewrite recursion_limit_S.
  destruct Hc as [(-> & ->)|(-> & ->)].
  - change (Response_class (Z_of_byte x18)) with (Some PingResponse).
    reflexivity.
  - change (Response_class (Z_of_byte x10)) with (Some ContainsKeyResponse).
    reflexivity.
Qed.

Lemma uvarlong_roundtrip (id : Z) (rest : list byte) :
  0 <= id < UVARLONG_LIMIT ->
  Decoder.uvarlong (Encoder.uvar 10 id ++ rest) = Ok (VInt id, rest).
Proof.
  intros Hid. unfold Decoder.uvarlong.
  rewrite uvar_in_roundtrip; [reflexivity|congruence|lia
                             |vm_compute; congruence].
Qed.

(** C6, counterexample.  A PingRequest with all of its fields set does not
    come back from [decode]: [decode] reads a response header from the
    encoded request, finds the version byte 0x19 where the opcode of a
    response stands, and raises. *)
Lemma request_does_not_roundtrip : ~ roundtrip_every_shape.
Proof.
  intros H.
  destruct (H PingRequest_all_set
              [xa0; x01; x19; x17; x01; x63; x00; x01; x00])
    as (r & Hr & _).
  - cbn. tauto.
  - constructor.
    + intros f Hf. cbn [class_of PingRequest_all_set PingRequest_new setattr
                        Message_init fields In] in Hf.
      each_field Hf. cbn. discriminate.
    + intros f m' Hf Hty Hget.
      cbn [class_of PingRequest_all_set PingRequest_new setattr
           Message_init fields In] in Hf.
      each_field Hf. cbn in Hget. inversion Hget. subst m'.
      clear Hget Hty. constructor.
      * intros f Hf. cbn [class_of fields RequestHeader_fields In] in Hf.
        each_field Hf; cbn; discriminate.
      * intros f m' Hf Hty.
        cbn [class_of fields RequestHeader_fields In] in Hf.
        each_field Hf; discriminate Hty.
  - reflexivity.
  - revert Hr. vm_compute. discriminate.
Qed.

Lemma status_condition (c : cls) (slots hslots : string -> value)
    (code status : Z) :
  slots "header" = VMsg (Msg ResponseHeader hslots) ->
  hslots "status" = VInt status ->
  status_is code (Msg c slots) = Ok (status =? code).
Proof.
  intros Hh Hs. unfold status_is. cbn [getattr]. rewrite Hh.
  cbn [attr getattr]. rewrite Hs. reflexivity.
Qed.

(** The encoded fields after the header of a response with one bytes field
    under a status condition. *)
Lemma conditional_tail (c : cls) (slots hslots : string -> value)
    (code status : Z) (fname : string) (tail : list byte) :
  slots "header" = VMsg (Msg ResponseHeader hslots) ->
  hslots "status" = VInt status ->
  _encode_fields _encode_composite c slots
    [with_condition (status_is code) (field fname bytes_t)] [] = Ok tail ->
  skipped (with_condition (status_is code) (field fname bytes_t))
    (Msg c slots) = Ok (negb (status =? code)) /\
  if status =? code
  then Decoder.bytes tail = Ok (slots fname, [])
  else tail = [].
Proof.
  intros Hh Hs Htail.
  assert (Hsk : skipped (with_condition (status_is code)
                           (field fname bytes_t)) (Msg c slots)
                = Ok (negb (status =? code))).
  { unfold skipped. cbn [f_condition with_condition field].
    rewrite (status_condition _ _ _ _ _ Hh Hs). reflexivity. }
  split; [exact Hsk|].
  destruct (status =? code).
  - apply flat_field_ok in Htail; [|exact Hsk|discriminate].
    destruct Htail as (chunk & Hcall & Hrest).
    cbn [_encode_fields app] in Hrest. apply Ok_inj in Hrest. subst tail.
    cbn [f_type f_name with_condition field] in Hcall.
    destruct (call_roundtrip _ _ _ _ Hcall) as (chunk' & Hc & Hdec).
    cbn [app] in Hc. subst chunk'.
    specialize (Hdec []). rewrite app_nil_r in Hdec.
    cbn [Decoder.call] in Hdec. rewrite Hdec.
    destruct (slots fname); try reflexivity. discriminate.
  - rewrite _encode_fields_skip in Htail by exact Hsk.
    cbn [_encode_fields] in Htail. apply Ok_inj in Htail.
    symmetry. exact Htail.
Qed.

Lemma cons_eq_inv {A : Type} (a b : A) (l l' : list A) :
  a :: l = b :: l' -> a = b /\ l = l'.
Proof. intros H. inversion H. split; reflexivity. Qed.

Lemma Some_eq_inv {A : Type} (a b : A) : Some a = Some b -> a = b.
Proof. intros H. inversion H. reflexivity. Qed.

(** The header a response decodes to has the fields of the header that was
    encoded. *)
Lemma header_of_fields (hslots : string -> value)
    (magic id op status tcm : Z) (n : string) :
  hslots "magic" = VInt magic -> hslots "id" = VInt id ->
  hslots "op" = VInt op -> hslots "status" = VInt status ->
  hslots "tcm" = VInt tcm ->
  In n ["magic"; "id"; "op"; "status"; "tcm"] ->
  getattr (setattr (header_of magic id op status tcm) "op" (VInt op)) n
  = hslots n.
Proof.
  intros Hm Hi Ho Hs Ht Hn. cbn [In] in Hn.
  destruct Hn as [<-|[<-|[<-|[<-|[<-|[]]]]]]; cbn; congruence.
Qed.

(** C6, as amended.  A response of a modeled shape whose header carries the
    opcode of its class, and which encodes, decodes from its own bytes to a
    response of the same class with the same header fields; every field
    after the header whose condition holds is reproduced, and a field whose
    condition is false is unset in the decoded response. *)
Theorem response_roundtrip (c : cls) (slots hslots : string -> value)
    (op : Z) (data : list byte) :
  In c Response_subclasses -> OP_CODE c = Some op ->
  slots "header" = VMsg (Msg ResponseHeader hslots) ->
  hslots "op" = VInt op ->
  encode (Msg c slots) = Ok data ->
  exists r h',
    decode data = Ok r /\ class_of r = c /\
    getattr r "header" = VMsg h' /\ class_of h' = ResponseHeader /\
    (forall n, In n ["magic"; "id"; "op"; "status"; "tcm"] ->
               getattr h' n = hslots n) /\
    forall f, In f (skipn 1 (fields c)) ->
      (skipped f (Msg c slots) = Ok false ->
       getattr r (f_name f) = slots (f_name f)) /\
      (skipped f (Msg c slots) = Ok true -> getattr r (f_name f) = VNone).
Proof.
  intros Hc Hop Hh Hhop Henc.
  destruct (Response_fields c Hc) as [fs Hfs].
  destruct (Response_encode_inv _ _ _ _ _ Hfs Hh Henc)
    as (header & tail & Hhe & Htail & ->).
  destruct (ResponseHeader_layout _ _ _ Hhe)
    as (magic & id & op' & status & tcm & Hm & Rm & Hi & Ri & Ho & Ro & Hs
        & Rs & Ht & Rt & ->).
  assert (op' = op) by congruence. subst op'.
  cbn [app]. rewrite <- app_assoc. cbn [app].
  pose proof (uvarlong_roundtrip id
                (byte_of_Z op :: byte_of_Z status :: byte_of_Z tcm :: tail)
                Ri) as Hid.
  pose proof (header_of_fields hslots magic id op status tcm) as Hfields.
  unfold Response_subclasses in Hc. cbn [In] in Hc.
  destruct Hc as [<-|[<-|[<-|[<-|[<-|[<-|[]]]]]]];
    cbn [OP_CODE] in Hop; apply Some_eq_inv in Hop; subst op;
    cbn [fields] in Hfs; apply cons_eq_inv in Hfs; destruct Hfs as [_ <-];
    cbn [skipn fields].
  - (* GetResponse *)
    destruct (conditional_tail _ _ _ _ _ _ _ Hh Hs Htail) as [Hsk Hbody].
    change (byte_of_Z 4) with x04 in Hid |- *.
    rewrite (decode_conditional GetResponse x04 Status.OK "value"
               _ _ _ _ _ _ ltac:(left; repeat split) Hid).
    cbv zeta. rewrite !Z_of_byte_of_Z by assumption.
    change (Z_of_byte x04) with 4.
    destruct (status =? Status.OK).
    + rewrite Hbody. eexists _, _. split; [reflexivity|].
      split; [reflexivity|]. split; [reflexivity|]. split; [reflexivity|].
      split; [intros n Hn; apply Hfields; assumption|].
      intros f [<-|[]]. rewrite Hsk. split; [reflexivity|discriminate].
    + eexists _, _. split; [reflexivity|].
      split; [reflexivity|]. split; [reflexivity|]. split; [reflexivity|].
      split; [intros n Hn; apply Hfields; assumption|].
      intros f [<-|[]]. rewrite Hsk. split; [discriminate|reflexivity].
  - (* PutResponse *)
    destruct (conditional_tail _ _ _ _ _ _ _ Hh Hs Htail) as [Hsk Hbody].
    change (byte_of_Z 2) with x02 in Hid |- *.
    rewrite (decode_conditional PutResponse x02 Status.OK_WITH_VALUE
               "prev_value" _ _ _ _ _ _
               ltac:(right; left; repeat split) Hid).
    cbv zeta. rewrite !Z_of_byte_of_Z by assumption.
    change (Z_of_byte x02) with 2.
    destruct (status =? Status.OK_WITH_VALUE).
    + rewrite Hbody. eexists _, _. split; [reflexivity|].
      split; [reflexivity|]. split; [reflexivity|]. split; [reflexivity|].
      split; [intros n Hn; apply Hfields; assumption|].
      intros f [<-|[]]. rewrite Hsk. split; [reflexivity|discriminate].
    + eexists _, _. split; [reflexivity|].
      split; [reflexivity|]. split; [reflexivity|]. split; [reflexivity|].
      split; [intros n Hn; apply Hfields; assumption|].
      intros f [<-|[]]. rewrite Hsk. split; [discriminate|reflexivity].
  - (* PingResponse *)
    cbn [_encode_fields] in Htail. apply Ok_inj in Htail. subst tail.
    change (byte_of_Z 24) with x18 in Hid |- *.
    rewrite (decode_bare PingResponse x18 _ _ _ _ _ _
               ltac:(left; split; reflexivity) Hid).
    rewrite !Z_of_byte_of_Z by assumption. change (Z_of_byte x18) with 24.
    eexists _, _. split; [reflexivity|].
    split; [reflexivity|]. split; [reflexivity|]. split; [reflexivity|].
    split; [intros n Hn; apply Hfields; assumption|]. intros f [].
  - (* ErrorResponse *)
    apply flat_field_ok in Htail; [|reflexivity|discriminate].
    destruct Htail as (chunk & Hcall & Hrest).
    cbn [_encode_fields app] in Hrest. apply Ok_inj in Hrest. subst tail.
    cbn [f_type f_name field] in Hcall.
    assert (Hset : is_None (slots "error_message") = false).
    { destruct (slots "error_message") eqn:E; try reflexivity.
      exfalso. clear Hid Hfields. unfold encode in Henc.
      rewrite _encode_unfold in Henc. cbn [fields] in Henc.
      rewrite (_encode_fields_cons _ _ _ Response_header) in Henc.
      cbv zeta in Henc.
      change (skipped Response_header (Msg ErrorResponse slots))
        with (@Ok bool false) in Henc.
      cbv iota in Henc. change (f_name Response_header) with "header" in Henc.
      rewrite Hh in Henc. cbn [is_None andb] in Henc.
      rewrite (encode_field_composite Response_header _ _ eq_refl) in Henc.
      destruct (_encode (Msg ResponseHeader hslots) Encoder.new);
        [|discriminate].
      rewrite _encode_fields_cons in Henc. cbv zeta in Henc.
      change (skipped (field "error_message" string_t)
                (Msg ErrorResponse slots)) with (@Ok bool false) in Henc.
      cbv iota in Henc. cbn [f_name field] in Henc. rewrite E in Henc.
      discriminate. }
    destruct (call_roundtrip _ _ _ _ Hcall) as (chunk' & Hch & Hdec).
    cbn [app] in Hch. subst chunk'.
    specialize (Hdec []). rewrite app_nil_r in Hdec.
    cbn [Decoder.call] in Hdec.
    change (byte_of_Z 80) with x50 in Hid |- *.
    rewrite (decode_ErrorResponse _ _ _ _ _ _ Hid). cbv zeta.
    rewrite Hdec. rewrite !Z_of_byte_of_Z by assumption.
    eexists _, _. split; [reflexivity|].
    split; [reflexivity|]. split; [reflexivity|]. split; [reflexivity|].
    split; [intros n Hn; apply Hfields; assumption|].
    intros f [<-|[]]. split; [|discriminate]. intros _. cbn.
    destruct (slots "error_message"); try reflexivity. discriminate.
  - (* RemoveResponse *)
    destruct (conditional_tail _ _ _ _ _ _ _ Hh Hs Htail) as [Hsk Hbody].
    change (byte_of_Z 12) with x0c in Hid |- *.
    rewrite (decode_conditional RemoveResponse x0c Status.OK_WITH_VALUE
               "prev_value" _ _ _ _ _ _
               ltac:(right; right; repeat split) Hid).
    cbv zeta. rewrite !Z_of_byte_of_Z by assumption.
    change (Z_of_byte x0c) with 12.
    destruct (status =? Status.OK_WITH_VALUE).
    + rewrite Hbody. eexists _, _. split; [reflexivity|].
      split; [reflexivity|]. split; [reflexivity|]. split; [reflexivity|].
      split; [intros n Hn; apply Hfields; assumption|].
      intros f [<-|[]]. rewrite Hsk. split; [reflexivity|discriminate].
    + eexists _, _. split; [reflexivity|].
      split; [reflexivity|]. split; [reflexivity|]. split; [reflexivity|].
      split; [intros n Hn; apply Hfields; assumption|].
      intros f [<-|[]]. rewrite Hsk. split; [discriminate|reflexivity].
  - (* ContainsKeyResponse *)
    cbn [_encode_fields] in Htail. apply Ok_inj in Htail. subst tail.
    change (byte_of_Z 16) with x10 in Hid |- *.
    rewrite (decode_bare ContainsKeyResponse x10 _ _ _ _ _ _
               ltac:(right; split; reflexivity) Hid).
    rewrite !Z_of_byte_of_Z by assumption. change (Z_of_byte x10) with 16.
    eexists _, _. split; [reflexivity|].
    split; [reflexivity|]. split; [reflexivity|]. split; [reflexivity|].
    split; [intros n Hn; apply Hfields; assumption|]. intros f [].
Qed.

Lemma response_roundtrip_witness :
  encode GetResponse_example
  = Ok [xa1; x01; x04; x00; x00; x02; x41; x42] /\
  exists r,
    decode [xa1; x01; x04; x00; x00; x02; x41; x42] = Ok r /\
    class_of r = GetResponse /\
    getattr r "value" = VBytes [x41; x42].
Proof.
  split; [reflexivity|].
  destruct (response_roundtrip GetResponse
              (fun n => getattr GetResponse_example n)
              (fun n => getattr (header_of 0xA1 1 0x04 Status.OK 0) n)
              0x04 [xa1; x01; x04; x00; x00; x02; x41; x42])
    as (r & h' & Hdec & Hcls & _ & _ & _ & Hbody).
  - left. reflexivity.
  - reflexivity.
  - reflexivity.
  - reflexivity.
  - reflexivity.
  - exists r. split; [exact Hdec|]. split; [exact Hcls|].
    destruct (Hbody (with_condition (status_is Status.OK)
                       (field "value" bytes_t))) as [Hset _].
    + left. reflexivity.
    + exact (Hset eq_refl).
Defined.

(** ** The id counter, the table and the connection across calls of send *)

Lemma poll_id (req_id : Z) (self : Protocol) :
  _id (fst (poll req_id self)) = _id self.
Proof.
  unfold poll, conn_recv.
  destruct (inbox (conn self)) as [|data rest]; [reflexivity|].
  destruct (decode data); reflexivity.
Qed.

Lemma poll_sent (req_id : Z) (self : Protocol) :
  sent (conn (fst (poll req_id self))) = sent (conn self).
Proof.
  unfold poll, conn_recv.
  destruct (inbox (conn self)) as [|data rest]; [reflexivity|].
  destruct (decode data); reflexivity.
Qed.

Lemma poll_other_keys (req_id k : Z) (self : Protocol) :
  k <> req_id -> _resps (fst (poll req_id self)) !! k = _resps self !! k.
Proof.
  intros Hne. unfold poll, conn_recv.
  destruct (inbox (conn self)) as [|data rest]; [reflexivity|].
  destruct (decode data); [|reflexivity].
  cbn [fst _resps]. apply lookup_insert_ne. congruence.
Qed.

Lemma poll_inbox (req_id : Z) (self : Protocol) :
  exists consumed,
    inbox (conn self) = consumed ++ inbox (conn (fst (poll req_id self))) /\
    (length consumed <= 1)%nat.
Proof.
  unfold poll, conn_recv.
  destruct (inbox (conn self)) as [|data rest] eqn:E.
  - exists []. cbn. rewrite E. split; [reflexivity|lia].
  - exists [data]. destruct (decode data); cbn; (split; [reflexivity|lia]).
Qed.

(** The outcome of the loop of [send] when it may take a turn. *)
Lemma wait_1 (req_id : Z) (self : Protocol) :
  wait 1 req_id self
  = match _resps self !! req_id with
    | Some response => (self, Some (Ok response))
    | None =>
        match poll req_id self with
        | (self', Raise e) => (self', Some (Raise e))
        | (self', Ok _) =>
            (self', match _resps self' !! req_id with
                    | Some response => Some (Ok response)
                    | None => None
                    end)
        end
    end.
Proof.
  cbn [wait]. destruct (_resps self !! req_id); [reflexivity|].
  destruct (poll req_id self) as [self' [[]|e]]; [|reflexivity].
  destruct (_resps self' !! req_id); reflexivity.
Qed.

(** The state the loop of [send] leaves is the one it found or the one a
    single run of its body made of it. *)
Lemma wait_state (turns : nat) (req_id : Z) (self : Protocol) :
  fst (wait turns req_id self) = self \/
  fst (wait turns req_id self) = fst (poll req_id self).
Proof.
  destruct turns as [|turns].
  - left. cbn [wait]. destruct (_resps self !! req_id); reflexivity.
  - rewrite wait_one_turn, wait_1.
    destruct (_resps self !! req_id); [left; reflexivity|].
    right. destruct (poll req_id self) as [self' [[]|e]]; reflexivity.
Qed.

Lemma wait_id (turns : nat) (req_id : Z) (self : Protocol) :
  _id (fst (wait turns req_id self)) = _id self.
Proof.
  destruct (wait_state turns req_id self) as [-> | ->];
    [reflexivity|apply poll_id].
Qed.

Lemma wait_sent (turns : nat) (req_id : Z) (self : Protocol) :
  sent (conn (fst (wait turns req_id self))) = sent (conn self).
Proof.
  destruct (wait_state turns req_id self) as [-> | ->];
    [reflexivity|apply poll_sent].
Qed.

Lemma wait_other_keys (turns : nat) (req_id k : Z) (self : Protocol) :
  k <> req_id ->
  _resps (fst (wait turns req_id self)) !! k = _resps self !! k.
Proof.
  intros Hne. destruct (wait_state turns req_id self) as [-> | ->];
    [reflexivity|apply poll_other_keys; exact Hne].
Qed.

Lemma wait_inbox (turns : nat) (req_id : Z) (self : Protocol) :
  exists consumed,
    inbox (conn self)
    = consumed ++ inbox (conn (fst (wait turns req_id self))) /\
    (length consumed <= 1)%nat.
Proof.
  destruct (wait_state turns req_id self) as [-> | ->];
    [exists []; split; [reflexivity|cbn; lia]|apply poll_inbox].
Qed.

Lemma send_id (turns : nat) (request : message) (self : Protocol) :
  _id (fst (send turns request self)) = _id self + 1.
Proof.
  rewrite send_unfold. cbv zeta.
  destruct (set_header request "id" _) as [request'|e]; [|reflexivity].
  destruct (encode request') as [encoded|e]; [|reflexivity].
  rewrite wait_id. reflexivity.
Qed.

Lemma send_other_keys (turns : nat) (request : message) (self : Protocol)
    (k : Z) :
  k <> _id self + 1 ->
  _resps (fst (send turns request self)) !! k = _resps self !! k.
Proof.
  intros Hne. rewrite send_unfold. cbv zeta.
  destruct (set_header request "id" _) as [request'|e]; [|reflexivity].
  destruct (encode request') as [encoded|e]; [|reflexivity].
  rewrite wait_other_keys by exact Hne. reflexivity.
Qed.

Lemma send_traffic (turns : nat) (request : message) (self : Protocol) :
  exists written consumed,
    sent (conn (fst (send turns request self)))
    = sent (conn self) ++ written /\
    inbox (conn self)
    = consumed ++ inbox (conn (fst (send turns request self))) /\
    (length written <= 1)%nat /\ (length consumed <= length written)%nat.
Proof.
  rewrite send_unfold. cbv zeta.
  destruct (set_header request "id" _) as [request'|e].
  - destruct (encode request') as [encoded|e].
    + match goal with |- context [wait turns ?i ?s] =>
        destruct (wait_inbox turns i s) as (consumed & Hin & Hlen);
        exists [encoded], consumed; rewrite (wait_sent turns i s)
      end.
      split; [reflexivity|]. split; [exact Hin|]. cbn. lia.
    + exists [], []. cbn. rewrite app_nil_r. repeat split; lia.
  - exists [], []. cbn. rewrite app_nil_r. repeat split; lia.
Qed.

(** X1. Whatever its outcome (a response, an exception, or the loop cut
    short), a call of [send] takes exactly one id from the counter and
    leaves every entry of the results table other than the one of that id
    as it was. *)
Theorem send_takes_one_id (turns : nat) (request : message)
    (self : Protocol) :
  _id (fst (send turns request self)) = _id self + 1 /\
  forall k, k <> _id self + 1 ->
    _resps (fst (send turns request self)) !! k = _resps self !! k.
Proof.
  split; [apply send_id|]. intros k Hne. apply send_other_keys, Hne.
Qed.

(** X2. On a protocol instance used by one caller at a time, the [n]-th
    call of [send] works with the request id [n] (the counter starts at 0,
    the ids at 1), and the results table only ever holds keys among the ids
    handed out so far.  So the id of the next request is never in the table
    when [send] reaches its loop. *)
Theorem ids_count_the_calls (conn0 : Connection) (n : nat)
    (self : Protocol) :
  after_sends conn0 n self ->
  _id self = Z.of_nat n /\
  (forall k, is_Some (_resps self !! k) -> 1 <= k <= Z.of_nat n) /\
  _resps self !! (_id self + 1) = None.
Proof.
  intros H.
  assert (Hinv : _id self = Z.of_nat n /\
                 forall k, is_Some (_resps self !! k) -> 1 <= k <= Z.of_nat n).
  { induction H as [|n turns request self H [IHid IHk]].
    - split; [reflexivity|]. intros k [r Hr].
      cbn [Protocol_init _resps] in Hr. rewrite lookup_empty in Hr.
      discriminate.
    - split; [rewrite send_id, IHid; lia|].
      intros k Hk. destruct (Z.eq_dec k (_id self + 1)) as [->|Hne]; [lia|].
      rewrite send_other_keys in Hk by exact Hne.
      specialize (IHk k Hk). lia. }
  destruct Hinv as [Hid Hk]. split; [exact Hid|]. split; [exact Hk|].
  destruct (_resps self !! (_id self + 1)) as [r|] eqn:E; [|reflexivity].
  assert (Hs : is_Some (_resps self !! (_id self + 1)))
    by (rewrite E; eexists; reflexivity).
  specialize (Hk _ Hs). lia.
Qed.

Lemma ids_count_the_calls_witness :
  let self :=
    fst (send 1 PingRequest_new
           (fst (send 1 PingRequest_new
                   (Protocol_init
                      (connection_with [[xa1; x01; x18; x00; x00]]))))) in
  _id self = 2 /\
  (forall k, is_Some (_resps self !! k) -> 1 <= k <= 2) /\
  _resps self !! (_id self + 1) = None.
Proof.
  exact (ids_count_the_calls
           (connection_with [[xa1; x01; x18; x00; x00]]) 2 _
           (after_send _ 1 1 PingRequest_new _
              (after_send _ 0 1 PingRequest_new _ (after_init _)))).
Defined.

(** X3. [n] calls of [send], one after the other, write at most [n] frames
    to the connection and read at most as many frames as they wrote: what
    was written before stays in place, the frames are taken from the
    connection in the order of their arrival, and no call reads a frame
    without having written its request. *)
Theorem calls_bound_the_traffic (conn0 : Connection) (n : nat)
    (self : Protocol) :
  after_sends conn0 n self ->
  exists written consumed,
    sent (conn self) = sent conn0 ++ written /\
    inbox conn0 = consumed ++ inbox (conn self) /\
    (length written <= n)%nat /\ (length consumed <= length written)%nat.
Proof.
  induction 1 as [|n turns request self H (written & consumed & Hs & Hi & Hw & Hc)].
  - exists [], []. cbn. rewrite app_nil_r. repeat split; lia.
  - destruct (send_traffic turns request self)
      as (written' & consumed' & Hs' & Hi' & Hw' & Hc').
    exists (written ++ written'), (consumed ++ consumed').
    rewrite Hs', Hs, Hi, Hi', !length_app, <- !app_assoc.
    repeat split; lia.
Qed.

Lemma calls_bound_the_traffic_witness :
  let conn0 := connection_with [[xa1; x01; x18; x00; x00]] in
  let self :=
    fst (send 1 PingRequest_new
           (fst (send 1 PingRequest_new (Protocol_init conn0)))) in
  exists written consumed,
    sent (conn self) = sent conn0 ++ written /\
    inbox conn0 = consumed ++ inbox (conn self) /\
    (length written <= 2)%nat /\ (length consumed <= length written)%nat.
Proof.
  exact (calls_bound_the_traffic
           (connection_with [[xa1; x01; x18; x00; x00]]) 2 _
           (after_send _ 1 1 PingRequest_new _
              (after_send _ 0 1 PingRequest_new _ (after_init _)))).
Defined.

(** X4. A call of [send] whose request encodes and whose id is not yet in
    the table, made when a frame is waiting on the connection: the encoded
    request is appended to what was written, exactly the first waiting
    frame is taken, and the call ends with the decoding of that frame: the
    response, stored under the request id, or the decode error, with the
    table left as it was. *)
Theorem send_exchanges_one_frame (turns : nat) (request request' : message)
    (self : Protocol) (encoded data : list byte) (rest : list (list byte)) :
  set_header request "id" (VInt (_id self + 1)) = Ok request' ->
  encode request' = Ok encoded ->
  _resps self !! (_id self + 1) = None ->
  inbox (conn self) = data :: rest ->
  send (S turns) request self
  = ({| conn := {| sent := sent (conn self) ++ [encoded]; inbox := rest |};
        _id := _id self + 1;
        _resps := match decode data with
                  | Ok response => <[_id self + 1 := response]> (_resps self)
                  | Raise _ => _resps self
                  end |},
     Some (decode data)).
Proof.
  intros Hset Henc Hfresh Hin.
  rewrite send_unfold. cbv zeta. rewrite Hset, Henc.
  rewrite wait_one_turn, wait_1. cbn [_resps]. rewrite Hfresh.
  unfold poll, conn_recv, conn_send. cbn [conn inbox sent _id _resps].
  rewrite Hin. destruct (decode data) as [response|e]; [|reflexivity].
  cbn [_resps]. rewrite lookup_insert_eq. reflexivity.
Qed.

Lemma send_exchanges_one_frame_witness :
  exists r table,
    decode [xa1; x01; x18; x00; x00] = Ok r /\
    send 1 PingRequest_new
      (Protocol_init (connection_with [[xa1; x01; x18; x00; x00]; [xa1]]))
    = ({| conn := {| sent := [[xa0; x01; x19; x17; x00; x00; x01; x00]];
                     inbox := [[xa1]] |};
          _id := 1; _resps := table |}, Some (Ok r)).
Proof.
  eexists. eexists. split; [reflexivity|].
  refine (send_exchanges_one_frame 0 PingRequest_new _
            (Protocol_init
               (connection_with [[xa1; x01; x18; x00; x00]; [xa1]]))
            [xa0; x01; x19; x17; x00; x00; x01; x00]
            [xa1; x01; x18; x00; x00] [[xa1]] _ _ _ _); reflexivity.
Defined.

(** X5. A call of [send] made when nothing is left to read: the request
    has been written to the connection, the read raises the
    ConnectionError, which ends the call, and the table is as it was. *)
Theorem send_on_silent_connection (turns : nat) (request request' : message)
    (self : Protocol) (encoded : list byte) :
  set_header request "id" (VInt (_id self + 1)) = Ok request' ->
  encode request' = Ok encoded ->
  _resps self !! (_id self + 1) = None ->
  inbox (conn self) = [] ->
  send (S turns) request self
  = ({| conn := {| sent := sent (conn self) ++ [encoded]; inbox := [] |};
        _id := _id self + 1; _resps := _resps self |},
     Some (Raise ConnectionError)).
Proof.
  intros Hset Henc Hfresh Hin.
  rewrite send_unfold. cbv zeta. rewrite Hset, Henc.
  rewrite wait_one_turn, wait_1. cbn [_resps]. rewrite Hfresh.
  unfold poll, conn_recv, conn_send. cbn [conn inbox sent _id _resps].
  rewrite Hin. reflexivity.
Qed.

Lemma send_on_silent_connection_witness :
  send 1 PingRequest_new (Protocol_init (connection_with []))
  = ({| conn := {| sent := [[xa0; x01; x19; x17; x00; x00; x01; x00]];
                   inbox := [] |};
        _id := 1; _resps := ∅ |},
     Some (Raise ConnectionError)).
Proof.
  refine (send_on_silent_connection 0 PingRequest_new _
            (Protocol_init (connection_with []))
            [xa0; x01; x19; x17; x00; x00; x01; x00] _ _ _ _); reflexivity.
Defined.

(** ** The decoder walk *)

Lemma class_of_setattr (m : message) (n : string) (v : value) :
  class_of (setattr m n v) = class_of m.
Proof. destruct m; reflexivity. Qed.

Lemma getattr_setattr (m : message) (n n' : string) (v : value) :
  getattr (setattr m n v) n' = if String.eqb n' n then v else getattr m n'.
Proof. destruct m; reflexivity. Qed.

Lemma getattr_setattr_ne (m : message) (n n' : string) (v : value) :
  n' <> n -> getattr (setattr m n v) n' = getattr m n'.
Proof.
  intros Hne. rewrite getattr_setattr.
  destruct (String.eqb_spec n' n); [contradiction|reflexivity].
Qed.

Lemma _decode_unfold (depth : nat) (m : message) (d : Decoder.t)
    (skip_fields : nat) :
  _decode (S depth) m d skip_fields
  = _decode_fields
      (fun f decoder =>
         match f with
         | VMsg m0 =>
             let* (m', decoder') := _decode depth m0 decoder 0 in
             Ok (VMsg m', decoder')
         | _ => Raise AttributeError
         end)
      (skipn skip_fields (fields (class_of m))) m d.
Proof. reflexivity. Qed.

(** The walk assigns the fields it goes over and nothing else. *)
Lemma _decode_fields_frame
    (rec : value -> Decoder.t -> result (value * Decoder.t))
    (fs : list FieldSpec) :
  forall (m m' : message) (d d' : Decoder.t),
    _decode_fields rec fs m d = Ok (m', d') ->
    class_of m' = class_of m /\
    forall n, ~ In n (map f_name fs) -> getattr m' n = getattr m n.
Proof.
  induction fs as [|f fs IH]; intros m m' d d' H.
  - cbn in H. apply Ok_inj in H. inversion H. subst.
    split; [reflexivity|]. intros; reflexivity.
  - rewrite _decode_fields_cons in H.
    destruct (skipped f m) as [[|]|e]; [| |discriminate].
    + destruct (IH _ _ _ _ H) as [Hc Hn]. split; [exact Hc|].
      intros n Hnot. apply Hn. intros Hin. apply Hnot. right. exact Hin.
    + destruct (match f_type f with
                | composite_t => rec (getattr m (f_name f)) d
                | ty => Decoder.call ty d
                end) as [[decoded d1]|e]; [|discriminate].
      destruct (IH _ _ _ _ H) as [Hc Hn]. split.
      * rewrite Hc. apply class_of_setattr.
      * intros n Hnot. rewrite Hn.
        -- apply getattr_setattr_ne. intros ->. apply Hnot. left. reflexivity.
        -- intros Hin. apply Hnot. right. exact Hin.
Qed.

(** X6. [_decode] changes neither the class of the message nor any
    attribute outside the fields it walks over; the fields before
    [skip_fields] are among those it leaves alone.  This is what lets
    [decode] build the response on the decoded header and resume after it
    with [skip_fields=1]. *)
Theorem _decode_assigns_walked_fields_only (depth : nat) (m m' : message)
    (d d' : Decoder.t) (skip_fields : nat) :
  _decode depth m d skip_fields = Ok (m', d') ->
  class_of m' = class_of m /\
  forall n, ~ In n (map f_name (skipn skip_fields (fields (class_of m)))) ->
            getattr m' n = getattr m n.
Proof.
  destruct depth as [|depth]; [discriminate|].
  rewrite _decode_unfold. apply _decode_fields_frame.
Qed.

Lemma _decode_assigns_walked_fields_only_witness :
  exists m' d',
    _decode 2 GetResponse_example [x01; x7a; x09] 1 = Ok (m', d') /\
    class_of m' = GetResponse /\
    forall n, ~ In n ["value"] -> getattr m' n = getattr GetResponse_example n.
Proof.
  eexists. eexists. split; [reflexivity|].
  refine (_decode_assigns_walked_fields_only 2 GetResponse_example _
            [x01; x7a; x09] _ 1 _). reflexivity.
Defined.

(** ** Input that goes on after what is decoded *)

Lemma uvar_more (groups : nat) :
  forall (d d' more : Decoder.t) (n : Z),
    Decoder.uvar groups d = Ok (n, d') ->
    Decoder.uvar groups (d ++ more) = Ok (n, d' ++ more).
Proof.
  induction groups as [|g IH]; intros d d' more n; [discriminate|].
  destruct d as [|b d0]; [discriminate|]. cbn [Decoder.uvar app].
  destruct (Z_of_byte b <? 128).
  - intros H. apply Ok_inj in H. inversion H. reflexivity.
  - destruct (Decoder.uvar g d0) as [[hi d1]|e] eqn:E; [|discriminate].
    intros H. apply Ok_inj in H. inversion H. subst.
    rewrite (IH _ _ more _ E). reflexivity.
Qed.

Lemma uvar_in_more (groups : nat) (limit : Z) (d d' more : Decoder.t)
    (n : Z) :
  Decoder.uvar_in groups limit d = Ok (n, d') ->
  Decoder.uvar_in groups limit (d ++ more) = Ok (n, d' ++ more).
Proof.
  unfold Decoder.uvar_in.
  destruct (Decoder.uvar groups d) as [[k d1]|e] eqn:E; [|discriminate].
  rewrite (uvar_more _ _ _ more _ E).
  destruct (k <? limit); [|discriminate].
  intros H. apply Ok_inj in H. inversion H. reflexivity.
Qed.

Lemma raw_more (d d' more : Decoder.t) (b : list byte) :
  Decoder.raw d = Ok (b, d') ->
  Decoder.raw (d ++ more) = Ok (b, d' ++ more).
Proof.
  unfold Decoder.raw.
  destruct (Decoder.uvar_in 5 UVARINT_LIMIT d) as [[n d1]|e] eqn:E;
    [|discriminate].
  rewrite (uvar_in_more _ _ _ _ more _ E).
  destruct (Z.ltb_spec (Z.of_nat (length d1)) n) as [Hlt|Hge]; [discriminate|].
  intros H. apply Ok_inj in H. inversion H. subst.
  rewrite length_app.
  destruct (Z.ltb_spec (Z.of_nat (length d1 + length more)) n) as [Hlt|_];
    [lia|].
  assert (Hn : (Z.to_nat n <= length d1)%nat) by lia.
  rewrite firstn_app, skipn_app.
  replace (Z.to_nat n - length d1)%nat with O by lia.
  cbn [firstn skipn]. rewrite app_nil_r. reflexivity.
Qed.

Lemma call_more (ty : wire_type) (d d' more : Decoder.t) (v : value) :
  Decoder.call ty d = Ok (v, d') ->
  Decoder.call ty (d ++ more) = Ok (v, d' ++ more).
Proof.
  destruct ty; cbn [Decoder.call].
  - destruct d; [discriminate|]. cbn.
    intros H. apply Ok_inj in H. inversion H. reflexivity.
  - unfold Decoder.uvarint.
    destruct (Decoder.uvar_in 5 UVARINT_LIMIT d) as [[n d1]|e] eqn:E;
      [|discriminate].
    rewrite (uvar_in_more _ _ _ _ more _ E).
    intros H. apply Ok_inj in H. inversion H. reflexivity.
  - unfold Decoder.uvarlong.
    destruct (Decoder.uvar_in 10 UVARLONG_LIMIT d) as [[n d1]|e] eqn:E;
      [|discriminate].
    rewrite (uvar_in_more _ _ _ _ more _ E).
    intros H. apply Ok_inj in H. inversion H. reflexivity.
  - unfold Decoder.bytes.
    destruct (Decoder.raw d) as [[b d1]|e] eqn:E; [|discriminate].
    rewrite (raw_more _ _ more _ E).
    intros H. apply Ok_inj in H. inversion H. reflexivity.
  - unfold Decoder.string.
    destruct (Decoder.raw d) as [[b d1]|e] eqn:E; [|discriminate].
    rewrite (raw_more _ _ more _ E).
    intros H. apply Ok_inj in H. inversion H. reflexivity.
  - destruct d; [discriminate|]. cbn.
    intros H. apply Ok_inj in H. inversion H. reflexivity.
  - discriminate.
Qed.

Lemma _decode_fields_more
    (rec : value -> Decoder.t -> result (value * Decoder.t))
    (more : Decoder.t) :
  (forall v d v' d', rec v d = Ok (v', d') ->
                     rec v (d ++ more) = Ok (v', d' ++ more)) ->
  forall (fs : list FieldSpec) (m m' : message) (d d' : Decoder.t),
    _decode_fields rec fs m d = Ok (m', d') ->
    _decode_fields rec fs m (d ++ more) = Ok (m', d' ++ more).
Proof.
  intros Hrec. induction fs as [|f fs IH]; intros m m' d d' H.
  - cbn in H |- *. apply Ok_inj in H. inversion H. reflexivity.
  - rewrite _decode_fields_cons in H |- *.
    destruct (skipped f m) as [[|]|e]; [| |discriminate].
    + apply IH, H.
    + destruct (wire_type_eq_dec (f_type f) composite_t) as [Hc|Hc].
      * rewrite Hc in H |- *.
        destruct (rec (getattr m (f_name f)) d) as [[decoded d1]|e] eqn:E;
          [|discriminate].
        rewrite (Hrec _ _ _ _ E). apply IH, H.
      * assert (Hflat : forall d0,
                  match f_type f with
                  | composite_t => rec (getattr m (f_name f)) d0
                  | ty => Decoder.call ty d0
                  end = Decoder.call (f_type f) d0)
          by (intros d0; destruct (f_type f); reflexivity || contradiction).
        rewrite Hflat in H |- *.
        destruct (Decoder.call (f_type f) d) as [[decoded d1]|e] eqn:E;
          [|discriminate].
        rewrite (call_more _ _ _ more _ E). apply IH, H.
Qed.

Lemma _decode_more (more : Decoder.t) (depth : nat) :
  forall (m m' : message) (d d' : Decoder.t) (skip_fields : nat),
    _decode depth m d skip_fields = Ok (m', d') ->
    _decode depth m (d ++ more) skip_fields = Ok (m', d' ++ more).
Proof.
  induction depth as [|depth IH]; intros m m' d d' skip_fields;
    [discriminate|].
  rewrite !_decode_unfold. apply _decode_fields_more.
  intros v d0 v' d0'. destruct v; try discriminate.
  destruct (_decode depth m0 d0 0) as [[m1 d1]|e] eqn:E; [|discriminate].
  rewrite (IH _ _ _ _ _ E).
  intros H. apply Ok_inj in H. inversion H. reflexivity.
Qed.

(** X7. [_decode] reads a prefix of its input: when it decodes a message
    and leaves [d'] unread, then on the same input followed by more bytes
    it decodes the same message and leaves [d'] followed by those bytes.
    Frames can therefore follow one another on a byte stream. *)
Theorem _decode_reads_a_prefix (depth : nat) (m m' : message)
    (d d' more : Decoder.t) (skip_fields : nat) :
  _decode depth m d skip_fields = Ok (m', d') ->
  _decode depth m (d ++ more) skip_fields = Ok (m', d' ++ more).
Proof. apply _decode_more. Qed.

Lemma _decode_reads_a_prefix_witness :
  exists m',
    _decode 2 GetResponse_example [x01; x7a] 1 = Ok (m', []) /\
    _decode 2 GetResponse_example ([x01; x7a] ++ [xa1; x02]) 1
    = Ok (m', [] ++ [xa1; x02]).
Proof.
  eexists. split; [reflexivity|].
  refine (_decode_reads_a_prefix 2 GetResponse_example _ [x01; x7a] []
            [xa1; x02] 1 _). reflexivity.
Defined.

(** ** What decode makes of any input *)

Lemma decode_header_cases (depth : nat) (data : list byte) :
  (exists e, input_error e /\
             _decode (S depth) ResponseHeader_new data 0 = Raise e) \/
  (exists (magic op status tcm : byte) (id : Z) (d body : list byte),
      data = magic :: d /\
      Decoder.uvarlong d = Ok (VInt id, op :: status :: tcm :: body)).
Proof.
  destruct data as [|magic d].
  { left. exists (DecodeError EndOfData). split; [left|]; reflexivity. }
  destruct (Decoder.uvarlong d) as [[v d1]|e] eqn:Hid.
  2:{ left. exists e. split.
      - unfold Decoder.uvarlong in Hid.
        destruct (Decoder.uvar_in 10 UVARLONG_LIMIT d) as [[n d1]|e'] eqn:E;
          [discriminate|].
        apply Raise_inj in Hid. subst. exact (uvar_in_raises _ _ _ _ E).
      - cbn. rewrite Hid. reflexivity. }
  assert (Hv : exists id, v = VInt id).
  { unfold Decoder.uvarlong in Hid.
    destruct (Decoder.uvar_in 10 UVARLONG_LIMIT d) as [[n d2]|e'];
      [|discriminate].
    apply Ok_inj in Hid. inversion Hid. eauto. }
  destruct Hv as [id ->].
  destruct d1 as [|op [|status [|tcm body]]].
  - left. exists (DecodeError EndOfData). split; [left; reflexivity|].
    cbn. rewrite Hid. reflexivity.
  - left. exists (DecodeError EndOfData). split; [left; reflexivity|].
    cbn. rewrite Hid. reflexivity.
  - left. exists (DecodeError EndOfData). split; [left; reflexivity|].
    cbn. rewrite Hid. reflexivity.
  - right. exists magic, op, status, tcm, id, d, body.
    split; [reflexivity|exact Hid].
Qed.

Lemma decode_broken_header (data : list byte) (e : exn) :
  _decode recursion_limit ResponseHeader_new data 0 = Raise e ->
  decode data = Raise e.
Proof.
  intros H. unfold decode.
  change (construct ResponseHeader []) with (Ok ResponseHeader_new).
  cbv beta iota. unfold Decoder.new. rewrite H. reflexivity.
Qed.

(** X8. Whatever bytes it is given, [decode] raises nothing but a
    DecodeError: the input ends inside a field, a varint is malformed, or
    the opcode of the header belongs to no Response class.  The conditions
    of the response fields never fail on a decoded header, and the
    constructors of the response classes never fail on it. *)
Theorem decode_raises_only_DecodeError (data : list byte) (e : exn) :
  decode data = Raise e ->
  e = DecodeError EndOfData \/ e = DecodeError Malformed \/
  e = DecodeError UnsupportedOp.
Proof.
  intros H.
  destruct (decode_header_cases (Nat.pred recursion_limit) data)
    as [(e' & He' & Hh)|(magic & op & status & tcm & id & d & body & -> & Hid)].
  - rewrite <- recursion_limit_S in Hh.
    rewrite (decode_broken_header _ _ Hh) in H. apply Raise_inj in H. subst.
    destruct He' as [->| ->]; auto.
  - destruct (Response_class (Z_of_byte op)) as [c|] eqn:Hc.
    + destruct (decode_registered _ _ _ _ _ _ _ _ _ Hid Hc H) as [->| ->];
        auto.
    + rewrite (decode_frame _ _ _ _ _ _ _ Hid), Hc in H.
      apply Raise_inj in H. auto.
Qed.

Lemma decode_raises_only_DecodeError_witness :
  decode [xa1; x01; x04; x00; x00; x02; x41] = Raise (DecodeError EndOfData)
  /\ (DecodeError EndOfData = DecodeError EndOfData \/
      DecodeError EndOfData = DecodeError Malformed \/
      DecodeError EndOfData = DecodeError UnsupportedOp).
Proof.
  split; [reflexivity|].
  refine (decode_raises_only_DecodeError [xa1; x01; x04; x00; x00; x02; x41]
            (DecodeError EndOfData) _). reflexivity.
Defined.

Lemma construct_response (c : cls) (op : Z) (rh : message) :
  In c Response_subclasses -> OP_CODE c = Some op ->
  construct c [("header", VMsg rh)] = Ok (response_on c op rh).
Proof.
  intros Hin Hop. unfold construct. rewrite Hop.
  unfold Response_subclasses in Hin.
  repeat (destruct Hin as [<-|Hin]; [reflexivity|]). contradiction.
Qed.

Lemma Response_class_registered (z : Z) (c : cls) :
  Response_class z = Some c ->
  In c Response_subclasses /\ OP_CODE c = Some z.
Proof.
  intros H. apply Response_class_Some in H.
  unfold Response_subclasses.
  repeat (destruct H as [[-> ->]|H]; [split; [cbn [In]; tauto|reflexivity]|]).
  destruct H as [-> ->]. split; [cbn [In]; tauto|reflexivity].
Qed.

Lemma tail_not_header (c : cls) :
  In c Response_subclasses ->
  ~ In "header" (map f_name (skipn 1 (fields c))).
Proof.
  unfold Response_subclasses. intros Hin.
  repeat (destruct Hin as [<-|Hin];
          [cbn; intros H; repeat (destruct H as [H|H]; [discriminate H|]);
           exact H|]).
  contradiction.
Qed.

(** A frame that decodes has a complete header and a registered opcode;
    the response is the instance built on the header, after the walk over
    the fields that follow the header. *)
Lemma decode_Ok_inv (data : list byte) (r : message) :
  decode data = Ok r ->
  exists (magic op status tcm : byte) (id : Z) (d body rest : list byte)
         (c : cls),
    data = magic :: d /\
    Decoder.uvarlong d = Ok (VInt id, op :: status :: tcm :: body) /\
    Response_class (Z_of_byte op) = Some c /\
    In c Response_subclasses /\ OP_CODE c = Some (Z_of_byte op) /\
    _decode recursion_limit
      (response_on c (Z_of_byte op)
         (header_of (Z_of_byte magic) id (Z_of_byte op) (Z_of_byte status)
            (Z_of_byte tcm))) body 1 = Ok (r, rest).
Proof.
  intros H.
  destruct (decode_header_cases (Nat.pred recursion_limit) data)
    as [(e' & He' & Hh)|(magic & op & status & tcm & id & d & body & -> & Hid)].
  - rewrite <- recursion_limit_S in Hh.
    rewrite (decode_broken_header _ _ Hh) in H. discriminate.
  - rewrite (decode_frame _ _ _ _ _ _ _ Hid) in H.
    destruct (Response_class (Z_of_byte op)) as [c|] eqn:Hc; [|discriminate].
    destruct (Response_class_registered _ _ Hc) as [Hin Hop].
    rewrite (construct_response _ _ _ Hin Hop) in H.
    destruct (_decode recursion_limit _ body 1) as [[r' rest]|e] eqn:E;
      [|discriminate].
    apply Ok_inj in H. subst r'.
    exists magic, op, status, tcm, id, d, body, rest, c.
    repeat (split; [assumption || reflexivity|]). exact E.
Qed.

(** X9. Every response [decode] returns is an instance of one of the
    Response classes, namely the one whose OP_CODE is the opcode byte of
    the frame, and its header holds the five header values of the frame as
    they came: the magic byte and the message id are stored, not checked. *)
Theorem decoded_response_shape (data : list byte) (r : message) :
  decode data = Ok r ->
  exists (magic op status tcm : byte) (id : Z) (d body : list byte)
         (h : message),
    data = magic :: d /\
    Decoder.uvarlong d = Ok (VInt id, op :: status :: tcm :: body) /\
    In (class_of r) Response_subclasses /\
    OP_CODE (class_of r) = Some (Z_of_byte op) /\
    getattr r "header" = VMsg h /\ class_of h = ResponseHeader /\
    getattr h "magic" = VInt (Z_of_byte magic) /\
    getattr h "id" = VInt id /\
    getattr h "op" = VInt (Z_of_byte op) /\
    getattr h "status" = VInt (Z_of_byte status) /\
    getattr h "tcm" = VInt (Z_of_byte tcm).
Proof.
  intros H.
  destruct (decode_Ok_inv _ _ H)
    as (magic & op & status & tcm & id & d & body & rest & c
        & -> & Hid & _ & Hin & Hop & Hdec).
  rewrite recursion_limit_S, _decode_unfold in Hdec.
  destruct (_decode_fields_frame _ _ _ _ _ _ Hdec) as [Hc Hn].
  assert (Hcls : class_of r = c) by (rewrite Hc; reflexivity).
  exists magic, op, status, tcm, id, d, body,
    (setattr (header_of (Z_of_byte magic) id (Z_of_byte op)
                (Z_of_byte status) (Z_of_byte tcm))
       "op" (VInt (Z_of_byte op))).
  split; [reflexivity|]. split; [exact Hid|].
  rewrite Hcls. split; [exact Hin|]. split; [exact Hop|].
  split; [|repeat split].
  rewrite (Hn "header"); [reflexivity|].
  apply (tail_not_header c Hin).
Qed.

Lemma decoded_response_shape_witness :
  exists (r h : message),
    decode [xa0; x07; x18; x00; x00] = Ok r /\
    In (class_of r) Response_subclasses /\
    OP_CODE (class_of r) = Some 0x18 /\
    getattr r "header" = VMsg h /\
    getattr h "magic" = VInt 0xA0 /\ getattr h "id" = VInt 7.
Proof.
  eexists. eexists. split; [reflexivity|].
  destruct (decoded_response_shape [xa0; x07; x18; x00; x00] _ eq_refl)
    as (magic & op & status & tcm & id & d & body & h & Hd & Hid & Hin & Hop
        & Hh & _ & Hm & Hi & _).
  apply cons_eq_inv in Hd. destruct Hd as [<- <-].
  apply Ok_inj in Hid. inversion Hid. subst.
  split; [exact Hin|]. split; [exact Hop|].
  split; [reflexivity|]. split; reflexivity.
Defined.

(** X10. [decode] takes one frame from the front of its input and ignores
    what follows: bytes after a frame that decodes change nothing in the
    response. *)
Theorem decode_ignores_trailing_bytes (data more : list byte) (r : message) :
  decode data = Ok r -> decode (data ++ more) = Ok r.
Proof.
  intros H.
  destruct (decode_Ok_inv _ _ H)
    as (magic & op & status & tcm & id & d & body & rest & c
        & -> & Hid & Hc & Hin & Hop & Hdec).
  change ((magic :: d) ++ more) with (magic :: (d ++ more)).
  assert (Hid' : Decoder.uvarlong (d ++ more)
                 = Ok (VInt id, op :: status :: tcm :: (body ++ more)))
    by exact (call_more uvarlong_t _ _ more _ Hid).
  rewrite (decode_frame _ _ _ _ _ _ _ Hid').
  rewrite Hc, (construct_response _ _ _ Hin Hop).
  rewrite (_decode_more more _ _ _ _ _ _ Hdec). reflexivity.
Qed.

Lemma decode_ignores_trailing_bytes_witness :
  exists r,
    decode [xa1; x01; x04; x00; x00; x02; x41; x42] = Ok r /\
    decode ([xa1; x01; x04; x00; x00; x02; x41; x42] ++ [xa1; x02; x18])
    = Ok r.
Proof.
  eexists. split; [reflexivity|].
  refine (decode_ignores_trailing_bytes
            [xa1; x01; x04; x00; x00; x02; x41; x42] [xa1; x02; x18] _ _).
  reflexivity.
Defined.

Lemma opcode_byte (op b : byte) (z : Z) :
  Z_of_byte op = z -> Z_of_byte b = z -> op = b.
Proof. intros H1 H2. apply Z_of_byte_eq. congruence. Qed.

(** X11. [decode] does not look at the magic byte: if a frame decodes, the
    same frame with any other first byte decodes too, to a response of the
    same class with the same fields after the header. *)
Theorem decode_does_not_check_magic (magic magic' : byte) (d : list byte)
    (r : message) :
  decode (magic :: d) = Ok r ->
  exists r', decode (magic' :: d) = Ok r' /\ class_of r' = class_of r /\
             forall n, n <> "header" -> getattr r' n = getattr r n.
Proof.
  intros H.
  destruct (decode_Ok_inv _ _ H)
    as (magic0 & op & status & tcm & id & d0 & body & rest & c
        & Hd & Hid & Hc & _).
  apply cons_eq_inv in Hd. destruct Hd as [<- <-].
  assert (Hne : forall (fname n : string) (v : value)
                       (c0 : cls) (z : Z) (rh rh' : message),
             n <> "header" ->
             getattr (setattr (response_on c0 z rh') fname v) n
             = getattr (setattr (response_on c0 z rh) fname v) n).
  { intros fname n v c0 z rh rh' Hn. unfold response_on, Message_init.
    cbn [setattr getattr kwarg].
    destruct (String.eqb_spec n "header") as [->|_]; [contradiction|].
    destruct (String.eqb n fname); [reflexivity|].
    destruct (String.eqb_spec "header" n) as [E|_];
      [symmetry in E; contradiction|reflexivity]. }
  assert (Hne0 : forall (n : string) (c0 : cls) (z : Z) (rh rh' : message),
             n <> "header" ->
             getattr (response_on c0 z rh') n = getattr (response_on c0 z rh) n).
  { intros n c0 z rh rh' Hn. unfold response_on, Message_init.
    cbn [setattr getattr kwarg].
    destruct (String.eqb_spec n "header") as [->|_]; [contradiction|].
    destruct (String.eqb_spec "header" n) as [E|_];
      [symmetry in E; contradiction|reflexivity]. }
  destruct (Response_class_Some _ _ Hc)
    as [[E ->]|[[E ->]|[[E ->]|[[E ->]|[[E ->]|[E ->]]]]]].
  - assert (op = x04) as -> by (apply (opcode_byte _ _ _ E); reflexivity).
    rewrite (decode_conditional GetResponse x04 Status.OK "value"
               magic _ _ _ _ _ ltac:(tauto) Hid) in H;
      rewrite (decode_conditional GetResponse x04 Status.OK "value"
               magic' _ _ _ _ _ ltac:(tauto) Hid).
    cbv zeta in H |- *.
    destruct (Z_of_byte status =? Status.OK).
    + destruct (Decoder.bytes body) as [[v b']|e]; [|discriminate].
      apply Ok_inj in H. subst r. eexists. split; [reflexivity|].
      split; [reflexivity|]. intros n Hn. apply Hne; exact Hn.
    + apply Ok_inj in H. subst r. eexists. split; [reflexivity|].
      split; [reflexivity|]. intros n Hn. apply Hne0; exact Hn.
  - assert (op = x02) as -> by (apply (opcode_byte _ _ _ E); reflexivity).
    rewrite (decode_conditional PutResponse x02 Status.OK_WITH_VALUE
               "prev_value" magic _ _ _ _ _ ltac:(tauto) Hid) in H;
      rewrite (decode_conditional PutResponse x02 Status.OK_WITH_VALUE
               "prev_value" magic' _ _ _ _ _ ltac:(tauto) Hid).
    cbv zeta in H |- *.
    destruct (Z_of_byte status =? Status.OK_WITH_VALUE).
    + destruct (Decoder.bytes body) as [[v b']|e]; [|discriminate].
      apply Ok_inj in H. subst r. eexists. split; [reflexivity|].
      split; [reflexivity|]. intros n Hn. apply Hne; exact Hn.
    + apply Ok_inj in H. subst r. eexists. split; [reflexivity|].
      split; [reflexivity|]. intros n Hn. apply Hne0; exact Hn.
  - assert (op = x18) as -> by (apply (opcode_byte _ _ _ E); reflexivity).
    rewrite (decode_bare PingResponse x18 magic _ _ _ _ _ ltac:(tauto) Hid) in H;
      rewrite (decode_bare PingResponse x18 magic' _ _ _ _ _ ltac:(tauto) Hid).
    apply Ok_inj in H. subst r. eexists. split; [reflexivity|].
    split; [reflexivity|]. intros n Hn. apply Hne0; exact Hn.
  - assert (op = x50) as -> by (apply (opcode_byte _ _ _ E); reflexivity).
    rewrite (decode_ErrorResponse magic _ _ _ _ _ Hid) in H;
      rewrite (decode_ErrorResponse magic' _ _ _ _ _ Hid).
    cbv zeta in H |- *.
    destruct (Decoder.string body) as [[v b']|e]; [|discriminate].
    apply Ok_inj in H. subst r. eexists. split; [reflexivity|].
    split; [reflexivity|]. intros n Hn.
    exact (Hne "error_message" n v ErrorResponse 80 _ _ Hn).
  - assert (op = x0c) as -> by (apply (opcode_byte _ _ _ E); reflexivity).
    rewrite (decode_conditional RemoveResponse x0c Status.OK_WITH_VALUE
               "prev_value" magic _ _ _ _ _ ltac:(tauto) Hid) in H;
      rewrite (decode_conditional RemoveResponse x0c Status.OK_WITH_VALUE
               "prev_value" magic' _ _ _ _ _ ltac:(tauto) Hid).
    cbv zeta in H |- *.
    destruct (Z_of_byte status =? Status.OK_WITH_VALUE).
    + destruct (Decoder.bytes body) as [[v b']|e]; [|discriminate].
      apply Ok_inj in H. subst r. eexists. split; [reflexivity|].
      split; [reflexivity|]. intros n Hn. apply Hne; exact Hn.
    + apply Ok_inj in H. subst r. eexists. split; [reflexivity|].
      split; [reflexivity|]. intros n Hn. apply Hne0; exact Hn.
  - assert (op = x10) as -> by (apply (opcode_byte _ _ _ E); reflexivity).
    rewrite (decode_bare ContainsKeyResponse x10 magic _ _ _ _ _ ltac:(tauto) Hid) in H;
      rewrite (decode_bare ContainsKeyResponse x10 magic' _ _ _ _ _ ltac:(tauto) Hid).
    apply Ok_inj in H. subst r. eexists. split; [reflexivity|].
    split; [reflexivity|]. intros n Hn. apply Hne0; exact Hn.
Qed.

Lemma decode_does_not_check_magic_witness :
  exists r r',
    decode [xa1; x01; x04; x00; x00; x02; x41; x42] = Ok r /\
    decode [x00; x01; x04; x00; x00; x02; x41; x42] = Ok r' /\
    class_of r' = class_of r /\
    forall n, n <> "header" -> getattr r' n = getattr r n.
Proof.
  eexists.
  destruct (decode_does_not_check_magic xa1 x00
              [x01; x04; x00; x00; x02; x41; x42] _ eq_refl)
    as (r' & Hr' & Hc & Hn).
  exists r'. split; [reflexivity|]. split; [exact Hr'|].
  split; [exact Hc|exact Hn].
Defined.

(** ** The encoding as a concatenation *)

Lemma _encode_composite_app (v : value) (e : Encoder.t) :
  _encode_composite v e
  = let* chunk := _encode_composite v [] in Ok (e ++ chunk).
Proof.
  unfold _encode_composite. destruct v; try reflexivity. apply _encode_app.
Qed.

Lemma fields_concat (c : cls) (slots : string -> value)
    (fs : list FieldSpec) :
  forall e e' : Encoder.t,
    _encode_fields _encode_composite c slots fs e = Ok e' <->
    exists chunks,
      Forall2 (fun f chunk => field_bytes (Msg c slots) f = Ok chunk)
        fs chunks /\
      e' = e ++ concat chunks.
Proof.
  induction fs as [|f fs IH]; intros e e'.
  - cbn [_encode_fields]. split.
    + intros H. apply Ok_inj in H. subst e'. exists []. split; [constructor|].
      cbn. rewrite app_nil_r. reflexivity.
    + intros (chunks & HF & ->). apply Forall2_nil_inv_l in HF. subst chunks.
      cbn. rewrite app_nil_r. reflexivity.
  - rewrite _encode_fields_cons. cbv zeta.
    assert (Hfb : field_bytes (Msg c slots) f
                  = let* skip := skipped f (Msg c slots) in
                    if skip then Ok []
                    else if is_None (slots (f_name f)) && negb (f_optional f)
                    then Raise (EncodeError (cls_name c) (f_name f))
                    else encode_field _encode_composite f (slots (f_name f)) [])
      by reflexivity.
    rewrite (encode_field_app _encode_composite f (slots (f_name f)) e)
      by (intros e0; apply _encode_composite_app).
    destruct (skipped f (Msg c slots)) as [[|]|x].
    + rewrite IH. split.
      * intros (chunks & HF & ->). exists ([] :: chunks).
        split; [constructor; assumption|reflexivity].
      * intros (chunks & HF & ->).
        apply Forall2_cons_inv_l in HF.
        destruct HF as (chunk & chunks' & Hch & HF & ->).
        rewrite Hfb in Hch. apply Ok_inj in Hch. subst chunk.
        exists chunks'. split; [exact HF|reflexivity].
    + destruct (is_None (slots (f_name f)) && negb (f_optional f)).
      { split; [discriminate|].
        intros (chunks & HF & _). apply Forall2_cons_inv_l in HF.
        destruct HF as (chunk & chunks' & Hch & _).
        rewrite Hfb in Hch. discriminate. }
      destruct (encode_field _encode_composite f (slots (f_name f)) [])
        as [chunk|x].
      * rewrite IH. split.
        -- intros (chunks & HF & ->). exists (chunk :: chunks).
           split; [constructor; assumption|].
           cbn [concat]. rewrite app_assoc. reflexivity.
        -- intros (chunks & HF & ->).
           apply Forall2_cons_inv_l in HF.
           destruct HF as (chunk0 & chunks' & Hch & HF & ->).
           rewrite Hfb in Hch. apply Ok_inj in Hch. subst chunk0.
           exists chunks'. split; [exact HF|].
           cbn [concat]. rewrite app_assoc. reflexivity.
      * split; [discriminate|].
        intros (chunks & HF & _). apply Forall2_cons_inv_l in HF.
        destruct HF as (chunk & chunks' & Hch & _).
        rewrite Hfb in Hch. discriminate.
    + split; [discriminate|].
      intros (chunks & HF & _). apply Forall2_cons_inv_l in HF.
      destruct HF as (chunk & chunks' & Hch & _).
      rewrite Hfb in Hch. discriminate.
Qed.

(** X12. [_encode] only appends: on an encoder that already holds bytes it
    leaves them in place and adds exactly what [encode] returns for the
    message, and it raises exactly what [encode] raises.  What a message
    encodes to does not depend on what was encoded before it. *)
Theorem _encode_only_appends (m : message) (e : Encoder.t) :
  _encode m e = let* chunk := encode m in Ok (e ++ chunk).
Proof.
  rewrite _encode_app. unfold encode, Encoder.new, Encoder.result.
  destruct (_encode m []); reflexivity.
Qed.

(** X13. The encoding of a message is the concatenation, in the order of
    declaration, of what each of its fields contributes on its own: the
    encoding of a composite field, the bytes of the codec method of any
    other field, and nothing for a field under a false condition.  [encode]
    succeeds exactly when every field does. *)
Theorem encode_concatenates_fields (m : message) (data : list byte) :
  encode m = Ok data <->
  exists chunks,
    Forall2 (fun f chunk => field_bytes m f = Ok chunk)
      (fields (class_of m)) chunks /\
    data = concat chunks.
Proof.
  destruct m as [c slots]. unfold encode, Encoder.new, Encoder.result.
  cbn [class_of]. rewrite <- (fields_concat c slots (fields c) [] data).
  rewrite _encode_unfold.
  destruct (_encode_fields _encode_composite c slots (fields c) []);
    split; intros H; try discriminate.
  - apply Ok_inj in H. subst. reflexivity.
  - exact H.
Qed.

(** ** The request id on the wire and in the reply *)

Lemma decode_header_id (magic : byte) (d tail : list byte) (id : Z)
    (r : message) :
  decode (magic :: d) = Ok r ->
  Decoder.uvarlong d = Ok (VInt id, tail) ->
  response_id (Ok r) = Some id.
Proof.
  intros H Hid.
  destruct (decode_Ok_inv _ _ H)
    as (magic0 & op & status & tcm & id0 & d0 & body & rest & c
        & Hd & Hid0 & _ & Hin & _ & Hdec).
  apply cons_eq_inv in Hd. destruct Hd as [<- <-].
  rewrite Hid in Hid0. apply Ok_inj in Hid0. inversion Hid0. subst id0.
  rewrite recursion_limit_S, _decode_unfold in Hdec.
  destruct (_decode_fields_frame _ _ _ _ _ _ Hdec) as [_ Hn].
  unfold response_id. rewrite (Hn "header" (tail_not_header c Hin)).
  reflexivity.
Qed.

(** X14. A caller that uses the protocol alone and gets the replies in the
    order of its requests is served correctly: when the first frame waiting
    on the connection carries the id of the request just sent, [send] ends
    with the decoding of that frame, and a response it returns carries the
    id of the request. *)
Theorem reply_in_order_reaches_its_caller (turns : nat)
    (request request' : message) (self : Protocol) (encoded : list byte)
    (magic : byte) (d tail : list byte) (rest : list (list byte)) :
  set_header request "id" (VInt (_id self + 1)) = Ok request' ->
  encode request' = Ok encoded ->
  _resps self !! (_id self + 1) = None ->
  inbox (conn self) = (magic :: d) :: rest ->
  Decoder.uvarlong d = Ok (VInt (_id self + 1), tail) ->
  snd (send (S turns) request self) = Some (decode (magic :: d)) /\
  forall r, decode (magic :: d) = Ok r ->
            response_id (Ok r) = Some (_id self + 1).
Proof.
  intros Hset Henc Hfresh Hin Hid. split.
  - rewrite send_unfold. cbv zeta. rewrite Hset, Henc.
    rewrite wait_one_turn, wait_1. cbn [_resps]. rewrite Hfresh.
    unfold poll, conn_recv, conn_send. cbn [conn inbox sent _id _resps].
    rewrite Hin. destruct (decode (magic :: d)) as [response|e];
      [|reflexivity].
    cbn [_resps]. rewrite lookup_insert_eq. reflexivity.
  - intros r Hr. exact (decode_header_id _ _ _ _ _ Hr Hid).
Qed.

Lemma reply_in_order_reaches_its_caller_witness :
  snd (send 1 PingRequest_new
         (Protocol_init (connection_with [[xa1; x01; x18; x00; x00]])))
  = Some (decode [xa1; x01; x18; x00; x00]) /\
  forall r, decode [xa1; x01; x18; x00; x00] = Ok r ->
            response_id (Ok r) = Some 1.
Proof.
  refine (reply_in_order_reaches_its_caller 0 PingRequest_new _
            (Protocol_init (connection_with [[xa1; x01; x18; x00; x00]]))
            [xa0; x01; x19; x17; x00; x00; x01; x00]
            xa1 [x01; x18; x00; x00] [x18; x00; x00] [] _ _ _ _ _);
    reflexivity.
Defined.

Lemma Request_subclasses_fields (c : cls) :
  In c Request_subclasses -> exists fs, fields c = Request_header :: fs.
Proof. apply Request_fields. Qed.

(** An encoded request is its encoded header followed by its encoded
    fields, and the other way round. *)
Lemma Request_encode (c : cls) (slots hslots : string -> value)
    (fs : list FieldSpec) :
  fields c = Request_header :: fs ->
  slots "header" = VMsg (Msg RequestHeader hslots) ->
  encode (Msg c slots)
  = let* header := _encode (Msg RequestHeader hslots) [] in
    let* tail := _encode_fields _encode_composite c slots fs [] in
    Ok (header ++ tail).
Proof.
  intros Hfs Hh. unfold encode, Encoder.new, Encoder.result.
  rewrite _encode_unfold, Hfs, _encode_fields_cons. cbv zeta.
  change (skipped Request_header (Msg c slots)) with (@Ok bool false).
  cbv iota. change (f_name Request_header) with "header".
  rewrite Hh. cbn [is_None andb].
  rewrite (encode_field_composite Request_header _ _ eq_refl).
  destruct (_encode (Msg RequestHeader hslots) []) as [header|x];
    [|reflexivity].
  rewrite _encode_fields_app
    by (intros n e0; apply _encode_composite_app).
  destruct (_encode_fields _encode_composite c slots fs []); reflexivity.
Qed.

(** X15. Whatever a call of [send] writes to the connection is one frame,
    written exactly when the request, with the id of the call in its
    header, encodes: then the encoded request is appended to what was
    written, and for a request with a RequestHeader the frame carries the
    id the call took from the counter, as the varlong that follows the
    magic byte.  When the request does not encode, the call raises what
    [encode] raises and nothing is written or read. *)
Theorem send_writes_request_id (turns : nat) (c : cls)
    (slots hslots : string -> value) (self : Protocol) :
  In c Request_subclasses ->
  slots "header" = VMsg (Msg RequestHeader hslots) ->
  let request' :=
    setattr (Msg c slots) "header"
      (VMsg (setattr (Msg RequestHeader hslots) "id"
               (VInt (_id self + 1)))) in
  match encode request' with
  | Raise x =>
      send turns (Msg c slots) self
      = ({| conn := conn self; _id := _id self + 1;
            _resps := _resps self |}, Some (Raise x))
  | Ok encoded =>
      sent (conn (fst (send turns (Msg c slots) self)))
      = sent (conn self) ++ [encoded] /\
      exists (magic : byte) (rest : list byte),
        encoded = magic :: Encoder.uvar 10 (_id self + 1) ++ rest /\
        hslots "magic" = VInt (Z_of_byte magic) /\
        Decoder.uvarlong (Encoder.uvar 10 (_id self + 1) ++ rest)
        = Ok (VInt (_id self + 1), rest)
  end.
Proof.
  intros Hc Hh request'. subst request'. rewrite send_unfold. cbv zeta.
  unfold set_header. cbn [getattr]. rewrite Hh. cbn [setattr].
  match goal with |- context [encode (Msg c ?s)] =>
    set (slots' := s); destruct (encode (Msg c slots')) as [encoded|x] eqn:Henc
  end; [|reflexivity].
  rewrite wait_sent. cbn [conn conn_send sent]. split; [reflexivity|].
  destruct (Request_subclasses_fields c Hc) as [fs Hfs].
  match type of Henc with context [Msg c ?s] =>
    assert (Hh' : exists hslots',
               s "header" = VMsg (Msg RequestHeader hslots') /\
               hslots' "id" = VInt (_id self + 1) /\
               hslots' "magic" = hslots "magic")
      by (eexists; split; [reflexivity|split; reflexivity])
  end.
  destruct Hh' as (hslots' & Hh' & Hid' & Hmagic').
  rewrite (Request_encode c slots' hslots' fs Hfs Hh') in Henc.
  destruct (_encode (Msg RequestHeader hslots') []) as [header|x] eqn:Eh;
    [|discriminate].
  destruct (_encode_fields _encode_composite c slots' fs []) as [tail|x];
    [|discriminate].
  apply Ok_inj in Henc. subst encoded.
  destruct (RequestHeader_layout _ _ _ Eh)
    as (magic & id & version & op & cname & flags & ci & t_id & Hm & Hi
        & _ & _ & _ & _ & _ & _ & ->).
  rewrite Hid' in Hi. rewrite Hmagic' in Hm.
  destruct (byte_inv _ _ Hm) as (n & Hn & Hrange & ->).
  destruct (uvarlong_inv _ _ Hi) as (k & Hk & Hkrange & ->).
  inversion Hk. subst k.
  exists (byte_of_Z n),
    ((version ++ op ++ cname ++ flags ++ ci ++ t_id) ++ tail).
  split; [|split].
  - cbn [app]. rewrite <- !app_assoc. reflexivity.
  - rewrite Hn, Z_of_byte_of_Z by exact Hrange. reflexivity.
  - apply uvarlong_roundtrip. exact Hkrange.
Qed.

Lemma send_writes_request_id_witness :
  (sent (conn (fst (send 0 PingRequest_new
                      (Protocol_init (connection_with [])))))
   = [] ++ [[xa0; x01; x19; x17; x00; x00; x01; x00]] /\
   exists (magic : byte) (rest : list byte),
     [xa0; x01; x19; x17; x00; x00; x01; x00]
     = magic :: Encoder.uvar 10 (0 + 1) ++ rest /\
     VInt 0xA0 = VInt (Z_of_byte magic) /\
     Decoder.uvarlong (Encoder.uvar 10 (0 + 1) ++ rest)
     = Ok (VInt (0 + 1), rest)) /\
  send 0 GetRequest_without_key (Protocol_init (connection_with []))
  = ({| conn := connection_with []; _id := 0 + 1; _resps := ∅ |},
     Some (Raise (EncodeError "GetRequest" "key"))).
Proof.
  split.
  - exact (send_writes_request_id 0 PingRequest
             (fun n => getattr PingRequest_new n)
             (fun n => getattr (setattr (Message_init RequestHeader
                                           RequestHeader_fields [])
                                  "op" (VInt 0x17)) n)
             (Protocol_init (connection_with []))
             ltac:(right; right; left; reflexivity) eq_refl).
  - exact (send_writes_request_id 0 GetRequest
             (fun n => getattr GetRequest_without_key n)
             (fun n => getattr (RequestHeader_with 0x03 1) n)
             (Protocol_init (connection_with []))
             ltac:(left; reflexivity) eq_refl).
Defined.

(** ** The frames of the requests *)

Lemma RequestHeader_with_bytes (op id : Z) :
  0 <= op < 256 -> 0 <= id < UVARLONG_LIMIT ->
  _encode (RequestHeader_with op id) []
  = Ok (xa0 :: Encoder.uvar 10 id
          ++ [x19; byte_of_Z op; x00; x00; x01; x00]).
Proof.
  intros Hop Hid. unfold RequestHeader_with, Message_init, setattr.
  rewrite _encode_unfold.
  apply (proj2 (fields_concat _ _ _ _ _)).
  exists [[xa0]; Encoder.uvar 10 id; [x19]; [byte_of_Z op]; [x00]; [x00];
          [x01]; [x00]].
  split; [|reflexivity].
  cbn [fields]. unfold RequestHeader_fields.
  repeat match goal with |- Forall2 _ _ _ => constructor end;
    try reflexivity.
  - change (Encoder.uvarlong (VInt id) [] = Ok (Encoder.uvar 10 id)).
    unfold Encoder.uvarlong.
    destruct (Z.leb_spec 0 id) as [_|?]; [|lia].
    destruct (Z.ltb_spec id UVARLONG_LIMIT) as [_|?]; [|lia].
    reflexivity.
  - change (Encoder.byte (VInt op) [] = Ok [byte_of_Z op]).
    unfold Encoder.byte.
    destruct (Z.leb_spec 0 op) as [_|?]; [|lia].
    destruct (Z.ltb_spec op 256) as [_|?]; [|lia].
    reflexivity.
Qed.

(** X16. The frame of a PingRequest, for every request id in the varlong
    domain: the magic byte A0, the id as a varlong, then version 25, opcode
    17, the empty cache name, no flags, client intelligence 1 and topology
    id 0.  For the ids below 128 these are the eight-byte frames
    [A0 id 19 17 00 00 01 00] that the connection tests write. *)
Theorem PingRequest_frame (id : Z) :
  0 <= id < UVARLONG_LIMIT ->
  (let* request := PingRequest_with_id id in encode request)
  = Ok (xa0 :: Encoder.uvar 10 id ++ [x19; x17; x00; x00; x01; x00]) /\
  (id < 128 ->
   (let* request := PingRequest_with_id id in encode request)
   = Ok [xa0; byte_of_Z id; x19; x17; x00; x00; x01; x00]).
Proof.
  intros Hid.
  assert (H : (let* request := PingRequest_with_id id in encode request)
              = Ok (xa0 :: Encoder.uvar 10 id
                      ++ [x19; x17; x00; x00; x01; x00])).
  { change (PingRequest_with_id id)
      with (Ok (setattr PingRequest_new "header"
                  (VMsg (RequestHeader_with 0x17 id)))).
    cbv beta iota. unfold PingRequest_new, Message_init. cbn [setattr].
    rewrite (Request_encode PingRequest _
               (fun n => getattr (RequestHeader_with 0x17 id) n) []
               eq_refl eq_refl).
    change (Msg RequestHeader
              (fun n => getattr (RequestHeader_with 0x17 id) n))
      with (RequestHeader_with 0x17 id).
    rewrite RequestHeader_with_bytes by (exact Hid || lia).
    cbn [_encode_fields]. rewrite app_nil_r. reflexivity. }
  split; [exact H|].
  intros Hsmall. rewrite H. cbn [Encoder.uvar].
  destruct (Z.ltb_spec id 128) as [_|?]; [reflexivity|lia].
Qed.

Lemma PingRequest_frame_witness :
  (let* request := PingRequest_with_id 2 in encode request)
  = Ok [xa0; x02; x19; x17; x00; x00; x01; x00].
Proof.
  exact (proj2 (PingRequest_frame 2 ltac:(vm_compute; split; congruence))
           ltac:(lia)).
Defined.

(** X17. The frame of a GetRequest, RemoveRequest or ContainsKeyRequest
    built from a key, for every request id and every key: the request
    header with the opcode of the class, then the key as a varint length
    and the bytes. *)
Theorem key_request_frame (c : cls) (op id : Z) (key : list byte) :
  In c [GetRequest; RemoveRequest; ContainsKeyRequest] ->
  OP_CODE c = Some op ->
  0 <= id < UVARLONG_LIMIT -> Z.of_nat (length key) < UVARINT_LIMIT ->
  (let* request := key_request_with_id c key id in encode request)
  = Ok (xa0 :: Encoder.uvar 10 id
          ++ [x19; byte_of_Z op; x00; x00; x01; x00]
          ++ Encoder.uvar 5 (Z.of_nat (length key)) ++ key).
Proof.
  intros Hc Hop Hid Hkey.
  assert (Hreq : exists slots,
             key_request_with_id c key id = Ok (Msg c slots) /\
             slots "header"
             = VMsg (Msg RequestHeader
                       (fun n => getattr (RequestHeader_with op id) n)) /\
             slots "key" = VBytes key /\
             fields c = [Request_header; field "key" bytes_t] /\
             0 <= op < 256).
  { unfold key_request_with_id, construct. rewrite Hop.
    cbn [In] in Hc.
    destruct Hc as [<-|[<-|[<-|[]]]]; apply Some_eq_inv in Hop; subst op;
      (eexists; split; [reflexivity|];
       split; [reflexivity|]; split; [reflexivity|];
       split; [reflexivity|lia]). }
  destruct Hreq as (slots & -> & Hh & Hk & Hfs & Hoprange).
  cbv beta iota.
  rewrite (Request_encode c slots _ _ Hfs Hh).
  change (Msg RequestHeader (fun n => getattr (RequestHeader_with op id) n))
    with (RequestHeader_with op id).
  rewrite RequestHeader_with_bytes by assumption.
  assert (Htail : _encode_fields _encode_composite c slots
                    [field "key" bytes_t] []
                  = Ok (Encoder.uvar 5 (Z.of_nat (length key)) ++ key)).
  { apply (proj2 (fields_concat _ _ _ _ _)).
    exists [Encoder.uvar 5 (Z.of_nat (length key)) ++ key].
    split; [|cbn; rewrite app_nil_r; reflexivity].
    constructor; [|constructor].
    unfold field_bytes. cbn [getattr f_name field]. rewrite Hk.
    change (Encoder.raw key []
            = Ok (Encoder.uvar 5 (Z.of_nat (length key)) ++ key)).
    unfold Encoder.raw. cbv zeta.
    destruct (Z.ltb_spec (Z.of_nat (length key)) UVARINT_LIMIT) as [_|?];
      [reflexivity|lia]. }
  rewrite Htail. cbn [app]. rewrite <- !app_assoc. reflexivity.
Qed.

Lemma key_request_frame_witness :
  (let* request := key_request_with_id GetRequest [x6b; x31] 300 in
   encode request)
  = Ok ([xa0; xac; x02; x19; x03; x00; x00; x01; x00] ++ [x02; x6b; x31]).
Proof.
  exact (key_request_frame GetRequest 3 300 [x6b; x31]
           ltac:(left; reflexivity) eq_refl
           ltac:(vm_compute; split; congruence) ltac:(reflexivity)).
Defined.

(** ** Requests through _encode and back through _decode *)

Lemma field_bytes_flat (M : message) (f : FieldSpec) (chunk : list byte) :
  field_bytes M f = Ok chunk -> skipped f M = Ok false ->
  f_type f <> composite_t ->
  is_None (getattr M (f_name f)) && negb (f_optional f) = false /\
  forall rest,
    Decoder.call (f_type f) (chunk ++ rest)
    = Ok (wire_image (getattr M (f_name f)), rest).
Proof.
  unfold field_bytes. cbv zeta. intros H Hsk Hty. rewrite Hsk in H.
  destruct (is_None (getattr M (f_name f)) && negb (f_optional f));
    [discriminate|].
  split; [reflexivity|].
  rewrite (encode_field_flat _ _ _ _ Hty) in H.
  destruct (call_roundtrip _ _ _ _ H) as (chunk' & Hc & Hdec).
  cbn [app] in Hc. subst chunk'. exact Hdec.
Qed.

Lemma field_bytes_skipped (M : message) (f : FieldSpec)
    (chunk : list byte) :
  field_bytes M f = Ok chunk -> skipped f M = Ok true -> chunk = [].
Proof.
  unfold field_bytes. cbv zeta. intros H Hsk. rewrite Hsk in H.
  apply Ok_inj in H. symmetry. exact H.
Qed.

Lemma field_bytes_evaluates (M : message) (f : FieldSpec)
    (chunk : list byte) :
  field_bytes M f = Ok chunk -> exists b, skipped f M = Ok b.
Proof.
  unfold field_bytes. cbv zeta.
  destruct (skipped f M) as [b|x]; [eauto|discriminate].
Qed.

Lemma decode_flat_field
    (rec : value -> Decoder.t -> result (value * Decoder.t))
    (f : FieldSpec) (fs : list FieldSpec) (m : message) (d d' : Decoder.t)
    (v : value) :
  skipped f m = Ok false -> f_type f <> composite_t ->
  Decoder.call (f_type f) d = Ok (v, d') ->
  _decode_fields rec (f :: fs) m d
  = _decode_fields rec fs (setattr m (f_name f) v) d'.
Proof.
  intros Hsk Hty Hcall. rewrite _decode_fields_cons, Hsk.
  assert (Hflat : match f_type f with
                  | composite_t => rec (getattr m (f_name f)) d
                  | ty => Decoder.call ty d
                  end = Decoder.call (f_type f) d)
    by (destruct (f_type f); reflexivity || contradiction).
  rewrite Hflat, Hcall. reflexivity.
Qed.

(** Fields that are no composites, encoded from [M] and decoded into a
    message on which the conditions give what they gave on [M]. *)
Lemma fields_roundtrip
    (rec : value -> Decoder.t -> result (value * Decoder.t)) (M : message)
    (fs : list FieldSpec) :
  forall (chunks : list (list byte)) (m0 : message) (rest : list byte),
    Forall2 (fun f chunk => field_bytes M f = Ok chunk) fs chunks ->
    (forall f, In f fs -> f_type f <> composite_t) ->
    List.NoDup (map f_name fs) ->
    same_walk M fs m0 ->
    exists m',
      _decode_fields rec fs m0 (concat chunks ++ rest) = Ok (m', rest) /\
      (forall f, In f fs -> skipped f M = Ok false ->
         getattr m' (f_name f) = wire_image (getattr M (f_name f))) /\
      (forall f, In f fs -> skipped f M = Ok true ->
         getattr m' (f_name f) = getattr m0 (f_name f)).
Proof.
  induction fs as [|f fs IH]; intros chunks m0 rest HF Hty Hnd Hwalk.
  - apply Forall2_nil_inv_l in HF. subst chunks. exists m0.
    split; [reflexivity|]. split; intros f [].
  - apply Forall2_cons_inv_l in HF.
    destruct HF as (chunk & chunks' & Hch & HF & ->).
    cbn [map] in Hnd. apply List.NoDup_cons_iff in Hnd.
    destruct Hnd as [Hfresh Hnd].
    cbn [same_walk] in Hwalk. destruct Hwalk as [Hsk Hwalk].
    assert (Hty' : forall g, In g fs -> f_type g <> composite_t)
      by (intros g Hg; apply Hty; right; exact Hg).
    assert (Hname : forall g, In g fs -> f_name g <> f_name f).
    { intros g Hg E. apply Hfresh. rewrite <- E.
      apply in_map_iff. exists g. split; [reflexivity|exact Hg]. }
    destruct (field_bytes_evaluates _ _ _ Hch) as [[|] HskM];
      rewrite HskM in Hsk, Hwalk.
    + rewrite (field_bytes_skipped _ _ _ Hch HskM). cbn [concat app].
      destruct (IH chunks' m0 rest HF Hty' Hnd Hwalk)
        as (m' & Hdec & Hset & Hkept).
      exists m'. split; [|split].
      * rewrite _decode_fields_skip by exact Hsk. exact Hdec.
      * intros g [<-|Hg] Hg'; [congruence|]. apply Hset; assumption.
      * intros g [<-|Hg] Hg'.
        -- destruct (_decode_fields_frame _ _ _ _ _ _ Hdec) as [_ Hn].
           apply Hn. exact Hfresh.
        -- apply Hkept; assumption.
    + destruct (field_bytes_flat _ _ _ Hch HskM (Hty f (or_introl eq_refl)))
        as [_ Hcall].
      destruct (IH chunks' _ rest HF Hty' Hnd Hwalk)
        as (m' & Hdec & Hset & Hkept).
      exists m'. split; [|split].
      * cbn [concat]. rewrite <- app_assoc.
        rewrite (decode_flat_field rec f fs m0 _ _ _ Hsk
                   (Hty f (or_introl eq_refl)) (Hcall _)).
        exact Hdec.
      * intros g [<-|Hg] Hg'.
        -- destruct (_decode_fields_frame _ _ _ _ _ _ Hdec) as [_ Hn].
           rewrite (Hn _ Hfresh), getattr_setattr, String.eqb_refl.
           reflexivity.
        -- apply Hset; assumption.
      * intros g [<-|Hg] Hg'; [congruence|].
        rewrite (Hkept g Hg Hg').
        apply getattr_setattr_ne, Hname, Hg.
Qed.

Lemma Forall2_In_l {A B : Type} (P : A -> B -> Prop) (l : list A) :
  forall k : list B,
    Forall2 P l k -> forall x, In x l -> exists y, P x y.
Proof.
  induction l as [|a l IH]; intros k HF x Hx; [destruct Hx|].
  apply Forall2_cons_inv_l in HF. destruct HF as (y & k' & Hy & HF & _).
  destruct Hx as [<-|Hx]; [eauto|exact (IH _ HF _ Hx)].
Qed.

Lemma find_field_In (n : string) (fs : list FieldSpec) (f : FieldSpec) :
  find_field n fs = Some f -> In f fs /\ f_name f = n.
Proof.
  induction fs as [|g fs IH]; [discriminate|]. cbn [find_field].
  destruct (String.eqb_spec (f_name g) n) as [E|_].
  - intros H. apply Some_eq_inv in H. subst g. split; [left; reflexivity|].
    exact E.
  - intros H. destruct (IH H) as [Hin Hn]. split; [right; exact Hin|exact Hn].
Qed.

Lemma wire_image_set (v : value) : is_None v = false -> wire_image v = v.
Proof. destruct v; [discriminate|reflexivity..]. Qed.

Lemma subscript_wire_image (v : value) (i : nat) :
  subscript (wire_image v) i = subscript v i.
Proof. destruct v; try reflexivity; destruct i as [|[|i]]; reflexivity. Qed.

(** The condition of a duration of a PutRequest reads the time units and
    nothing else. *)
Lemma tunit_skipped (i : nat) (f : FieldSpec) (m M : message) :
  getattr m "tunits" = wire_image (getattr M "tunits") ->
  skipped (with_condition (tunit_is_explicit i) f) m
  = skipped (with_condition (tunit_is_explicit i) f) M.
Proof.
  intros H. unfold skipped. cbn [f_condition with_condition].
  unfold tunit_is_explicit. rewrite H, subscript_wire_image. reflexivity.
Qed.

Lemma Request_same_walk (c : cls) (slots : string -> value) (m : message) :
  In c Request_subclasses ->
  same_walk (Msg c slots) (skipn 1 (fields c)) m.
Proof.
  unfold Request_subclasses. cbn [In].
  intros [<-|[<-|[<-|[<-|[<-|[]]]]]]; cbn [fields skipn same_walk].
  - split; [reflexivity|exact I].
  - split; [reflexivity|]. cbn [skipped f_condition field].
    split; [reflexivity|].
    cbn [skipped f_condition field with_default f_name].
    split; [apply tunit_skipped; destruct m; reflexivity|].
    match goal with |- match ?s with _ => _ end => destruct s as [[|]|?] end.
    + split; [apply tunit_skipped; destruct m; reflexivity|].
      match goal with |- match ?s with _ => _ end => destruct s as [[|]|?] end;
        (split; [reflexivity|exact I]).
    + split; [apply tunit_skipped; destruct m; reflexivity|].
      match goal with |- match ?s with _ => _ end => destruct s as [[|]|?] end;
        (split; [reflexivity|exact I]).
    + split; [apply tunit_skipped; destruct m; reflexivity|].
      match goal with |- match ?s with _ => _ end => destruct s as [[|]|?] end;
        (split; [reflexivity|exact I]).
  - exact I.
  - split; [reflexivity|exact I].
  - split; [reflexivity|exact I].
Qed.

Lemma Request_body_fields (c : cls) (f : FieldSpec) :
  In c Request_subclasses -> In f (skipn 1 (fields c)) ->
  f_optional f = false /\ f_type f <> composite_t /\ f_name f <> "header".
Proof.
  unfold Request_subclasses. cbn [In].
  intros [<-|[<-|[<-|[<-|[<-|[]]]]]]; cbn [fields skipn]; intros Hf;
    each_field Hf; (split; [reflexivity|split; discriminate]).
Qed.

Lemma Request_body_names (c : cls) :
  In c Request_subclasses -> List.NoDup (map f_name (skipn 1 (fields c))).
Proof.
  unfold Request_subclasses. cbn [In].
  intros [<-|[<-|[<-|[<-|[<-|[]]]]]]; cbn [fields skipn map];
    repeat (constructor; [cbn [In]; intros H;
                          repeat (destruct H as [H|H]; [discriminate H|]);
                          exact H|]);
    constructor.
Qed.

Lemma RequestHeader_roundtrip (depth : nat) (hslots : string -> value)
    (header rest : list byte) (h0 : message) :
  _encode (Msg RequestHeader hslots) [] = Ok header ->
  class_of h0 = RequestHeader ->
  exists h',
    _decode (S depth) h0 (header ++ rest) 0 = Ok (h', rest) /\
    class_of h' = RequestHeader /\
    (forall n, In n ["magic"; "id"; "version"; "op"; "flags"; "ci"; "t_id"] ->
               getattr h' n = hslots n) /\
    getattr h' "cname" = wire_image (hslots "cname").
Proof.
  intros Henc Hc. rewrite _encode_unfold in Henc.
  apply fields_concat in Henc. destruct Henc as (chunks & HF & ->).
  cbn [app fields] in HF |- *.
  rewrite _decode_unfold, Hc. cbn [fields skipn].
  destruct (fields_roundtrip
              (fun f decoder =>
                 match f with
                 | VMsg m0 =>
                     let* (m', decoder') := _decode depth m0 decoder 0 in
                     Ok (VMsg m', decoder')
                 | _ => Raise AttributeError
                 end)
              (Msg RequestHeader hslots) RequestHeader_fields chunks h0 rest
              HF)
    as (h' & Hdec & Hset & _).
  - intros f Hf. unfold RequestHeader_fields in Hf.
    each_field Hf; discriminate.
  - unfold RequestHeader_fields. cbn [map].
    repeat (constructor; [cbn [In]; intros H;
                          repeat (destruct H as [H|H]; [discriminate H|]);
                          exact H|]).
    constructor.
  - unfold RequestHeader_fields. cbn [same_walk].
    repeat (split; [reflexivity|]). exact I.
  - exists h'. split; [exact Hdec|].
    destruct (_decode_fields_frame _ _ _ _ _ _ Hdec) as [Hcls _].
    split; [congruence|].
    assert (Hfield : forall f, In f RequestHeader_fields ->
              getattr h' (f_name f) = wire_image (hslots (f_name f)) /\
              is_None (hslots (f_name f)) && negb (f_optional f) = false).
    { intros f Hf. split; [apply (Hset f Hf)|].
      - unfold RequestHeader_fields in Hf. each_field Hf; reflexivity.
      - destruct (Forall2_In_l _ _ _ HF f Hf) as [chunk Hch].
        refine (proj1 (field_bytes_flat _ _ _ Hch _ _)).
        + unfold RequestHeader_fields in Hf. each_field Hf; reflexivity.
        + unfold RequestHeader_fields in Hf. each_field Hf; discriminate. }
    split.
    + intros n Hn. cbn [In] in Hn.
      assert (Hex : exists f, find_field n RequestHeader_fields = Some f /\
                              f_optional f = false).
      { destruct Hn as [<-|[<-|[<-|[<-|[<-|[<-|[<-|[]]]]]]]];
          eexists; split; reflexivity. }
      destruct Hex as (f & Hfind & Hopt).
      destruct (find_field_In _ _ _ Hfind) as [Hf <-].
      destruct (Hfield f Hf) as [Hget Hnone].
      rewrite Hopt in Hnone. cbn [negb] in Hnone.
      rewrite andb_true_r in Hnone.
      rewrite Hget. apply wire_image_set, Hnone.
    + apply (Hfield (with_optional (field "cname" string_t))).
      unfold RequestHeader_fields. cbn [In]. tauto.
Qed.

(** X18. A request of any of the five request classes comes back from
    [_decode] after [encode]: decoding the encoded bytes into an instance
    of the class consumes them all and gives the header fields and the
    fields after the header their encoded values; the unset cache name
    comes back as the empty string, and a duration of a PutRequest that
    was left out under its time unit stays as the instance had it.  The
    conditions, which [_decode] evaluates on the message while it is
    filled, give what they gave at encoding. *)
Theorem request_roundtrip (depth : nat) (c : cls)
    (slots hslots : string -> value) (data : list byte) (m0 h0 : message) :
  In c Request_subclasses ->
  slots "header" = VMsg (Msg RequestHeader hslots) ->
  encode (Msg c slots) = Ok data ->
  class_of m0 = c -> getattr m0 "header" = VMsg h0 ->
  class_of h0 = RequestHeader ->
  exists r h',
    _decode (S (S depth)) m0 data 0 = Ok (r, []) /\ class_of r = c /\
    getattr r "header" = VMsg h' /\ class_of h' = RequestHeader /\
    (forall n, In n ["magic"; "id"; "version"; "op"; "flags"; "ci"; "t_id"] ->
               getattr h' n = hslots n) /\
    getattr h' "cname" = wire_image (hslots "cname") /\
    forall f, In f (skipn 1 (fields c)) ->
      (skipped f (Msg c slots) = Ok false ->
       getattr r (f_name f) = slots (f_name f)) /\
      (skipped f (Msg c slots) = Ok true ->
       getattr r (f_name f) = getattr m0 (f_name f)).
Proof.
  intros Hc Hh Henc Hcls Hh0 Hcls0.
  destruct (Request_subclasses_fields c Hc) as [fs Hfs].
  rewrite (Request_encode c slots hslots fs Hfs Hh) in Henc.
  destruct (_encode (Msg RequestHeader hslots) []) as [header|x] eqn:Eh;
    [|discriminate].
  destruct (_encode_fields _encode_composite c slots fs []) as [tail|x]
    eqn:Et; [|discriminate].
  apply Ok_inj in Henc. subst data.
  apply fields_concat in Et. destruct Et as (chunks & HF & ->).
  cbn [app].
  destruct (RequestHeader_roundtrip depth hslots header (concat chunks) h0
              Eh Hcls0)
    as (h' & Hdech & Hclsh & Hhead & Hcname).
  assert (Hbody : skipn 1 (fields c) = fs) by (rewrite Hfs; reflexivity).
  destruct (fields_roundtrip
              (fun f decoder =>
                 match f with
                 | VMsg m1 =>
                     let* (m', decoder') := _decode (S depth) m1 decoder 0 in
                     Ok (VMsg m', decoder')
                 | _ => Raise AttributeError
                 end)
              (Msg c slots) fs chunks (setattr m0 "header" (VMsg h')) [] HF)
    as (r & Hdec & Hset & Hkept).
  - intros f Hf. rewrite <- Hbody in Hf.
    apply (Request_body_fields c f Hc Hf).
  - rewrite <- Hbody. apply Request_body_names, Hc.
  - rewrite <- Hbody. apply Request_same_walk, Hc.
  - rewrite app_nil_r in Hdec.
    destruct (_decode_fields_frame _ _ _ _ _ _ Hdec) as [Hclsr Hn].
    exists r, h'. split; [|split; [|split; [|split; [|split; [|split]]]]].
    + rewrite _decode_unfold, Hcls, Hfs. cbn [skipn].
      rewrite _decode_fields_cons.
      change (skipped Request_header m0) with (@Ok bool false).
      cbv iota. change (f_type Request_header) with composite_t.
      change (f_name Request_header) with "header". cbv iota.
      rewrite Hh0, Hdech. exact Hdec.
    + rewrite Hclsr, class_of_setattr. exact Hcls.
    + rewrite Hn.
      * rewrite getattr_setattr. reflexivity.
      * intros Hin. apply in_map_iff in Hin.
        destruct Hin as (f & Hname & Hf). rewrite <- Hbody in Hf.
        destruct (Request_body_fields c f Hc Hf) as (_ & _ & Hne).
        contradiction.
    + exact Hclsh.
    + exact Hhead.
    + exact Hcname.
    + intros f Hf. rewrite Hbody in Hf. split; intros Hsk.
      * rewrite (Hset f Hf Hsk). cbn [getattr].
        apply wire_image_set.
        destruct (Forall2_In_l _ _ _ HF f Hf) as [chunk Hch].
        rewrite <- Hbody in Hf.
        destruct (Request_body_fields c f Hc Hf) as (Hopt & Hty & _).
        destruct (field_bytes_flat _ _ _ Hch Hsk Hty) as [Hnone _].
        rewrite Hopt in Hnone. cbn [negb getattr] in Hnone.
        rewrite andb_true_r in Hnone. exact Hnone.
      * rewrite (Hkept f Hf Hsk). apply getattr_setattr_ne.
        rewrite <- Hbody in Hf.
        apply (Request_body_fields c f Hc Hf).
Qed.

Lemma request_roundtrip_witness :
  exists r h',
    _decode 2
      (Msg PutRequest (fun n => if String.eqb n "header"
                                then VMsg (Msg RequestHeader (fun _ => VNone))
                                else VNone))
      [xa0; x01; x19; x01; x00; x00; x01; x00; x01; x01; x70; x0a; x02; x02;
       x03] 0 = Ok (r, []) /\
    class_of r = PutRequest /\ getattr r "header" = VMsg h' /\
    getattr h' "id" = VInt 1 /\ getattr h' "cname" = VStr "" /\
    getattr r "key" = VBytes [x01] /\
    getattr r "tunits" = VPair TimeUnits.DEFAULT TimeUnits.SECONDS /\
    getattr r "lifespan" = VNone /\ getattr r "max_idle" = VInt 10 /\
    getattr r "value" = VBytes [x02; x03].
Proof.
  destruct (request_roundtrip 0 PutRequest
              (fun n => getattr (PutRequest_example
                                   (VPair TimeUnits.DEFAULT TimeUnits.SECONDS))
                          n)
              (fun n => getattr (RequestHeader_with 1 1) n)
              [xa0; x01; x19; x01; x00; x00; x01; x00; x01; x01; x70; x0a;
               x02; x02; x03]
              (Msg PutRequest (fun n => if String.eqb n "header"
                                then VMsg (Msg RequestHeader (fun _ => VNone))
                                else VNone))
              (Msg RequestHeader (fun _ => VNone))
              ltac:(right; left; reflexivity) eq_refl eq_refl eq_refl eq_refl
              eq_refl)
    as (r & h' & Hdec & Hcls & Hh & _ & Hhead & Hcname & Hbody).
  exists r, h'. split; [exact Hdec|]. split; [exact Hcls|].
  split; [exact Hh|].
  split; [apply (Hhead "id"); cbn [In]; tauto|].
  split; [exact Hcname|].
  split; [apply (Hbody (field "key" bytes_t));
          [cbn [fields skipn In]; tauto|reflexivity]|].
  split; [apply (Hbody (with_default
                          (VPair TimeUnits.DEFAULT TimeUnits.DEFAULT)
                          (field "tunits" splitbyte_t)));
          [cbn [fields skipn In]; tauto|reflexivity]|].
  split; [apply (Hbody (with_condition (tunit_is_explicit 0)
                          (with_default (VInt 10)
                             (field "lifespan" uvarint_t))));
          [cbn [fields skipn In]; tauto|reflexivity]|].
  split; [apply (Hbody (with_condition (tunit_is_explicit 1)
                          (with_default (VInt 10)
                             (field "max_idle" uvarint_t))));
          [cbn [fields skipn In]; tauto|reflexivity]|].
  apply (Hbody (field "value" bytes_t));
    [cbn [fields skipn In]; tauto|reflexivity].
Defined.

(** ** What encode raises *)

Lemma _encode_fields_field_bytes (c : cls) (slots : string -> value)
    (f : FieldSpec) (fs : list FieldSpec) (e : Encoder.t) :
  _encode_fields _encode_composite c slots (f :: fs) e
  = let* chunk := field_bytes (Msg c slots) f in
    _encode_fields _encode_composite c slots fs (e ++ chunk).
Proof.
  rewrite _encode_fields_cons. unfold field_bytes. cbv zeta.
  cbn [getattr class_of].
  rewrite (encode_field_app _encode_composite f (slots (f_name f)) e)
    by (intros e0; apply _encode_composite_app).
  destruct (skipped f (Msg c slots)) as [[|]|x]; [| |reflexivity].
  - rewrite app_nil_r. reflexivity.
  - destruct (is_None (slots (f_name f)) && negb (f_optional f));
      [reflexivity|].
    destruct (encode_field _encode_composite f (slots (f_name f)) []);
      reflexivity.
Qed.

Lemma fields_first_failure (c : cls) (slots : string -> value)
    (fs : list FieldSpec) :
  forall (e : Encoder.t) (x : exn),
    _encode_fields _encode_composite c slots fs e = Raise x <->
    exists pre f post chunks,
      fs = pre ++ f :: post /\
      Forall2 (fun g chunk => field_bytes (Msg c slots) g = Ok chunk)
        pre chunks /\
      field_bytes (Msg c slots) f = Raise x.
Proof.
  induction fs as [|g fs IH]; intros e x.
  - cbn [_encode_fields]. split; [discriminate|].
    intros (pre & f & post & chunks & Hfs & _).
    destruct pre; discriminate.
  - rewrite _encode_fields_field_bytes.
    destruct (field_bytes (Msg c slots) g) as [chunk|y] eqn:Hg.
    + rewrite IH. split.
      * intros (pre & f & post & chunks & -> & HF & Hf).
        exists (g :: pre), f, post, (chunk :: chunks).
        split; [reflexivity|]. split; [constructor; assumption|exact Hf].
      * intros (pre & f & post & chunks & Hfs & HF & Hf).
        destruct pre as [|g' pre].
        -- cbn [app] in Hfs. apply cons_eq_inv in Hfs.
           destruct Hfs as [<- _]. congruence.
        -- cbn [app] in Hfs. apply cons_eq_inv in Hfs.
           destruct Hfs as [<- ->].
           apply Forall2_cons_inv_l in HF.
           destruct HF as (ch & chunks' & _ & HF & ->).
           exists pre, f, post, chunks'. split; [reflexivity|].
           split; [exact HF|exact Hf].
    + split.
      * intros H. apply Raise_inj in H. subst y.
        exists [], g, fs, []. split; [reflexivity|].
        split; [constructor|exact Hg].
      * intros (pre & f & post & chunks & Hfs & HF & Hf).
        destruct pre as [|g' pre].
        -- cbn [app] in Hfs. apply cons_eq_inv in Hfs.
           destruct Hfs as [<- _]. congruence.
        -- cbn [app] in Hfs. apply cons_eq_inv in Hfs.
           destruct Hfs as [<- ->].
           apply Forall2_cons_inv_l in HF.
           destruct HF as (ch & chunks' & Hch & _). congruence.
Qed.

(** X19. [encode] raises exactly what the first field that cannot be
    encoded raises, the fields taken in the order of declaration: the
    fields before it have been encoded, the fields after it are not looked
    at. *)
Theorem encode_raises_at_first_failure (m : message) (x : exn) :
  encode m = Raise x <->
  exists pre f post chunks,
    fields (class_of m) = pre ++ f :: post /\
    Forall2 (fun g chunk => field_bytes m g = Ok chunk) pre chunks /\
    field_bytes m f = Raise x.
Proof.
  destruct m as [c slots]. rewrite encode_raises, _encode_unfold.
  cbn [class_of]. apply fields_first_failure.
Qed.

Lemma part_of_nested (m m' m'' : message) (f : FieldSpec) :
  In f (fields (class_of m)) -> f_type f = composite_t ->
  getattr m (f_name f) = VMsg m' -> part_of m'' m' -> part_of m'' m.
Proof. intros. eapply part_nested; eassumption. Qed.

Lemma fields_error_names (c : cls) (slots : string -> value) :
  (forall n m' e cn nm, slots n = VMsg m' ->
     _encode m' e = Raise (EncodeError cn nm) ->
     exists m'' f, part_of m'' m' /\ In f (fields (class_of m'')) /\
       cn = cls_name (class_of m'') /\ nm = f_name f /\
       getattr m'' (f_name f) = VNone /\ f_optional f = false /\
       condition_holds f m'') ->
  forall fs : list FieldSpec,
    (forall f, In f fs -> In f (fields c)) ->
    forall e cn nm,
      _encode_fields _encode_composite c slots fs e
      = Raise (EncodeError cn nm) ->
      exists m'' f, part_of m'' (Msg c slots) /\
        In f (fields (class_of m'')) /\
        cn = cls_name (class_of m'') /\ nm = f_name f /\
        getattr m'' (f_name f) = VNone /\ f_optional f = false /\
        condition_holds f m''.
Proof.
  intros Hnested. induction fs as [|f fs IH]; intros Hsub e cn nm.
  - discriminate.
  - rewrite _encode_fields_cons. cbv zeta.
    assert (Hf : In f (fields c)) by (apply Hsub; left; reflexivity).
    assert (Hsub' : forall g, In g fs -> In g (fields c))
      by (intros g Hg; apply Hsub; right; exact Hg).
    destruct (skipped f (Msg c slots)) as [[|]|x] eqn:Hsk.
    + apply (IH Hsub').
    + apply skipped_false in Hsk.
      destruct (is_None (slots (f_name f)) && negb (f_optional f)) eqn:Hn.
      * intros Hx. apply Raise_inj in Hx. inversion Hx. subst cn nm.
        apply andb_true_iff in Hn. destruct Hn as [Hn Ho].
        apply is_None_true in Hn. apply negb_true_iff in Ho.
        exists (Msg c slots), f.
        split; [apply part_self|]. split; [exact Hf|].
        split; [reflexivity|]. split; [reflexivity|].
        split; [exact Hn|]. split; [exact Ho|exact Hsk].
      * destruct (encode_field _encode_composite f (slots (f_name f)) e)
          as [e1|x] eqn:Hstep; [apply (IH Hsub')|].
        intros Hx. apply Raise_inj in Hx. subst x.
        destruct (wire_type_eq_dec (f_type f) composite_t) as [Hty|Hty].
        -- destruct (slots (f_name f)) as [| | | | |m'] eqn:Hv;
             try (unfold encode_field in Hstep; rewrite Hty in Hstep;
                  discriminate).
           rewrite (encode_field_composite _ _ _ Hty) in Hstep.
           destruct (Hnested _ _ _ _ _ Hv Hstep)
             as (m'' & g & Hpart & Hrest).
           exists m'', g. split; [|exact Hrest].
           exact (part_of_nested (Msg c slots) m' m'' f Hf Hty Hv Hpart).
        -- rewrite (encode_field_flat _ _ _ _ Hty) in Hstep.
           destruct (call_raises _ _ _ _ Hstep) as [?|[?|?]]; discriminate.
    + intros Hx. apply Raise_inj in Hx. subst x.
      destruct (skipped_raises _ _ _ _ Hf Hsk); discriminate.
Qed.

(** X20. An EncodeError tells the truth about where it comes from: the
    class name and the field name it carries are those of a message walked
    by the encoding (the message itself or one held in a composite field)
    and of a field of that message that is unset, not optional and not
    under a false condition. *)
Theorem EncodeError_names_unset_field (m : message) (cn nm : string) :
  encode m = Raise (EncodeError cn nm) ->
  exists m' f,
    part_of m' m /\ In f (fields (class_of m')) /\
    cn = cls_name (class_of m') /\ nm = f_name f /\
    getattr m' (f_name f) = VNone /\ f_optional f = false /\
    condition_holds f m'.
Proof.
  rewrite encode_raises. generalize Encoder.new. revert m cn nm.
  intros m. pattern m. revert m. apply message_induction.
  intros c slots IH cn nm e. rewrite _encode_unfold.
  apply fields_error_names.
  - intros n m' e0 cn0 nm0 Hv He. exact (IH n m' Hv cn0 nm0 e0 He).
  - intros f Hf. exact Hf.
Qed.

Lemma EncodeError_names_unset_field_witness :
  exists m' f,
    part_of m' GetRequest_without_key /\ In f (fields (class_of m')) /\
    "GetRequest" = cls_name (class_of m') /\ "key" = f_name f /\
    getattr m' (f_name f) = VNone /\ f_optional f = false /\
    condition_holds f m'.
Proof.
  exact (EncodeError_names_unset_field GetRequest_without_key
           "GetRequest" "key" eq_refl).
Defined.

(** ** The constructors of requests and responses *)

Lemma header_field (c : cls) (op : Z) :
  OP_CODE c = Some op ->
  exists f, find_field "header" (fields c) = Some f /\
            f_name f = "header" /\
            (f = Request_header \/ f = Response_header).
Proof.
  destruct c; try discriminate; intros _; eexists;
    (split; [reflexivity|split; [reflexivity|]]); tauto.
Qed.

(** X21. What [Request.__init__] and [Response.__init__] do with the
    header: the opcode of the class is written into it, over whatever
    opcode a header passed by the caller had, and nothing else in it is
    changed; without a header argument the header is a fresh RequestHeader
    or ResponseHeader with its defaults; a header argument that is no
    message makes the constructor raise an AttributeError.  Every other
    field is as [Message.__init__] left it. *)
Theorem construct_writes_opcode (c : cls) (op : Z)
    (kwargs : list (string * value)) :
  OP_CODE c = Some op ->
  (forall h, kwarg "header" kwargs = Some (VMsg h) ->
     exists r h',
       construct c kwargs = Ok r /\ class_of r = c /\
       getattr r "header" = VMsg h' /\ class_of h' = class_of h /\
       getattr h' "op" = VInt op /\
       forall n, n <> "op" -> getattr h' n = getattr h n) /\
  (kwarg "header" kwargs = None ->
     exists r h',
       construct c kwargs = Ok r /\ class_of r = c /\
       getattr r "header" = VMsg h' /\
       getattr h' "op" = VInt op /\
       (class_of h' = RequestHeader /\ getattr h' "magic" = VInt 0xA0 \/
        class_of h' = ResponseHeader /\ getattr h' "magic" = VInt 0xA1)) /\
  (forall v, kwarg "header" kwargs = Some v -> (forall h, v <> VMsg h) ->
     construct c kwargs = Raise AttributeError) /\
  (forall r n, construct c kwargs = Ok r -> n <> "header" ->
     getattr r n = getattr (Message_init c (fields c) kwargs) n).
Proof.
  intros Hop. destruct (header_field c op Hop) as (f & Hfind & Hname & Hf).
  assert (Hget : getattr (Message_init c (fields c) kwargs) "header"
                 = match kwarg "header" kwargs with
                   | Some v => v
                   | None => f_default f
                   end)
    by (cbn [Message_init getattr]; rewrite Hfind; reflexivity).
  unfold construct. rewrite Hop. unfold set_header. rewrite Hget.
  split; [|split; [|split]].
  - intros h Hk. rewrite Hk.
    eexists. exists (setattr h "op" (VInt op)).
    split; [reflexivity|]. split; [reflexivity|].
    split; [reflexivity|].
    split; [apply class_of_setattr|].
    split; [rewrite getattr_setattr; reflexivity|].
    intros n Hn. apply getattr_setattr_ne, Hn.
  - intros Hk. rewrite Hk.
    destruct Hf as [-> | ->]; (eexists; eexists;
      split; [reflexivity|]; split; [reflexivity|];
      split; [reflexivity|]; split; [reflexivity|]);
      [left|right]; split; reflexivity.
  - intros v Hk Hv. rewrite Hk.
    destruct v; try reflexivity. destruct (Hv m eq_refl).
  - intros r n Hr Hn.
    destruct (match kwarg "header" kwargs with
              | Some v => v
              | None => f_default f
              end); try discriminate.
    apply Ok_inj in Hr. subst r. apply getattr_setattr_ne, Hn.
Qed.

Lemma construct_writes_opcode_witness :
  exists r h',
    construct PingResponse
      [("header", VMsg (header_of 0xA1 7 0x63 Status.OK 0))] = Ok r /\
    class_of r = PingResponse /\
    getattr r "header" = VMsg h' /\
    class_of h' = ResponseHeader /\
    getattr h' "op" = VInt 0x18 /\
    forall n, n <> "op" ->
      getattr h' n = getattr (header_of 0xA1 7 0x63 Status.OK 0) n.
Proof.
  exact (proj1 (construct_writes_opcode PingResponse 0x18
                  [("header", VMsg (header_of 0xA1 7 0x63 Status.OK 0))]
                  eq_refl)
           (header_of 0xA1 7 0x63 Status.OK 0) eq_refl).
Defined.

(** ** The loop of send *)

(** X22. The loop of [send] runs its body at most once: with one turn of
    the loop allowed the call returns or raises, and allowing more turns
    changes nothing.  A call never reads a second frame. *)
Theorem send_loop_runs_once (turns : nat) (request : message)
    (self : Protocol) :
  send (S turns) request self = send 1 request self /\
  exists self' r, send 1 request self = (self', Some r).
Proof.
  split; [|apply send_returns].
  rewrite !send_unfold. cbv zeta.
  destruct (set_header request "id" _) as [request'|e]; [|reflexivity].
  destruct (encode request') as [encoded|e]; [|reflexivity].
  apply wait_one_turn.
Qed.

Lemma run_waiters_cons (req_id : Z) (schedule : list Z) (self : Protocol)
    (returned : gmap Z (result message)) :
  run_waiters (req_id :: schedule) self returned
  = match returned !! req_id with
    | Some _ => run_waiters schedule self returned
    | None =>
        match turn req_id self with
        | (self', Some r) =>
            run_waiters schedule self' (<[req_id := r]> returned)
        | (self', None) => run_waiters schedule self' returned
        end
    end.
Proof. reflexivity. Qed.

(** X23. Callers waiting on one connection are handed the frames in the
    order in which they take the connection lock: of two callers whose ids
    are not yet in the table, the one that runs the body of the loop first
    returns the decoding of the first frame and the other the decoding of
    the second, whatever ids the frames carry. *)
Theorem frames_go_to_waiters_in_lock_order (a b : Z) (self : Protocol)
    (first second : list byte) (rest : list (list byte))
    (r1 r2 : message) :
  a <> b ->
  _resps self !! a = None -> _resps self !! b = None ->
  inbox (conn self) = first :: second :: rest ->
  decode first = Ok r1 -> decode second = Ok r2 ->
  let returned := snd (run_waiters [a; b; a; b] self ∅) in
  returned !! a = Some (Ok r1) /\ returned !! b = Some (Ok r2) /\
  inbox (conn (fst (run_waiters [a; b; a; b] self ∅))) = rest.
Proof.
  intros Hab Ha Hb Hin H1 H2. cbv zeta.
  assert (Hrun : run_waiters [a; b; a; b] self ∅
                 = ({| conn := {| sent := sent (conn self); inbox := rest |};
                       _id := _id self;
                       _resps := <[b := r2]> (<[a := r1]> (_resps self)) |},
                    <[b := Ok r2]> (<[a := Ok r1]> ∅))).
  { rewrite run_waiters_cons, lookup_empty.
    rewrite (turn_stores_under_caller a self first (second :: rest) r1
               Ha Hin H1).
    cbv beta iota.
    rewrite run_waiters_cons, lookup_empty.
    rewrite (turn_stores_under_caller b _ second rest r2);
      [|cbn [_resps]; rewrite lookup_insert_ne by exact Hab; exact Hb
       |reflexivity|exact H2].
    cbv beta iota. cbn [conn sent inbox _id _resps].
    rewrite run_waiters_cons, lookup_empty.
    unfold turn at 1. cbn [_resps].
    rewrite (lookup_insert_ne _ b a) by congruence.
    rewrite lookup_insert_eq. cbv beta iota.
    rewrite run_waiters_cons.
    rewrite (lookup_insert_ne _ a b) by exact Hab. rewrite lookup_empty.
    unfold turn. cbn [_resps]. rewrite lookup_insert_eq.
    reflexivity. }
  rewrite Hrun. cbn [snd fst conn inbox].
  split; [|split; [|reflexivity]].
  - rewrite lookup_insert_ne by congruence. apply lookup_insert_eq.
  - apply lookup_insert_eq.
Qed.

Lemma frames_go_to_waiters_in_lock_order_witness :
  exists r1 r2,
    decode [xa1; x02; x18; x00; x00] = Ok r1 /\
    decode [xa1; x01; x18; x00; x00] = Ok r2 /\
    let returned := snd (run_waiters [1; 2; 1; 2] two_callers ∅) in
    returned !! 1 = Some (Ok r1) /\ returned !! 2 = Some (Ok r2) /\
    inbox (conn (fst (run_waiters [1; 2; 1; 2] two_callers ∅))) = [].
Proof.
  eexists. eexists. split; [reflexivity|]. split; [reflexivity|].
  refine (frames_go_to_waiters_in_lock_order 1 2 two_callers
            [xa1; x02; x18; x00; x00] [xa1; x01; x18; x00; x00] [] _ _
            _ _ _ _ _ _); try reflexivity.
  lia.
Defined.

(** ** Frames that are cut short *)

Lemma Response_class_of (c : cls) (op : Z) :
  In c Response_subclasses -> OP_CODE c = Some op ->
  Response_class op = Some c.
Proof.
  unfold Response_subclasses. cbn [In].
  intros [<-|[<-|[<-|[<-|[<-|[<-|[]]]]]]] H; apply Some_eq_inv in H;
    subst op; reflexivity.
Qed.

Lemma Response_body_fields (c : cls) (f : FieldSpec) :
  In c Response_subclasses -> In f (skipn 1 (fields c)) ->
  f_type f <> composite_t.
Proof.
  unfold Response_subclasses. cbn [In].
  intros [<-|[<-|[<-|[<-|[<-|[<-|[]]]]]]]; cbn [fields skipn]; intros Hf;
    each_field Hf; discriminate.
Qed.

Lemma Response_body_names (c : cls) :
  In c Response_subclasses -> List.NoDup (map f_name (skipn 1 (fields c))).
Proof.
  unfold Response_subclasses. cbn [In].
  intros [<-|[<-|[<-|[<-|[<-|[<-|[]]]]]]]; cbn [fields skipn map];
    repeat (constructor; [cbn [In]; intros H;
                          repeat (destruct H as [H|H]; [discriminate H|]);
                          exact H|]);
    constructor.
Qed.

Lemma status_skipped (code : Z) (f : FieldSpec) (m M : message)
    (h H : message) :
  getattr m "header" = VMsg h -> getattr M "header" = VMsg H ->
  getattr h "status" = getattr H "status" ->
  skipped (with_condition (status_is code) f) m
  = skipped (with_condition (status_is code) f) M.
Proof.
  intros Hm HM Hs. unfold skipped. cbn [f_condition with_condition].
  unfold status_is. rewrite Hm, HM. cbn [attr]. rewrite Hs. reflexivity.
Qed.

Lemma Response_same_walk (c : cls) (slots : string -> value)
    (m h H : message) :
  In c Response_subclasses ->
  getattr m "header" = VMsg h -> slots "header" = VMsg H ->
  getattr h "status" = getattr H "status" ->
  same_walk (Msg c slots) (skipn 1 (fields c)) m.
Proof.
  unfold Response_subclasses. cbn [In].
  intros [<-|[<-|[<-|[<-|[<-|[<-|[]]]]]]] Hm HM Hs;
    cbn [fields skipn same_walk]; try exact I;
    (split; [try reflexivity; apply (status_skipped _ _ _ _ h H); assumption|]);
    match goal with |- match ?s with _ => _ end => destruct s as [[|]|?] end;
    exact I.
Qed.

(** An encoded response is a frame with a complete header, and the walk
    over the fields after the header consumes the rest of it. *)
Lemma encoded_response_frame (c : cls) (slots hslots : string -> value)
    (op : Z) (data : list byte) :
  In c Response_subclasses -> OP_CODE c = Some op ->
  slots "header" = VMsg (Msg ResponseHeader hslots) ->
  hslots "op" = VInt op ->
  encode (Msg c slots) = Ok data ->
  exists (magic opb status tcm : byte) (id : Z) (d tail : list byte)
         (r : message),
    data = magic :: d /\
    Decoder.uvarlong d = Ok (VInt id, opb :: status :: tcm :: tail) /\
    Z_of_byte opb = op /\
    _decode recursion_limit
      (response_on c (Z_of_byte opb)
         (header_of (Z_of_byte magic) id (Z_of_byte opb) (Z_of_byte status)
            (Z_of_byte tcm))) tail 1 = Ok (r, []).
Proof.
  intros Hc Hop Hh Hhop Henc.
  destruct (Response_fields c Hc) as [fs Hfs].
  destruct (Response_encode_inv c slots hslots fs data Hfs Hh Henc)
    as (header & tail & Eh & Et & ->).
  destruct (ResponseHeader_layout _ _ _ Eh)
    as (magic & id & op' & status & tcm & Hm & Hmr & Hi & Hir & Ho & Hor
        & Hs & Hsr & Ht & Htr & ->).
  rewrite Hhop in Ho. inversion Ho. subst op'.
  apply fields_concat in Et. destruct Et as (chunks & HF & ->).
  cbn [app] in HF |- *.
  assert (Hbody : skipn 1 (fields c) = fs) by (rewrite Hfs; reflexivity).
  set (m0 := response_on c (Z_of_byte (byte_of_Z op))
               (header_of (Z_of_byte (byte_of_Z magic)) id
                  (Z_of_byte (byte_of_Z op)) (Z_of_byte (byte_of_Z status))
                  (Z_of_byte (byte_of_Z tcm)))).
  destruct (fields_roundtrip
              (fun f decoder =>
                 match f with
                 | VMsg m1 =>
                     let* (m', decoder') :=
                       _decode (Nat.pred recursion_limit) m1 decoder 0 in
                     Ok (VMsg m', decoder')
                 | _ => Raise AttributeError
                 end)
              (Msg c slots) fs chunks m0 [] HF)
    as (r & Hdec & _).
  - intros f Hf. rewrite <- Hbody in Hf.
    apply (Response_body_fields c f Hc Hf).
  - rewrite <- Hbody. apply Response_body_names, Hc.
  - rewrite <- Hbody.
    apply (Response_same_walk c slots m0
             (setattr (header_of (Z_of_byte (byte_of_Z magic)) id
                         (Z_of_byte (byte_of_Z op))
                         (Z_of_byte (byte_of_Z status))
                         (Z_of_byte (byte_of_Z tcm)))
                "op" (VInt (Z_of_byte (byte_of_Z op))))
             (Msg ResponseHeader hslots) Hc); [reflexivity|exact Hh|].
    change (VInt (Z_of_byte (byte_of_Z status)) = hslots "status").
    rewrite Hs, (Z_of_byte_of_Z status Hsr). reflexivity.
  - rewrite app_nil_r in Hdec.
    exists (byte_of_Z magic), (byte_of_Z op), (byte_of_Z status),
      (byte_of_Z tcm), id,
      (Encoder.uvar 10 id
         ++ byte_of_Z op :: byte_of_Z status :: byte_of_Z tcm
         :: concat chunks),
      (concat chunks), r.
    split; [rewrite <- app_assoc; reflexivity|].
    split; [apply uvarlong_roundtrip; exact Hir|].
    split; [apply Z_of_byte_of_Z; exact Hor|].
    rewrite recursion_limit_S, _decode_unfold.
    change (class_of (response_on c (Z_of_byte (byte_of_Z op))
                        (header_of (Z_of_byte (byte_of_Z magic)) id
                           (Z_of_byte (byte_of_Z op))
                           (Z_of_byte (byte_of_Z status))
                           (Z_of_byte (byte_of_Z tcm))))) with c.
    rewrite Hbody. exact Hdec.
Qed.

(** X24. An encoded response that is cut short is never taken for a
    complete frame: [decode] returns no response for any proper prefix of
    the encoding of a response. *)
Theorem truncated_response_does_not_decode (c : cls)
    (slots hslots : string -> value) (op : Z)
    (data received missing : list byte) :
  In c Response_subclasses -> OP_CODE c = Some op ->
  slots "header" = VMsg (Msg ResponseHeader hslots) ->
  hslots "op" = VInt op ->
  encode (Msg c slots) = Ok data ->
  data = received ++ missing -> missing <> [] ->
  forall r, decode received <> Ok r.
Proof.
  intros Hc Hop Hh Hhop Henc Hsplit Hmissing r' Hr'.
  destruct (encoded_response_frame c slots hslots op data Hc Hop Hh Hhop Henc)
    as (magic & opb & status & tcm & id & d & tail & r
        & Hdata & Hid & Hopb & Hdec).
  destruct (decode_Ok_inv _ _ Hr')
    as (magic' & op' & status' & tcm' & id' & d' & body' & rest' & c'
        & -> & Hid' & Hc' & _ & _ & Hdec').
  rewrite Hdata in Hsplit. cbn [app] in Hsplit.
  apply cons_eq_inv in Hsplit. destruct Hsplit as [-> ->].
  pose proof (call_more uvarlong_t _ _ missing _ Hid') as Hmore.
  cbn [Decoder.call app] in Hmore. rewrite Hid in Hmore.
  apply Ok_inj in Hmore. inversion Hmore. subst.
  rewrite (Response_class_of c _ Hc Hop) in Hc'.
  apply Some_eq_inv in Hc'. subst c'.
  rewrite (_decode_more missing _ _ _ _ _ _ Hdec') in Hdec.
  apply Ok_inj in Hdec. inversion Hdec as [[Hr Hrest]].
  apply app_eq_nil in Hrest. destruct Hrest as [_ Hm]. contradiction.
Qed.

Lemma truncated_response_does_not_decode_witness :
  encode GetResponse_example = Ok [xa1; x01; x04; x00; x00; x02; x41; x42] /\
  forall r, decode [xa1; x01; x04; x00; x00; x02; x41] <> Ok r.
Proof.
  split; [reflexivity|].
  exact (truncated_response_does_not_decode GetResponse
           (fun n => getattr GetResponse_example n)
           (fun n => getattr (header_of 0xA1 1 0x04 Status.OK 0) n)
           4 [xa1; x01; x04; x00; x00; x02; x41; x42]
           [xa1; x01; x04; x00; x00; x02; x41] [x42]
           ltac:(left; reflexivity) eq_refl eq_refl eq_refl eq_refl eq_refl
           ltac:(discriminate)).
Defined.

(** ** The order of the response classes *)

Lemma dispatch_no_match (op : Z) (cl : list cls) :
  forall (rh : message) (acc : option message),
    getattr rh "op" = VInt op ->
    (forall c, In c cl -> has_opcode op c = false) ->
    dispatch cl rh acc = Ok acc.
Proof.
  induction cl as [|c cl IH]; intros rh acc Hop Hno; [reflexivity|].
  cbn [dispatch]. pose proof (Hno c (or_introl eq_refl)) as Hc.
  unfold has_opcode in Hc.
  assert (Hno' : forall c', In c' cl -> has_opcode op c' = false)
    by (intros c' Hc'; apply Hno; right; exact Hc').
  destruct (OP_CODE c) as [o|]; [|apply IH; assumption].
  rewrite Hop. cbn [py_eq_int]. rewrite Hc. apply IH; assumption.
Qed.

Lemma opcode_identifies_class (op : Z) (c c' : cls) :
  In c Response_subclasses -> In c' Response_subclasses ->
  has_opcode op c = true -> has_opcode op c' = true -> c = c'.
Proof.
  unfold Response_subclasses, has_opcode. cbn [In].
  intros [<-|[<-|[<-|[<-|[<-|[<-|[]]]]]]] [<-|[<-|[<-|[<-|[<-|[<-|[]]]]]]];
    cbn [OP_CODE]; intros H1 H2; try reflexivity;
    apply Z.eqb_eq in H1; subst op; discriminate H2.
Qed.

Lemma dispatch_any (op : Z) (cl : list cls) :
  forall rh : message,
    getattr rh "op" = VInt op ->
    (forall c, In c cl -> In c Response_subclasses) ->
    List.NoDup cl ->
    dispatch cl rh None
    = Ok (match find (has_opcode op) cl with
          | Some c => Some (response_on c op rh)
          | None => None
          end).
Proof.
  induction cl as [|c cl IH]; intros rh Hop Hsub Hnd; [reflexivity|].
  apply List.NoDup_cons_iff in Hnd. destruct Hnd as [Hfresh Hnd].
  assert (Hc : In c Response_subclasses) by (apply Hsub; left; reflexivity).
  assert (Hsub' : forall c', In c' cl -> In c' Response_subclasses)
    by (intros c' Hc'; apply Hsub; right; exact Hc').
  cbn [dispatch find]. unfold has_opcode at 1.
  destruct (OP_CODE c) as [o|] eqn:Ho; [|apply IH; assumption].
  rewrite Hop. cbn [py_eq_int].
  destruct (Z.eqb_spec op o) as [->|Hne]; [|apply IH; assumption].
  rewrite (construct_response c o rh Hc Ho). cbv beta iota.
  change (getattr (response_on c o rh) "header")
    with (VMsg (setattr rh "op" (VInt o))).
  cbv beta iota. apply (dispatch_no_match o).
  - rewrite getattr_setattr. reflexivity.
  - intros c' Hc'. destruct (has_opcode o c') eqn:E; [|reflexivity].
    exfalso. apply Hfresh.
    assert (Hcc : c = c').
    { apply (opcode_identifies_class o); [exact Hc|apply Hsub', Hc'| |exact E].
      unfold has_opcode. rewrite Ho. apply Z.eqb_refl. }
    rewrite Hcc. exact Hc'.
Qed.

Lemma find_opcode_permutation (op : Z) (cl : list cls) :
  Permutation cl Response_subclasses ->
  find (has_opcode op) cl = find (has_opcode op) Response_subclasses.
Proof.
  intros Hperm.
  assert (Hin : forall c, In c cl <-> In c Response_subclasses).
  { intros c. split; apply Permutation_in;
      [exact Hperm|symmetry; exact Hperm]. }
  destruct (find (has_opcode op) cl) as [c|] eqn:E1;
    destruct (find (has_opcode op) Response_subclasses) as [c'|] eqn:E2.
  - apply find_some in E1, E2. destruct E1 as [H1 P1], E2 as [H2 P2].
    f_equal. apply (opcode_identifies_class op); [apply Hin| | |];
      assumption.
  - apply find_some in E1. destruct E1 as [H1 P1].
    rewrite (find_none _ _ E2 c (proj1 (Hin c) H1)) in P1. discriminate.
  - apply find_some in E2. destruct E2 as [H2 P2].
    rewrite (find_none _ _ E1 c' (proj2 (Hin c') H2)) in P2. discriminate.
  - reflexivity.
Qed.

(** X25. The loop of [decode] over [Response.__subclasses__()] gives the
    same response whatever the order in which the classes are listed: no
    two response classes share an opcode, so at most one class matches the
    opcode of the header, and the last match, which the loop keeps, is the
    only one. *)
Theorem dispatch_order_is_irrelevant (classes : list cls) (rh : message)
    (op : Z) :
  Permutation classes Response_subclasses ->
  getattr rh "op" = VInt op ->
  dispatch classes rh None = dispatch Response_subclasses rh None /\
  (forall c c', In c classes -> In c' classes ->
     has_opcode op c = true -> has_opcode op c' = true -> c = c').
Proof.
  intros Hperm Hop.
  assert (Hsub : forall c, In c classes -> In c Response_subclasses)
    by (intros c; apply Permutation_in; exact Hperm).
  split.
  - rewrite (dispatch_any op classes rh Hop Hsub).
    + rewrite (dispatch_any op Response_subclasses rh Hop).
      * rewrite (find_opcode_permutation op classes Hperm). reflexivity.
      * intros c Hc. exact Hc.
      * unfold Response_subclasses.
        repeat (constructor;
                [cbn [In]; intros H;
                 repeat (destruct H as [H|H]; [discriminate H|]); exact H|]).
        constructor.
    + apply (Permutation_NoDup (l := Response_subclasses));
        [symmetry; exact Hperm|].
      unfold Response_subclasses.
      repeat (constructor;
              [cbn [In]; intros H;
               repeat (destruct H as [H|H]; [discriminate H|]); exact H|]).
      constructor.
  - intros c c' Hc Hc'. apply opcode_identifies_class; apply Hsub; assumption.
Qed.

Lemma dispatch_order_is_irrelevant_witness :
  dispatch (rev Response_subclasses) (header_of 0xA1 1 0x04 Status.OK 0) None
  = dispatch Response_subclasses (header_of 0xA1 1 0x04 Status.OK 0) None.
Proof.
  exact (proj1 (dispatch_order_is_irrelevant (rev Response_subclasses)
                  (header_of 0xA1 1 0x04 Status.OK 0) 4
                  (Permutation_sym (Permutation_rev Response_subclasses))
                  eq_refl)).
Defined.

(** ** A request without a header *)

(** X26. A call of [send] with a request whose header is no message: the
    assignment of the request id raises an AttributeError, which ends the
    call before anything is written or read; the results table is as it
    was, and the id taken from the counter is used up. *)
Theorem send_without_header (turns : nat) (request : message)
    (self : Protocol) :
  (forall h, getattr request "header" <> VMsg h) ->
  send turns request self
  = ({| conn := conn self; _id := _id self + 1; _resps := _resps self |},
     Some (Raise AttributeError)).
Proof.
  intros Hh. rewrite send_unfold. cbv zeta. unfold set_header.
  destruct (getattr request "header"); try reflexivity.
  destruct (Hh m eq_refl).
Qed.

Lemma send_without_header_witness :
  send 1 (Msg PingRequest (fun _ => VNone))
    (Protocol_init (connection_with [[xa1; x01; x18; x00; x00]]))
  = ({| conn := connection_with [[xa1; x01; x18; x00; x00]]; _id := 1;
        _resps := ∅ |},
     Some (Raise AttributeError)).
Proof.
  exact (send_without_header 1 (Msg PingRequest (fun _ => VNone))
           (Protocol_init (connection_with [[xa1; x01; x18; x00; x00]]))
           ltac:(intros h; discriminate)).
Defined.

(** ** The frame of a PutRequest with default durations *)

(** X27. The frame of a PutRequest built from a key and a value only, for
    every request id, key and value: the default request header with
    opcode 01, the key, the byte 77 of the two default time units, and the
    value.  The defaults of lifespan and max_idle are never written. *)
Theorem PutRequest_default_frame (id : Z) (key value : list byte) :
  0 <= id < UVARLONG_LIMIT ->
  Z.of_nat (length key) < UVARINT_LIMIT ->
  Z.of_nat (length value) < UVARINT_LIMIT ->
  (let* request := PutRequest_with_id key value id in encode request)
  = Ok (xa0 :: Encoder.uvar 10 id
          ++ [x19; x01; x00; x00; x01; x00]
          ++ (Encoder.uvar 5 (Z.of_nat (length key)) ++ key)
          ++ [x77]
          ++ Encoder.uvar 5 (Z.of_nat (length value)) ++ value).
Proof.
  intros Hid Hkey Hvalue.
  assert (Hreq : exists slots,
             PutRequest_with_id key value id = Ok (Msg PutRequest slots) /\
             slots "header"
             = VMsg (Msg RequestHeader
                       (fun n => getattr (RequestHeader_with 1 id) n)) /\
             slots "key" = VBytes key /\ slots "value" = VBytes value /\
             slots "tunits" = VPair TimeUnits.DEFAULT TimeUnits.DEFAULT)
    by (eexists; split; [reflexivity|];
        split; [reflexivity|]; split; [reflexivity|]; split; reflexivity).
  destruct Hreq as (slots & -> & Hh & Hk & Hv & Ht).
  cbv beta iota.
  rewrite (Request_encode PutRequest slots _ _ eq_refl Hh).
  change (Msg RequestHeader (fun n => getattr (RequestHeader_with 1 id) n))
    with (RequestHeader_with 1 id).
  rewrite RequestHeader_with_bytes by (lia || assumption).
  assert (Hraw : forall b : list byte,
             Z.of_nat (length b) < UVARINT_LIMIT ->
             Encoder.raw b [] = Ok (Encoder.uvar 5 (Z.of_nat (length b)) ++ b)).
  { intros b Hb. unfold Encoder.raw. cbv zeta.
    destruct (Z.ltb_spec (Z.of_nat (length b)) UVARINT_LIMIT) as [_|?];
      [reflexivity|lia]. }
  assert (Htail : _encode_fields _encode_composite PutRequest slots
                    (skipn 1 (fields PutRequest)) []
                  = Ok ((Encoder.uvar 5 (Z.of_nat (length key)) ++ key)
                          ++ [x77]
                          ++ Encoder.uvar 5 (Z.of_nat (length value))
                          ++ value)).
  { apply (proj2 (fields_concat _ _ _ _ _)).
    exists [Encoder.uvar 5 (Z.of_nat (length key)) ++ key; [x77]; []; [];
            Encoder.uvar 5 (Z.of_nat (length value)) ++ value].
    split; [|cbn [concat app]; rewrite app_nil_r; reflexivity].
    cbn [fields skipn].
    repeat match goal with |- Forall2 _ _ _ => constructor end.
    - unfold field_bytes. cbn [getattr f_name field]. rewrite Hk.
      exact (Hraw key Hkey).
    - unfold field_bytes. cbn [getattr f_name field with_default].
      rewrite Ht. reflexivity.
    - unfold field_bytes, skipped.
      cbn [getattr f_name field with_default with_condition f_condition].
      unfold tunit_is_explicit. cbn [getattr]. rewrite Ht. reflexivity.
    - unfold field_bytes, skipped.
      cbn [getattr f_name field with_default with_condition f_condition].
      unfold tunit_is_explicit. cbn [getattr]. rewrite Ht. reflexivity.
    - unfold field_bytes. cbn [getattr f_name field]. rewrite Hv.
      exact (Hraw value Hvalue). }
  cbn [fields skipn] in Htail. rewrite Htail.
  cbn [app]. rewrite <- !app_assoc. reflexivity.
Qed.

Lemma PutRequest_default_frame_witness :
  (let* request := PutRequest_with_id [x6b] [x76; x31] 1 in encode request)
  = Ok ([xa0; x01; x19; x01; x00; x00; x01; x00] ++ [x01; x6b] ++ [x77]
        ++ [x02; x76; x31]).
Proof.
  exact (PutRequest_default_frame 1 [x6b] [x76; x31]
           ltac:(vm_compute; split; congruence) ltac:(reflexivity)
           ltac:(reflexivity)).
Defined.

(** ** C4: EncodeError and the unset field the walk reaches *)

Lemma Forall_field_bytes (m : message) (pre : list FieldSpec) :
  Forall (fun g => exists chunk, field_bytes m g = Ok chunk) pre <->
  exists chunks,
    Forall2 (fun g chunk => field_bytes m g = Ok chunk) pre chunks.
Proof.
  induction pre as [|g pre IH].
  - split; [intros _; exists []; constructor|intros _; constructor].
  - split.
    + intros H. apply Forall_cons in H. destruct H as [[chunk Hg] H].
      apply IH in H. destruct H as [chunks H].
      exists (chunk :: chunks). constructor; assumption.
    + intros [chunks H]. apply Forall2_cons_inv_l in H.
      destruct H as (chunk & chunks' & Hg & H & _).
      constructor; [eauto|]. apply IH. eauto.
Qed.

Lemma encode_error_reaches :
  forall (m : message) (e : Encoder.t) (cn nm : string),
    _encode m e = Raise (EncodeError cn nm) -> reaches_unset_required m.
Proof.
  apply (message_induction
           (fun m => forall e cn nm,
                _encode m e = Raise (EncodeError cn nm) ->
                reaches_unset_required m)).
  intros c slots IH e cn nm H. rewrite _encode_unfold in H.
  apply fields_first_failure in H.
  destruct H as (pre & f & post & chunks & Hfs & HF & Hf).
  assert (Hpre : Forall (fun g => exists chunk,
                           field_bytes (Msg c slots) g = Ok chunk) pre)
    by (apply Forall_field_bytes; eauto).
  assert (Hin : In f (fields c)) by (rewrite Hfs; apply in_elt).
  unfold field_bytes in Hf. cbv zeta in Hf. cbn [getattr class_of] in Hf.
  destruct (skipped f (Msg c slots)) as [[|]|x] eqn:Hsk.
  - discriminate.
  - apply skipped_false in Hsk.
    destruct (is_None (slots (f_name f)) && negb (f_optional f)) eqn:Hn.
    + apply andb_true_iff in Hn. destruct Hn as [Hn Ho].
      apply is_None_true in Hn. apply negb_true_iff in Ho.
      exact (reaches_here (Msg c slots) pre f post Hfs Hpre Hsk Hn Ho).
    + destruct (wire_type_eq_dec (f_type f) composite_t) as [Hty|Hty].
      * destruct (slots (f_name f)) as [| | | | |m'] eqn:Hv;
          try (unfold encode_field in Hf; rewrite Hty in Hf; discriminate).
        rewrite (encode_field_composite _ _ _ Hty) in Hf.
        exact (reaches_nested (Msg c slots) pre f post m' Hfs Hpre Hsk Hty
                 Hv (IH _ _ Hv _ _ _ Hf)).
      * rewrite (encode_field_flat _ _ _ _ Hty) in Hf.
        destruct (call_raises _ _ _ _ Hf) as [?|[?|?]]; discriminate.
  - apply Raise_inj in Hf. subst x.
    destruct (skipped_raises _ _ _ _ Hin Hsk); discriminate.
Qed.

Lemma reaches_encode_error (m : message) :
  reaches_unset_required m ->
  forall e, exists cn nm, _encode m e = Raise (EncodeError cn nm).
Proof.
  induction 1 as [m pre f post Hfs Hpre Hc Hnone Hopt
                 |m pre f post m' Hfs Hpre Hc Hty Hget Hreach IH];
    intros e; destruct m as [c slots]; cbn [class_of getattr] in *;
    apply Forall_field_bytes in Hpre; destruct Hpre as [chunks HF];
    apply skipped_false in Hc.
  - exists (cls_name c), (f_name f). rewrite _encode_unfold.
    apply fields_first_failure. exists pre, f, post, chunks.
    split; [exact Hfs|]. split; [exact HF|].
    unfold field_bytes. cbv zeta. cbn [getattr class_of].
    rewrite Hc, Hnone, Hopt. reflexivity.
  - destruct (IH []) as (cn & nm & Hm'). exists cn, nm.
    rewrite _encode_unfold.
    apply fields_first_failure. exists pre, f, post, chunks.
    split; [exact Hfs|]. split; [exact HF|].
    unfold field_bytes. cbv zeta. cbn [getattr class_of].
    rewrite Hc, Hget. cbn [is_None andb].
    rewrite (encode_field_composite _ _ _ Hty). exact Hm'.
Qed.

Lemma reaches_unset (m : message) :
  reaches_unset_required m -> unset_required m.
Proof.
  induction 1 as [m pre f post Hfs Hpre Hc Hnone Hopt
                 |m pre f post m' Hfs Hpre Hc Hty Hget Hreach IH].
  - apply (unset_here m f); try assumption. rewrite Hfs. apply in_elt.
  - apply (unset_nested m f m'); try assumption. rewrite Hfs. apply in_elt.
Qed.

(** C4, counterexample.  A GetRequest whose key is unset has a field that
    is unset, not optional and under no condition, yet when its header
    attribute holds a number the walk fails on the header, which comes
    first, and [encode] raises an AttributeError, not an EncodeError. *)
Lemma unset_key_behind_bad_header : ~ EncodeError_iff_unset_required.
Proof.
  intros H.
  destruct (proj2 (H GetRequest_with_bad_header)) as (cn & nm & E).
  - apply (unset_here GetRequest_with_bad_header (field "key" bytes_t)).
    + cbn. tauto.
    + exact I.
    + reflexivity.
    + reflexivity.
  - revert E. vm_compute. discriminate.
Qed.

(** C4, as amended.  Encoding raises an EncodeError only when some field,
    of the message or of a message in one of its composite fields, is unset
    although it is not optional and its condition holds; and it raises one
    exactly when the walk reaches such a field, that is, when every field
    taken before it in the order of declaration is encoded or skipped.  (A
    field taken earlier that fails in another way raises its own exception
    first.)  A message that encodes has no such field.  When the encoding
    of the request raises inside [send], the error is what [send] raises
    and the connection is as it was: nothing has been written to it. *)
Theorem encode_error_iff_reaches_unset_required :
  (forall (m : message) (cn nm : string),
      encode m = Raise (EncodeError cn nm) -> unset_required m) /\
  (forall m : message,
      (exists cn nm, encode m = Raise (EncodeError cn nm)) <->
      reaches_unset_required m) /\
  (forall m : message, reaches_unset_required m -> unset_required m) /\
  (forall (m : message) (data : list byte),
      encode m = Ok data -> ~ unset_required m) /\
  (forall (turns : nat) (request request' : message) (self : Protocol)
          (cn nm : string),
      set_header request "id" (VInt (_id self + 1)) = Ok request' ->
      encode request' = Raise (EncodeError cn nm) ->
      exists self',
        send turns request self = (self', Some (Raise (EncodeError cn nm))) /\
        conn self' = conn self).
Proof.
  split; [|split; [|split; [|split]]].
  - intros m cn nm H. apply encode_raises in H.
    exact (encode_error_unset _ _ _ _ H).
  - intros m. split.
    + intros (cn & nm & H). apply encode_raises in H.
      exact (encode_error_reaches _ _ _ _ H).
    + intros H. destruct (reaches_encode_error m H Encoder.new)
        as (cn & nm & E).
      exists cn, nm. apply encode_raises. exact E.
  - exact reaches_unset.
  - intros m data Hok Hun. unfold encode in Hok.
    destruct (_encode m Encoder.new) as [e'|x] eqn:E; [|discriminate].
    exact (encode_ok_set m Hun _ _ E).
  - intros turns request request' self cn nm Hset Henc.
    rewrite send_unfold. cbv zeta. rewrite Hset, Henc.
    eexists. split; reflexivity.
Qed.

Lemma encode_error_iff_reaches_unset_required_witness :
  (exists cn nm,
      encode PutRequest_without_tunits = Raise (EncodeError cn nm)) /\
  exists self',
    send 1 GetRequest_without_key (Protocol_init (connection_with []))
    = (self', Some (Raise (EncodeError "GetRequest" "key"))) /\
    conn self' = connection_with [].
Proof.
  destruct encode_error_iff_reaches_unset_required
    as (_ & Hiff & _ & _ & Hsend).
  split.
  - apply (Hiff PutRequest_without_tunits).
    apply (reaches_here PutRequest_without_tunits
             [Request_header; field "key" bytes_t]
             (with_default (VPair TimeUnits.DEFAULT TimeUnits.DEFAULT)
                (field "tunits" splitbyte_t))
             [with_condition (tunit_is_explicit 0)
                (with_default (VInt 10) (field "lifespan" uvarint_t));
              with_condition (tunit_is_explicit 1)
                (with_default (VInt 10) (field "max_idle" uvarint_t));
              field "value" bytes_t]).
    + reflexivity.
    + repeat constructor; eexists; reflexivity.
    + exact I.
    + reflexivity.
    + reflexivity.
  - refine (Hsend 1%nat GetRequest_without_key _
              (Protocol_init (connection_with [])) "GetRequest" "key" _ _);
      reflexivity.
Defined.
